(** * NetPulse: dispatch and coordination core

  A shallow embedding of the task fan-out of the monitoring server
  ([netpulse/backend/main.py]), of the regional agent server
  ([agent_server/server_agent.py]) and of the liveness sweep of the
  host-check service ([netpulse_main_server/backend/main.py]), with the
  properties of the specification stated over it.

  Conventions.  A Python [dict] with a fixed set of keys is a record;
  a [dict] used as a map is a [gmap] keyed by strings; a [list] is a
  [list].  Every module-level store of the Python code is a field of an
  explicit state record, threaded through the handlers.  Values the code
  draws from the outside ([uuid.uuid4()], [secrets.token_hex],
  [datetime.now()], the reply of an HTTP call) are arguments of the
  handler that draws them.  A timestamp is the number of microseconds
  since the epoch ([datetime.isoformat] and [datetime.fromisoformat] are
  inverse to each other on the values the code produces). *)

From Stdlib Require Import ZArith Lia.
From stdpp Require Import base option strings list gmap fin_maps.

Open Scope string_scope.
Open Scope list_scope.

(** ** Python helpers *)

Module Py.

(** [s.startswith(p)] *)
Definition startswith (s p : string) : bool := String.prefix p s.

(** [s.replace(old, new)] for a non-empty [old]: every non-overlapping
    occurrence, left to right.  [skip] counts the characters of a matched
    occurrence that are still to be dropped. *)
Fixpoint replace_from (skip : nat) (s old new : string) : string :=
  match s with
  | EmptyString => EmptyString
  | String c rest =>
      match skip with
      | S k => replace_from k rest old new
      | O =>
          if String.prefix old s
          then new +:+ replace_from (String.length old - 1) rest old new
          else String c (replace_from 0 rest old new)
      end
  end.

Definition replace (s old new : string) : string := replace_from 0 s old new.

(** [x in xs] on a list of strings *)
Definition contains (xs : list string) (x : string) : bool :=
  bool_decide (x ∈ xs).

(** Truthiness of a string: the empty string is falsy. *)
Definition truthy (s : string) : bool :=
  match s with EmptyString => false | String _ _ => true end.

End Py.

(** ** The task dictionary

  The [task_data] dictionary built by [create_task] and relayed as JSON
  to the agent server, which keeps it in [tasks_queue]. *)

Definition json_object := list (string * string).

Module Task.

Record t := mk {
  id : string;
  parent_task_id : option string;
  target : string;
  check_type : string;
  country : string;
  status : string;
  created_at : Z;
  assigned_agent : option string;
  result : option json_object;
  agent_server : string
}.

Definition set_status (s : string) (x : t) : t :=
  mk (id x) (parent_task_id x) (target x) (check_type x) (country x) s
     (created_at x) (assigned_agent x) (result x) (agent_server x).

Definition set_assigned_agent (a : string) (x : t) : t :=
  mk (id x) (parent_task_id x) (target x) (check_type x) (country x)
     (status x) (created_at x) (Some a) (result x) (agent_server x).

Definition set_country (c : string) (x : t) : t :=
  mk (id x) (parent_task_id x) (target x) (check_type x) c (status x)
     (created_at x) (assigned_agent x) (result x) (agent_server x).

End Task.

Inductive http_error := HTTPException (status_code : nat) (detail : string).

(** ** The monitoring server: fan-out and aggregation
  ([netpulse/backend/main.py]) *)

Module Coordinator.

Record server_config := { url : string; token : string }.

Definition AGENT_SERVERS : list (string * server_config) :=
  [ ("ru", {| url := "http://localhost:8001";
              token := "ru-server-secret-token-12345" |}) ].

Definition agent_server_of (country : string) : option server_config :=
  snd <$> List.find (λ kv, bool_decide (fst kv = country)) AGENT_SERVERS.

Definition all_check_types : list string :=
  [ "http"; "https"; "ping"; "tcp"; "traceroute";
    "dns_a"; "dns_aaaa"; "dns_mx"; "dns_ns"; "dns_txt" ].

(** The Redis store.  The program keeps JSON documents under the keys
    [task:<id>] (written with SET, read with GET and SCAN) and lists of
    ids under the keys [queue:<country>] (written with LPUSH); the two
    families of keys are disjoint, and each has its own map here. *)
Record redis := {
  kv : gmap string Task.t;
  lists : gmap string (list string)
}.

Definition redis_set (key : string) (v : Task.t) (r : redis) : redis :=
  {| kv := <[key := v]> (kv r); lists := lists r |}.

Definition redis_get (key : string) (r : redis) : option Task.t :=
  kv r !! key.

Definition redis_lpush (key value : string) (r : redis) : redis :=
  {| kv := kv r;
     lists := <[key := value :: default [] (lists r !! key)]> (lists r) |}.

Definition redis_lrange (key : string) (r : redis) : list string :=
  default [] (lists r !! key).

(** [scan_iter(prefix + "*")]: the keys that start with [prefix], in the
    order in which the store enumerates them. *)
Definition redis_scan_iter (prefix : string) (r : redis) : list string :=
  List.filter (λ key, Py.startswith key prefix) (fst <$> map_to_list (kv r)).

(** What [create_task] draws from the outside. *)
Inductive relay_reply :=
| Reply (status_code : nat) (text : string)
| Raised (error : string).

Record world := {
  uuid4 : string;                          (* [str(uuid.uuid4())] *)
  choice : nat;                            (* the draw of [secrets.choice] *)
  now : nat → Z;                           (* [datetime.now()] in iteration [i] *)
  post_assign_task : Task.t → relay_reply  (* [requests.post(.../assign-task)] *)
}.

(** [secrets.choice(seq)] on a non-empty sequence *)
Definition secrets_choice (draw : nat) (seq : list string) : option string :=
  seq !! (draw mod length seq)%nat.

Record loop_state := {
  store : redis;
  sub_tasks : list string;
  log : list string
}.

Definition sub_task_id (task_id check_type : string) : string :=
  task_id +:+ "-" +:+ check_type.

Definition task_data (w : world) (i : nat) (task_id target check_type country : string)
  : Task.t :=
  {| Task.id := sub_task_id task_id check_type;
     Task.parent_task_id := Some task_id;
     Task.target := target;
     Task.check_type := check_type;
     Task.country := country;
     Task.status := "pending";
     Task.created_at := now w i;
     Task.assigned_agent := None;
     Task.result := None;
     Task.agent_server := country |}.

(** The [try] block around the relay: any failure is logged, nothing
    else happens. *)
Definition relay (w : world) (country : string) (td : Task.t) (log : list string)
  : list string :=
  match agent_server_of country with
  | None => log ++ ["Error sending task to agent server: " +:+ country]
  | Some _ =>
      match post_assign_task w td with
      | Reply code text =>
          if bool_decide (code = 200%nat) then log
          else log ++ ["Failed to send task to agent server: " +:+ text]
      | Raised e => log ++ ["Error sending task to agent server: " +:+ e]
      end
  end.

(** The body of [for check_type in all_check_types], iteration [i]
    onwards. *)
Fixpoint fan_out (w : world) (task_id target country : string)
    (i : nat) (check_types : list string) (st : loop_state) : loop_state :=
  match check_types with
  | [] => st
  | check_type :: rest =>
      let td := task_data w i task_id target check_type country in
      let r1 := redis_set ("task:" +:+ Task.id td) td (store st) in
      let r2 := redis_lpush ("queue:" +:+ country) (Task.id td) r1 in
      let log' := relay w country td (log st) in
      fan_out w task_id target country (S i) rest
        {| store := r2; sub_tasks := sub_tasks st ++ [Task.id td]; log := log' |}
  end.

Record created := {
  created_status : string;
  created_task_id : string;
  created_target : string;
  created_country : string;
  created_check_types : list string;
  created_sub_tasks : list string;
  created_agent_server : string
}.

Definition resolve_country (w : world) (country : string) : option string :=
  if bool_decide (country = "auto")
  then secrets_choice (choice w) (fst <$> AGENT_SERVERS)
  else Some country.

(** [POST /tasks] *)
Definition create_task (w : world) (target country : string) (r : redis)
  : http_error + (created * redis * list string) :=
  match resolve_country w country with
  | None => inl (HTTPException 500 "IndexError")
  | Some country =>
      match agent_server_of country with
      | None =>
          inl (HTTPException 400 ("No agent server for country: " +:+ country))
      | Some cfg =>
          let task_id := uuid4 w in
          let st := fan_out w task_id target country 0 all_check_types
                      {| store := r; sub_tasks := []; log := [] |} in
          inr ({| created_status := "success";
                  created_task_id := task_id;
                  created_target := target;
                  created_country := country;
                  created_check_types := all_check_types;
                  created_sub_tasks := sub_tasks st;
                  created_agent_server := url cfg |},
               store st, log st)
      end
  end.

(** [TaskManager.get_task] *)
Definition get_task (task_id : string) (r : redis) : option Task.t :=
  redis_get ("task:" +:+ task_id) r.

(** The first loop of [get_task_status] over the scanned keys. *)
Fixpoint scan_sub_tasks (task_id : string) (r : redis) (keys : list string)
    (found : list Task.t) : list Task.t :=
  match keys with
  | [] => found
  | key :: rest =>
      let stored_task_id := Py.replace key "task:" "" in
      if Py.startswith stored_task_id (task_id +:+ "-")
      then match get_task stored_task_id r with
           | Some task => scan_sub_tasks task_id r rest (found ++ [task])
           | None => scan_sub_tasks task_id r rest found
           end
      else scan_sub_tasks task_id r rest found
  end.

(** The second loop: [status_counts[status] = status_counts.get(status, 0) + 1]. *)
Fixpoint count_statuses (tasks : list Task.t) (status_counts : gmap string nat)
  : gmap string nat :=
  match tasks with
  | [] => status_counts
  | task :: rest =>
      let status := Task.status task in
      count_statuses rest
        (<[status := (default 0 (status_counts !! status) + 1)%nat]> status_counts)
  end.

Record status_report := {
  report_parent_task_id : string;
  report_target : option string;
  report_country : option string;
  status_summary : gmap string nat;
  completed : bool;
  total_checks : option nat;
  checks : list Task.t
}.

(** [GET /tasks/{task_id}] *)
Definition get_task_status (task_id : string) (r : redis)
  : http_error + status_report :=
  let found := scan_sub_tasks task_id r (redis_scan_iter "task:" r) [] in
  match found with
  | [] =>
      match get_task task_id r with
      | Some main_task =>
          inr {| report_parent_task_id := task_id;
                 report_target := Some (Task.target main_task);
                 report_country := Some (Task.country main_task);
                 status_summary := {[ Task.status main_task := 1%nat ]};
                 completed := bool_decide (Task.status main_task = "completed");
                 total_checks := None;
                 checks := [main_task] |}
      | None => inl (HTTPException 404 "Task not found")
      end
  | first :: _ =>
      let status_counts := count_statuses found ∅ in
      inr {| report_parent_task_id := task_id;
             report_target := Some (Task.target first);
             report_country := Some (Task.country first);
             status_summary := status_counts;
             completed :=
               bool_decide (default 0%nat (status_counts !! "completed") = length found);
             total_checks := Some (length found);
             checks := found |}
  end.

(** The sum of the counts of a summary. *)
Definition summary_total (m : gmap string nat) : nat :=
  map_fold (λ _ n acc, (n + acc)%nat) 0%nat m.

(** The key under which a sub-task is stored. *)
Definition task_key (task_id check_type : string) : string :=
  "task:" +:+ sub_task_id task_id check_type.

(** The number of tasks of a list with a given status. *)
Definition with_status (st : string) (tasks : list Task.t) : nat :=
  length (filter (λ task, Task.status task = st) tasks).

Definition empty_redis : redis := {| kv := ∅; lists := ∅ |}.

End Coordinator.

(** ** The agent dictionary of the agent server *)

Module Agent.

Record t := mk {
  id : string;
  name : string;
  country : string;
  token : string;
  capabilities : list string;
  status : string;
  current_tasks : Z;
  max_tasks : Z;
  created_at : Z;
  last_heartbeat : Z
}.

Definition set_status (s : string) (a : t) : t :=
  mk (id a) (name a) (country a) (token a) (capabilities a) s
     (current_tasks a) (max_tasks a) (created_at a) (last_heartbeat a).

Definition set_current_tasks (n : Z) (a : t) : t :=
  mk (id a) (name a) (country a) (token a) (capabilities a) (status a)
     n (max_tasks a) (created_at a) (last_heartbeat a).

Definition set_last_heartbeat (now : Z) (a : t) : t :=
  mk (id a) (name a) (country a) (token a) (capabilities a) (status a)
     (current_tasks a) (max_tasks a) (created_at a) now.

End Agent.

(** ** The regional agent server ([agent_server/server_agent.py]) *)

Module AgentServer.

Record config := {
  server_id : string;
  token : string;
  country : string;
  port : Z;
  main_server_url : string
}.

Definition CONFIG : config :=
  {| server_id := "agent-server-ru-01";
     token := "ru-server-secret-token-12345";
     country := "ru";
     port := 8001%Z;
     main_server_url := "http://localhost:8000" |}.

(** The three module-level stores. *)
Record state := {
  agents_db : gmap string Agent.t;
  tasks_queue : list Task.t;
  task_results : gmap string json_object
}.

Definition initial : state :=
  {| agents_db := ∅; tasks_queue := []; task_results := ∅ |}.

Definition default_capabilities : list string := ["http"; "ping"; "tcp"; "dns"].

(** What [AgentManager.create_agent] draws from the outside. *)
Record draw := {
  token_hex4 : string;     (* [secrets.token_hex(4)] *)
  token_hex16 : string;    (* [secrets.token_hex(16)] *)
  now_created : Z;         (* [datetime.now()] for [created_at] *)
  now_heartbeat : Z        (* [datetime.now()] for [last_heartbeat] *)
}.

Definition new_agent_id (d : draw) : string :=
  "agent-" +:+ country CONFIG +:+ "-" +:+ token_hex4 d.

(** [AgentManager.create_agent]; the worker thread it starts acts on the
    stores only through the requests below. *)
Definition create_agent (name : string) (capabilities : option (list string))
    (d : draw) (s : state) : Agent.t * state :=
  let capabilities :=
    match capabilities with
    | None => default_capabilities
    | Some caps => caps
    end in
  let agent_id := new_agent_id d in
  let agent_data :=
    {| Agent.id := agent_id;
       Agent.name := name;
       Agent.country := country CONFIG;
       Agent.token := token_hex16 d;
       Agent.capabilities := capabilities;
       Agent.status := "online";
       Agent.current_tasks := 0;
       Agent.max_tasks := 5;
       Agent.created_at := now_created d;
       Agent.last_heartbeat := now_heartbeat d |} in
  (agent_data,
   {| agents_db := <[agent_id := agent_data]> (agents_db s);
      tasks_queue := tasks_queue s;
      task_results := task_results s |}).

(** [AgentManager.get_agent] *)
Definition get_agent (agent_id : string) (s : state) : option Agent.t :=
  agents_db s !! agent_id.

(** [AgentManager.verify_agent]: [agent and agent["token"] == token] *)
Definition verify_agent (agent_id token : string) (s : state) : bool :=
  match agents_db s !! agent_id with
  | Some agent => bool_decide (Agent.token agent = token)
  | None => false
  end.

(** [AgentManager.verify_server_token] *)
Definition verify_server_token (tok : string) : bool :=
  bool_decide (tok = token CONFIG).

(** [AgentManager.stop_agent] *)
Definition stop_agent (agent_id : string) (s : state) : bool * state :=
  match agents_db s !! agent_id with
  | Some agent =>
      (true,
       {| agents_db := <[agent_id := Agent.set_status "stopped" agent]> (agents_db s);
          tasks_queue := tasks_queue s;
          task_results := task_results s |})
  | None => (false, s)
  end.

(** [TaskManager.add_task] *)
Definition add_task (task_data : Task.t) (s : state) : state :=
  {| agents_db := agents_db s;
     tasks_queue := tasks_queue s ++ [task_data];
     task_results := task_results s |}.

(** The test of the loop of [get_pending_task_for_agent]. *)
Definition eligible (agent_capabilities : list string) (task : Task.t) : bool :=
  bool_decide (Task.status task = "pending")
  && Py.contains agent_capabilities (Task.check_type task).

(** [TaskManager.get_pending_task_for_agent].  The Python function returns
    the dictionary object found in [tasks_queue]; here it returns the
    position of that object in the queue. *)
Fixpoint get_pending_task_for_agent (agent_capabilities : list string)
    (queue : list Task.t) : option nat :=
  match queue with
  | [] => None
  | task :: rest =>
      if eligible agent_capabilities task then Some 0%nat
      else S <$> get_pending_task_for_agent agent_capabilities rest
  end.

(** The body of the [if] of [update_task_status]; [if agent_id:] is false
    for [None] and for the empty string. *)
Definition write_status (status : string) (agent_id : option string) (task : Task.t)
  : Task.t :=
  let task := Task.set_status status task in
  match agent_id with
  | Some a => if Py.truthy a then Task.set_assigned_agent a task else task
  | None => task
  end.

(** [TaskManager.update_task_status]: the first task of the queue with the
    given id is updated in place, then the loop breaks. *)
Fixpoint update_task_status (task_id status : string) (agent_id : option string)
    (queue : list Task.t) : list Task.t :=
  match queue with
  | [] => []
  | task :: rest =>
      if bool_decide (Task.id task = task_id)
      then write_status status agent_id task :: rest
      else task :: update_task_status task_id status agent_id rest
  end.

(** [POST /assign-task] *)
Definition assign_task (task_data : Task.t) (server_token : string) (s : state)
  : (http_error + (string * nat)) * state :=
  if negb (verify_server_token server_token)
  then (inl (HTTPException 401 "Invalid server token"), s)
  else
    let task_data := Task.set_country (country CONFIG) (Task.set_status "pending" task_data) in
    let s' := add_task task_data s in
    (inr (Task.id task_data, length (tasks_queue s')), s').

(** [POST /create-agent] *)
Definition create_agent_endpoint (name server_token : string)
    (capabilities : option (list string)) (d : draw) (s : state)
  : (http_error + Agent.t) * state :=
  if negb (verify_server_token server_token)
  then (inl (HTTPException 401 "Invalid server token"), s)
  else let '(agent_data, s') := create_agent name capabilities d s in
       (inr agent_data, s').

(** [POST /stop-agent] *)
Definition stop_agent_endpoint (agent_id server_token : string) (s : state)
  : (http_error + string) * state :=
  if negb (verify_server_token server_token)
  then (inl (HTTPException 401 "Invalid server token"), s)
  else match stop_agent agent_id s with
       | (true, s') => (inr "success", s')
       | (false, s') => (inl (HTTPException 404 "Agent not found"), s')
       end.

(** The answer of [GET /agent/pending-task]: an in-band status or the task
    dictionary. *)
Inductive poll_reply :=
| InBand (status : string)
| Assigned (task : Task.t).

(** [GET /agent/pending-task].  [task] is the object found in the queue;
    it is returned after [update_task_status] has run, so the reply shows
    the object as it then is in the queue. *)
Definition get_pending_task (agent_id agent_token : string) (now : Z) (s : state)
  : (http_error + poll_reply) * state :=
  if negb (verify_agent agent_id agent_token s)
  then (inl (HTTPException 401 "Invalid agent credentials"), s)
  else
    match get_agent agent_id s with
    | None => (inr (InBand "offline"), s)
    | Some agent =>
        if negb (bool_decide (Agent.status agent = "online"))
        then (inr (InBand "offline"), s)
        else if (Agent.max_tasks agent <=? Agent.current_tasks agent)%Z
        then (inr (InBand "busy"), s)
        else
          match get_pending_task_for_agent (Agent.capabilities agent) (tasks_queue s) with
          | Some pos =>
              match tasks_queue s !! pos with
              | Some task =>
                  let queue :=
                    update_task_status (Task.id task) "assigned" (Some agent_id)
                      (tasks_queue s) in
                  let agent :=
                    Agent.set_last_heartbeat now
                      (Agent.set_current_tasks (Agent.current_tasks agent + 1) agent) in
                  (inr (Assigned (default task (queue !! pos))),
                   {| agents_db := <[agent_id := agent]> (agents_db s);
                      tasks_queue := queue;
                      task_results := task_results s |})
              | None => (inr (InBand "no_tasks"), s)
              end
          | None => (inr (InBand "no_tasks"), s)
          end
    end.

(** [POST /agent/submit-result] *)
Definition submit_result (task_id agent_id agent_token : string)
    (result : json_object) (s : state) : (http_error + string) * state :=
  if negb (verify_agent agent_id agent_token s)
  then (inl (HTTPException 401 "Invalid agent credentials"), s)
  else
    let queue := update_task_status task_id "completed" None (tasks_queue s) in
    let agents :=
      match get_agent agent_id s with
      | Some agent =>
          <[agent_id :=
              Agent.set_current_tasks (Z.max 0 (Agent.current_tasks agent - 1)) agent]>
            (agents_db s)
      | None => agents_db s
      end in
    (inr "success",
     {| agents_db := agents;
        tasks_queue := queue;
        task_results := <[task_id := result]> (task_results s) |}).

(** [POST /agent/heartbeat] *)
Definition agent_heartbeat (agent_id agent_token : string) (now : Z) (s : state)
  : (http_error + string) * state :=
  if negb (verify_agent agent_id agent_token s)
  then (inl (HTTPException 401 "Invalid agent credentials"), s)
  else
    match get_agent agent_id s with
    | Some agent =>
        (inr "success",
         {| agents_db :=
              <[agent_id := Agent.set_last_heartbeat now (Agent.set_status "online" agent)]>
                (agents_db s);
            tasks_queue := tasks_queue s;
            task_results := task_results s |})
    | None => (inr "success", s)
    end.

(** The write of the worker thread,
    [agents_db[agent_id]["last_heartbeat"] = datetime.now().isoformat()];
    a missing agent raises [KeyError], which the worker catches. *)
Definition worker_heartbeat (agent_id : string) (now : Z) (s : state) : state :=
  match agents_db s !! agent_id with
  | Some agent =>
      {| agents_db := <[agent_id := Agent.set_last_heartbeat now agent]> (agents_db s);
         tasks_queue := tasks_queue s;
         task_results := task_results s |}
  | None => s
  end.

(** Everything that acts on the stores.  The endpoints are coroutines
    without an [await], run by one event loop: each runs from its first to
    its last line before the next one starts, so an execution of the server
    is a sequence of requests. *)
Inductive request :=
| CreateAgent (name server_token : string) (capabilities : option (list string)) (d : draw)
| AssignTask (task_data : Task.t) (server_token : string)
| StopAgent (agent_id server_token : string)
| PendingTask (agent_id agent_token : string) (now : Z)
| SubmitResult (task_id agent_id agent_token : string) (result : json_object)
| Heartbeat (agent_id agent_token : string) (now : Z)
| WorkerHeartbeat (agent_id : string) (now : Z).

Definition handle (req : request) (s : state) : state :=
  match req with
  | CreateAgent name tok caps d => snd (create_agent_endpoint name tok caps d s)
  | AssignTask td tok => snd (assign_task td tok s)
  | StopAgent a tok => snd (stop_agent_endpoint a tok s)
  | PendingTask a tok now => snd (get_pending_task a tok now s)
  | SubmitResult tid a tok res => snd (submit_result tid a tok res s)
  | Heartbeat a tok now => snd (agent_heartbeat a tok now s)
  | WorkerHeartbeat a now => worker_heartbeat a now s
  end.

Fixpoint run (reqs : list request) (s : state) : state :=
  match reqs with
  | [] => s
  | req :: rest => run rest (handle req s)
  end.

(** The ids of the queued tasks, in queue order. *)
Definition queued_ids (s : state) : list string := Task.id <$> tasks_queue s.

(** The monitoring server relays each sub-task once, under an id built from
    a fresh uuid: an accepted [AssignTask] carries an id that is not in the
    queue yet. *)
Definition fresh (req : request) (s : state) : Prop :=
  match req with
  | AssignTask td tok =>
      verify_server_token tok = true → Task.id td ∉ queued_ids s
  | _ => True
  end.

Fixpoint fresh_run (reqs : list request) (s : state) : Prop :=
  match reqs with
  | [] => True
  | req :: rest => fresh req s ∧ fresh_run rest (handle req s)
  end.

(** The load of an agent. *)
Definition load (agent_id : string) (s : state) : option Z :=
  Agent.current_tasks <$> agents_db s !! agent_id.

(** The moves of a task status that the handlers make. *)
Inductive move : string → string → Prop :=
| move_assign : move "pending" "assigned"
| move_complete st : move st "completed".

(** The load of every agent is within its capacity. *)
Definition bounded (s : state) : Prop :=
  ∀ agent_id agent, agents_db s !! agent_id = Some agent →
    (0 ≤ Agent.current_tasks agent ≤ Agent.max_tasks agent)%Z.

(** A request that creates an agent under the id [agent_id]. *)
Definition recreates (agent_id : string) (req : request) : Prop :=
  match req with
  | CreateAgent _ _ _ d => new_agent_id d = agent_id
  | _ => False
  end.

(** What [eligible] tests. *)
Definition matches (caps : list string) (task : Task.t) : Prop :=
  Task.status task = "pending" ∧ Task.check_type task ∈ caps.

(** The state after an assignment to [agent]. *)
Definition assigned_state (s : state) (agent_id : string) (agent : Agent.t) (now : Z)
    (queue : list Task.t) : state :=
  {| agents_db :=
       <[agent_id :=
           Agent.set_last_heartbeat now
             (Agent.set_current_tasks (Agent.current_tasks agent + 1) agent)]>
         (agents_db s);
     tasks_queue := queue;
     task_results := task_results s |}.

End AgentServer.

(** ** The host-check service: liveness sweep
    ([netpulse_main_server/backend/main.py]) *)

Module HostCheck.

(** [config.py]; the values are read from the environment, with defaults. *)
Record Config := {
  MAX_TASKS_PER_AGENT : Z;
  TASK_TIMEOUT : Z;
  HEARTBEAT_TIMEOUT : Z
}.

Definition default_config : Config :=
  {| MAX_TASKS_PER_AGENT := 10; TASK_TIMEOUT := 300; HEARTBEAT_TIMEOUT := 300 |}.

(** The [agent_info] dictionary of [register_agent]. *)
Record agent_info := mk_agent_info {
  id : string;
  name : string;
  location : string;
  capabilities : list string;
  token : string;
  status : string;
  last_heartbeat : Z;
  active_tasks : Z;
  total_tasks : Z;
  created_at : Z
}.

Definition set_status (s : string) (a : agent_info) : agent_info :=
  mk_agent_info (id a) (name a) (location a) (capabilities a) (token a) s
    (last_heartbeat a) (active_tasks a) (total_tasks a) (created_at a).

(** The Redis store of the service: the documents under [agent:<id>] and
    the sets (here the one set [active_agents]). *)
Record redis := {
  kv : gmap string agent_info;
  sets : gmap string (gset string)
}.

Definition redis_set (key : string) (v : agent_info) (r : redis) : redis :=
  {| kv := <[key := v]> (kv r); sets := sets r |}.

Definition redis_smembers (key : string) (r : redis) : gset string :=
  default ∅ (sets r !! key).

Definition redis_srem (key member : string) (r : redis) : redis :=
  {| kv := kv r;
     sets := <[key := redis_smembers key r ∖ {[member]}]> (sets r) |}.

Definition redis_sadd (key member : string) (r : redis) : redis :=
  {| kv := kv r;
     sets := <[key := redis_smembers key r ∪ {[member]}]> (sets r) |}.

(** The in-memory dictionary [active_agents] and the Redis store. *)
Record state := {
  active_agents : gmap string agent_info;
  redis_client : redis
}.

Definition start : state :=
  {| active_agents := ∅; redis_client := {| kv := ∅; sets := ∅ |} |}.

(** What [register_agent] draws from the outside. *)
Record registration := {
  uuid4 : string;          (* [str(uuid.uuid4())] *)
  agent_token : string;    (* [generate_agent_token(name)], a digest of a random salt *)
  now_heartbeat : Z;       (* [datetime.now()] for [last_heartbeat] *)
  now_created : Z          (* [datetime.now()] for [created_at] *)
}.

(** [POST /api/agents/register] *)
Definition register_agent (name location : string) (capabilities : list string)
    (d : registration) (s : state) : (string * string) * state :=
  let agent_id := uuid4 d in
  let token := agent_token d in
  let info :=
    {| id := agent_id;
       name := name;
       location := location;
       capabilities := capabilities;
       token := token;
       status := "online";
       last_heartbeat := now_heartbeat d;
       active_tasks := 0;
       total_tasks := 0;
       created_at := now_created d |} in
  let r1 := redis_set ("agent:" +:+ agent_id) info (redis_client s) in
  let r2 := redis_sadd "active_agents" agent_id r1 in
  ((agent_id, token),
   {| active_agents := <[agent_id := info]> (active_agents s); redis_client := r2 |}).

(** [timedelta(seconds=n)] for an integer [n], in microseconds.  The
    constructor normalises to days, seconds and microseconds and raises
    [OverflowError] when the number of days, [n // 86400], is beyond
    999999999 in magnitude: [None]. *)
Definition timedelta_seconds (n : Z) : option Z :=
  if ((-999999999 <=? n / 86400) && (n / 86400 <=? 999999999))%Z
  then Some (n * 1000000)%Z
  else None.

(** The test of the first loop of a sweep; [None] when building the
    [timedelta] raises. *)
Definition stale (cfg : Config) (current_time : Z) (agent : agent_info) : option bool :=
  match timedelta_seconds (HEARTBEAT_TIMEOUT cfg) with
  | Some limit => Some (limit <? current_time - last_heartbeat agent)%Z
  | None => None
  end.

(** The first loop: the ids of [list(active_agents.items())] whose
    heartbeat is stale; [None] when the test raises at some agent. *)
Fixpoint collect_dead (cfg : Config) (current_time : Z)
    (items : list (string * agent_info)) (dead_agents : list string)
  : option (list string) :=
  match items with
  | [] => Some dead_agents
  | (agent_id, agent) :: rest =>
      match stale cfg current_time agent with
      | None => None
      | Some true => collect_dead cfg current_time rest (dead_agents ++ [agent_id])
      | Some false => collect_dead cfg current_time rest dead_agents
      end
  end.

(** The second loop.  [active_agents[agent_id]] on a missing key raises
    [KeyError], which ends the cycle in the [except] clause. *)
Fixpoint mark_offline (dead_agents : list string) (s : state) : state :=
  match dead_agents with
  | [] => s
  | agent_id :: rest =>
      match active_agents s !! agent_id with
      | None => s
      | Some agent =>
          let agent := set_status "offline" agent in
          let r1 := redis_set ("agent:" +:+ agent_id) agent (redis_client s) in
          let r2 := redis_srem "active_agents" agent_id r1 in
          mark_offline rest
            {| active_agents := delete agent_id (active_agents s);
               redis_client := r2 |}
      end
  end.

(** One cycle of [cleanup_dead_agents], after its [asyncio.sleep(60)], at
    clock reading [current_time]. *)
Definition cleanup_dead_agents (cfg : Config) (current_time : Z) (s : state) : state :=
  match collect_dead cfg current_time (map_to_list (active_agents s)) [] with
  | Some dead_agents => mark_offline dead_agents s
  | None => s   (* [except Exception]: the cycle ends before the second loop *)
  end.

(** The [while True] loop: one cycle per clock reading. *)
Fixpoint cleanup_loop (cfg : Config) (readings : list Z) (s : state) : state :=
  match readings with
  | [] => s
  | current_time :: rest => cleanup_loop cfg rest (cleanup_dead_agents cfg current_time s)
  end.

End HostCheck.

(** ** The two services side by side

    The host-check service and the agent server are two processes; each has
    its own stores. *)

Module Deployment.

Record state := {
  host_check : HostCheck.state;
  hub : AgentServer.state
}.

(** A sweep of the host-check service. *)
Definition sweep (cfg : HostCheck.Config) (current_time : Z) (s : state) : state :=
  {| host_check := HostCheck.cleanup_dead_agents cfg current_time (host_check s);
     hub := hub s |}.

(** A poll at the agent server. *)
Definition poll (agent_id agent_token : string) (now : Z) (s : state)
  : (http_error + AgentServer.poll_reply) * state :=
  let '(reply, h) := AgentServer.get_pending_task agent_id agent_token now (hub s) in
  (reply, {| host_check := host_check s; hub := h |}).

End Deployment.

(** ** A run of the scenario of the specification

    A check of ["example.com"] in region ["ru"]; an agent with the
    capabilities [http] and [ping]. *)

Module Scenario.

Definition world : Coordinator.world :=
  {| Coordinator.uuid4 := "3f2b8c1e-7a4d-4e0b-9c56-1d2e3f4a5b6c";
     Coordinator.choice := 7;
     Coordinator.now := λ i, (1700000000000000 + Z.of_nat i)%Z;
     Coordinator.post_assign_task := λ _, Coordinator.Reply 200 "" |}.

Definition parent_id : string := Coordinator.uuid4 world.

(** The store of the monitoring server after the check is created. *)
Definition store_after_check : Coordinator.redis :=
  match Coordinator.create_task world "example.com" "ru" Coordinator.empty_redis with
  | inr (_, r, _) => r
  | inl _ => Coordinator.empty_redis
  end.

(** What the status endpoint reports then: total, completed flag and the
    count of pending checks. *)
Definition status_after_check : option (option nat * bool * option nat) :=
  match Coordinator.get_task_status parent_id store_after_check with
  | inr rep =>
      Some (Coordinator.total_checks rep, Coordinator.completed rep,
            Coordinator.status_summary rep !! "pending")
  | inl _ => None
  end.

(** The ten sub-tasks as [create_task] builds and relays them. *)
Definition sub_tasks : list Task.t :=
  imap (λ i check_type,
          Coordinator.task_data world i parent_id "example.com" check_type "ru")
       Coordinator.all_check_types.

Definition server_token : string := "ru-server-secret-token-12345".

Definition draw : AgentServer.draw :=
  {| AgentServer.token_hex4 := "0a1b2c3d";
     AgentServer.token_hex16 := "00112233445566778899aabbccddeeff";
     AgentServer.now_created := 1700000000000000;
     AgentServer.now_heartbeat := 1700000000000001 |}.

Definition agent_id : string := "agent-ru-0a1b2c3d".
Definition agent_token : string := "00112233445566778899aabbccddeeff".

(** The agent dictionary that [create_agent] builds from the draw. *)
Definition agent : Agent.t :=
  fst (AgentServer.create_agent "probe" (Some ["http"; "ping"]) draw AgentServer.initial).

Definition http_task : Task.t :=
  Coordinator.task_data world 0 parent_id "example.com" "http" "ru".

(** The relay of the ten sub-tasks. *)
Definition arrivals : list AgentServer.request :=
  (λ td, AgentServer.AssignTask td server_token) <$> sub_tasks.

(** The agent is created, then the ten sub-tasks arrive. *)
Definition setup : list AgentServer.request :=
  AgentServer.CreateAgent "probe" server_token (Some ["http"; "ping"]) draw :: arrivals.

Definition queued : AgentServer.state := AgentServer.run setup AgentServer.initial.

Definition poll (now : Z) : AgentServer.request :=
  AgentServer.PendingTask agent_id agent_token now.

(** After one poll, and after a second one. *)
Definition one_assigned : AgentServer.state :=
  AgentServer.handle (poll 1700000005000000) queued.

Definition two_assigned : AgentServer.state :=
  AgentServer.handle (poll 1700000010000000) one_assigned.

Definition http_id : string := Coordinator.sub_task_id parent_id "http".
Definition tcp_id : string := Coordinator.sub_task_id parent_id "tcp".

Definition outcome : json_object := [("status", "success")].

Definition submit (task_id : string) : AgentServer.request :=
  AgentServer.SubmitResult task_id agent_id agent_token outcome.

(** The result of the [http] sub-task is submitted, and submitted again. *)
Definition submitted_once : AgentServer.state :=
  AgentServer.handle (submit http_id) two_assigned.

Definition submitted_twice : AgentServer.state :=
  AgentServer.handle (submit http_id) submitted_once.

(** The whole run: setup, two polls, two submissions for [http]. *)
Definition history : list AgentServer.request :=
  setup ++ [poll 1700000005000000; poll 1700000010000000; submit http_id; submit http_id].

(** The requests after the setup. *)
Definition replay : list AgentServer.request :=
  [poll 1700000005000000; poll 1700000010000000; submit http_id; submit http_id].

(** The [http] sub-task as the first poll returns it. *)
Definition http_assigned : Task.t :=
  Task.set_assigned_agent agent_id (Task.set_status "assigned" http_task).

(** The same run with an agent created without capabilities of its own. *)
Definition default_setup : AgentServer.request :=
  AgentServer.CreateAgent "probe" server_token None draw.

(** A worker registered with the host-check service, and the time of a
    sweep 301 seconds after its only heartbeat. *)
Definition registration : HostCheck.registration :=
  {| HostCheck.uuid4 := "9b1deb4d-3b7d-4bad-9bdd-2b0d7b3dcb6d";
     HostCheck.agent_token :=
       "5e884898da28047151d0e56f8dc6292773603d0d6aabbdd62a11ef721d1542d8";
     HostCheck.now_heartbeat := 1700000000000000;
     HostCheck.now_created := 1700000000000002 |}.

Definition worker_id : string := HostCheck.uuid4 registration.
Definition worker_token : string := HostCheck.agent_token registration.

Definition registered : HostCheck.state :=
  snd (HostCheck.register_agent "RU-agent-1" "RU"
         ["http"; "https"; "ping"; "tcp"; "dns"; "traceroute"] registration
         HostCheck.start).

Definition sweep_time : Z := 1700000301000000.

Definition deployment : Deployment.state :=
  {| Deployment.host_check := registered; Deployment.hub := queued |}.

(** A second agent of the same server. *)
Definition second_draw : AgentServer.draw :=
  {| AgentServer.token_hex4 := "4e5f6a7b";
     AgentServer.token_hex16 := "ffeeddccbbaa99887766554433221100";
     AgentServer.now_created := 1700000000000003;
     AgentServer.now_heartbeat := 1700000000000004 |}.

Definition second_agent_id : string := "agent-ru-4e5f6a7b".
Definition second_agent_token : string := "ffeeddccbbaa99887766554433221100".

(** The two agents are created, then the relay of the [http] sub-task
    arrives, and arrives again. *)
Definition repeated_relay : list AgentServer.request :=
  [ AgentServer.CreateAgent "probe" server_token (Some ["http"; "ping"]) draw;
    AgentServer.CreateAgent "probe-2" server_token (Some ["http"; "ping"]) second_draw;
    AgentServer.AssignTask http_task server_token;
    AgentServer.AssignTask http_task server_token ].

Definition repeated : AgentServer.state :=
  AgentServer.run repeated_relay AgentServer.initial.

(** The first agent has polled. *)
Definition repeated_polled : AgentServer.state :=
  AgentServer.handle (poll 1700000005000000) repeated.

(** The status of the queued task with a given id. *)
Definition status_of (task_id : string) (s : AgentServer.state) : option string :=
  Task.status <$> List.find (λ task, bool_decide (Task.id task = task_id))
                    (AgentServer.tasks_queue s).

End Scenario.

(** ** The agent server: the other endpoints and the worker thread *)

Module AgentServerViews.

Import AgentServer.

(** [AgentManager.get_all_agents]: the values of [agents_db].  (Python
    lists them in insertion order, the map here in its own order; no count
    below depends on the order.) *)
Definition get_all_agents (s : state) : list Agent.t :=
  snd <$> map_to_list (agents_db s).

(** [AgentManager.get_online_agents] *)
Definition get_online_agents (s : state) : list Agent.t :=
  filter (λ agent, Agent.status agent = "online") (get_all_agents s).

(** [len([t for t in tasks_queue if t.get("status") == status])] *)
Definition count_tasks (status : string) (s : state) : nat :=
  length (filter (λ task, Task.status task = status) (tasks_queue s)).

Record stats := {
  total : Z;
  online : Z;
  offline : Z;
  pending_tasks : Z;
  active_tasks : Z
}.

(** [GET /agents] *)
Definition list_agents (server_token : string) (s : state)
  : http_error + (list Agent.t * stats) :=
  if negb (verify_server_token server_token)
  then inl (HTTPException 401 "Invalid server token")
  else
    let online_agents := get_online_agents s in
    inr (get_all_agents s,
         {| total := Z.of_nat (size (agents_db s));
            online := Z.of_nat (length online_agents);
            offline := Z.of_nat (size (agents_db s)) - Z.of_nat (length online_agents);
            pending_tasks := Z.of_nat (count_tasks "pending" s);
            active_tasks := Z.of_nat (count_tasks "assigned" s) |}).

Inductive result_reply :=
| Success (result : json_object)
| NotFound.

(** [GET /task-result/{task_id}]; [if result:] is false when no result is
    stored and when the stored result is the empty dictionary. *)
Definition get_task_result (task_id server_token : string) (s : state)
  : http_error + result_reply :=
  if negb (verify_server_token server_token)
  then inl (HTTPException 401 "Invalid server token")
  else
    match task_results s !! task_id with
    | Some (item :: items) => inr (Success (item :: items))
    | Some [] => inr NotFound
    | None => inr NotFound
    end.

(** One turn of the [while] loop of the worker thread that
    [start_agent_worker] starts for an agent: the guard, and the body when
    the guard holds.  The two HTTP calls of the body are the endpoints
    [get_pending_task] and [submit_result] of this server; [execute_task]
    is the probe.  An answer that is not 200 skips to the heartbeat write;
    the statuses ["no_tasks"] and ["busy"] end the turn ([continue]); any
    other in-band status has no ["id"], so the turn ends in the [except]
    clause; a task is executed, its result is submitted and the heartbeat
    is written. *)
Definition worker_turn (agent_id agent_token : string) (now_poll now_beat : Z)
    (execute_task : Task.t → json_object) (s : state) : state :=
  match agents_db s !! agent_id with
  | None => s
  | Some agent =>
      if negb (bool_decide (Agent.status agent = "online")) then s
      else
        match get_pending_task agent_id agent_token now_poll s with
        | (inl _, s1) => worker_heartbeat agent_id now_beat s1
        | (inr (InBand _), s1) => s1
        | (inr (Assigned task_data), s1) =>
            let result := execute_task task_data in
            let s2 := snd (submit_result (Task.id task_data) agent_id agent_token result s1) in
            worker_heartbeat agent_id now_beat s2
        end
  end.

(** What [create_agent] gives every agent of this server: the key of
    [agents_db] is the id of the dictionary and starts with ["agent-ru-"],
    the country is that of the server and the capacity is 5. *)
Definition created_here (s : state) : Prop :=
  ∀ key agent, agents_db s !! key = Some agent →
    Agent.id agent = key ∧
    Py.startswith key ("agent-" +:+ country CONFIG +:+ "-") = true ∧
    Agent.country agent = country CONFIG ∧
    Agent.max_tasks agent = 5%Z.

(** Whether the credential of a request is the right one. *)
Definition authorized (req : request) (s : state) : bool :=
  match req with
  | CreateAgent _ tok _ _ => verify_server_token tok
  | AssignTask _ tok => verify_server_token tok
  | StopAgent _ tok => verify_server_token tok
  | PendingTask a tok _ => verify_agent a tok s
  | SubmitResult _ a tok _ => verify_agent a tok s
  | Heartbeat a tok _ => verify_agent a tok s
  | WorkerHeartbeat _ _ => true
  end.

(** A request that can bring a stopped agent back: a heartbeat sent under
    its id, or the creation of an agent under its id. *)
Definition revives (agent_id : string) (req : request) : Prop :=
  match req with
  | Heartbeat a _ _ => a = agent_id
  | CreateAgent _ _ _ d => new_agent_id d = agent_id
  | _ => False
  end.

End AgentServerViews.

(** ** From the monitoring server to the agent server *)

Module Relay.

(** The dictionaries that the loop of [create_task] posts to
    [/assign-task], in the order of the loop. *)
Definition relayed_tasks (w : Coordinator.world) (target country : string)
  : list Task.t :=
  imap (λ i check_type,
          Coordinator.task_data w i (Coordinator.uuid4 w) target check_type country)
       Coordinator.all_check_types.

(** The same posts as requests at the agent server of the country, with
    the token that [AGENT_SERVERS] has for it. *)
Definition requests (w : Coordinator.world) (target country : string)
  : list AgentServer.request :=
  match Coordinator.agent_server_of country with
  | Some cfg =>
      (λ td, AgentServer.AssignTask td (Coordinator.token cfg))
        <$> relayed_tasks w target country
  | None => []
  end.

(** The form in which [assign_task] queues a dictionary. *)
Definition queued_form (td : Task.t) : Task.t :=
  Task.set_country (AgentServer.country AgentServer.CONFIG)
    (Task.set_status "pending" td).

End Relay.

(** ** The scan of [get_task_status], key by key *)

Module StatusScan.

(** What the first loop of [get_task_status] keeps of one scanned key: the
    document stored under the id read off the key, when that id starts
    with the parent id and a dash. *)
Definition picked (task_id : string) (r : Coordinator.redis) (key : string)
  : option Task.t :=
  let stored_task_id := Py.replace key "task:" "" in
  if Py.startswith stored_task_id (task_id +:+ "-")
  then Coordinator.get_task stored_task_id r
  else None.

(** The characters of a string. *)
Definition chars (s : string) : list Ascii.ascii := String.list_ascii_of_string s.

(** The sub-tasks of a parent as the store has them: the documents whose
    key is [task:<parent>-...], in the order in which the store enumerates
    its keys. *)
Definition sub_task_docs (task_id : string) (r : Coordinator.redis) : list Task.t :=
  snd <$> filter (λ entry : string * Task.t,
                    Py.startswith entry.1 ("task:" +:+ task_id +:+ "-") = true)
            (map_to_list (Coordinator.kv r)).

(** The colon, character 58. *)
Definition colon : Ascii.ascii :=
  Ascii.Ascii false true false true true true false false.

End StatusScan.

(** ** The monitoring server: the agents of the admin endpoints
    ([netpulse/backend/main.py]) *)

Module CoordinatorAdmin.

(** The [agent_data] dictionary of [AgentManager.register_agent]. *)
Record agent_doc := mk_agent_doc {
  id : string;
  name : string;
  country : string;
  server : string;
  token : string;
  capabilities : list string;
  status : string;
  current_tasks : Z;
  max_tasks : Z;
  last_heartbeat : option Z;
  created_at : Z;
  ip_address : option string
}.

(** The documents of the Redis store under the keys [agent:<id>]; this
    family of keys is disjoint from [task:<id>] and [queue:<country>], and
    has its own map as they have.  [gmap string agent_doc] is that map,
    with the whole key as its key. *)

(** [AgentManager.register_agent] *)
Definition register_agent (agent_id name country server token : string)
    (capabilities : list string) (now : Z) (docs : gmap string agent_doc)
  : agent_doc * gmap string agent_doc :=
  let agent_data :=
    {| id := agent_id;
       name := name;
       country := country;
       server := server;
       token := token;
       capabilities := capabilities;
       status := "offline";
       current_tasks := 0;
       max_tasks := 10;
       last_heartbeat := None;
       created_at := now;
       ip_address := None |} in
  (agent_data, <["agent:" +:+ agent_id := agent_data]> docs).

(** [AgentManager.get_agent] *)
Definition get_agent (agent_id : string) (docs : gmap string agent_doc)
  : option agent_doc :=
  docs !! ("agent:" +:+ agent_id).

(** [AgentManager.verify_agent] *)
Definition verify_agent (agent_id tok : string) (docs : gmap string agent_doc) : bool :=
  match get_agent agent_id docs with
  | Some agent => bool_decide (token agent = tok)
  | None => false
  end.

(** [AgentManager.delete_agent] *)
Definition delete_agent (agent_id : string) (docs : gmap string agent_doc)
  : gmap string agent_doc :=
  delete ("agent:" +:+ agent_id) docs.

(** [server_config[key]] on an entry of [AGENT_SERVERS]: the entries have
    the keys ["url"] and ["token"]; any other key raises [KeyError]. *)
Definition config_item (key : string) (cfg : Coordinator.server_config)
  : option string :=
  if bool_decide (key = "url") then Some (Coordinator.url cfg)
  else if bool_decide (key = "token") then Some (Coordinator.token cfg)
  else None.

(** The ["agent"] object of the answer of [/create-agent], as far as
    [create_agent] reads it. *)
Record created_agent := {
  agent_id : string;
  agent_name : string;
  agent_capabilities : option (list string)
}.

(** What [requests.post(.../create-agent)] does: it raises
    [ConnectionError], it raises another exception (a timeout, say) with
    text [e], or it returns a response with a status code, a text and a
    body; the body either gives the values of [result["agent"]["id"]] and
    [["name"]], or reading them raises an exception with text [e]. *)
Inductive post_reply :=
| ConnectionError (e : string)
| OtherError (e : string)
| Response (status_code : nat) (text : string) (body : string + created_agent).

(** [POST /admin/agents].  The arguments of the call of [register_agent]
    are evaluated from left to right, [server_config["server_id"]]
    before [agent_data["capabilities"]].  An [HTTPException] raised
    inside the [try] is caught by [except Exception] like any other
    exception, and its text is the status code, a colon and the detail. *)
Definition create_agent (name country : string) (reply : post_reply) (now : Z)
    (docs : gmap string agent_doc)
  : (http_error + created_agent) * gmap string agent_doc :=
  match Coordinator.agent_server_of country with
  | None =>
      (inl (HTTPException 400 ("No agent server for country: " +:+ country)), docs)
  | Some server_config =>
      let failed e :=
        (inl (HTTPException 500 ("Agent server connection failed: " +:+ e)), docs) in
      match reply with
      | ConnectionError _ =>
          (inl (HTTPException 500 ("Cannot connect to agent server for " +:+ country)),
           docs)
      | OtherError e => failed e
      | Response status_code text body =>
          if bool_decide (status_code = 200%nat)
          then
            match body with
            | inl e => failed e
            | inr agent_data =>
                match config_item "server_id" server_config with
                | None => failed "'server_id'"
                | Some server_id =>
                    match agent_capabilities agent_data with
                    | None => failed "'capabilities'"
                    | Some caps =>
                        let '(_, docs') :=
                          register_agent (agent_id agent_data) (agent_name agent_data)
                            country server_id "hidden-token" caps now docs in
                        (inr agent_data, docs')
                    end
                end
            end
          else failed ("500: Agent server error: " +:+ text)
      end
  end.

(** [DELETE /admin/agents/{agent_id}].  The stop request to the agent
    server is sent for its effect there; its answer is logged and a failure
    is swallowed, so the answer of this endpoint and the store do not depend
    on it. *)
Definition delete_agent_endpoint (agent_id : string) (docs : gmap string agent_doc)
  : (http_error + agent_doc) * gmap string agent_doc :=
  match get_agent agent_id docs with
  | None => (inl (HTTPException 404 "Agent not found"), docs)
  | Some agent => (inr agent, delete_agent agent_id docs)
  end.

End CoordinatorAdmin.

(** ** The host-check service: heartbeats *)

Module HostCheckAgents.

Import HostCheck.

(** The three writes of [agent_heartbeat] on the agent dictionary. *)
Definition beat (now active : Z) (a : agent_info) : agent_info :=
  mk_agent_info (id a) (name a) (location a) (capabilities a) (token a) "online"
    now active (total_tasks a) (created_at a).

(** [POST /api/agents/{agent_id}/heartbeat].  Without a document under
    [agent:<id>] the handler raises and writes nothing: [None]. *)
Definition agent_heartbeat (agent_id : string) (active now : Z) (s : state)
  : option state :=
  match kv (redis_client s) !! ("agent:" +:+ agent_id) with
  | None => None
  | Some agent =>
      let agent := beat now active agent in
      Some {| active_agents := <[agent_id := agent]> (active_agents s);
              redis_client := redis_set ("agent:" +:+ agent_id) agent (redis_client s) |}
  end.

End HostCheckAgents.

(** * Properties *)

(** ** Fan-out of [create_task] *)

Section FanOut.

Import Coordinator.

Implicit Types (w : world) (r : redis) (st : loop_state).

Lemma sub_task_id_inj task_id : Inj (=) (=) (sub_task_id task_id).
Proof.
  intros a b H. unfold sub_task_id in H.
  by apply (inj (String.app task_id)), (inj (String.app "-")) in H.
Qed.

Lemma task_key_inj task_id : Inj (=) (=) (task_key task_id).
Proof.
  intros a b H. unfold task_key in H.
  by apply (inj (String.app "task:")), sub_task_id_inj in H.
Qed.

Lemma fan_out_sub_tasks w task_id target country i cts st :
  sub_tasks (fan_out w task_id target country i cts st)
  = sub_tasks st ++ (sub_task_id task_id <$> cts).
Proof.
  revert i st. induction cts as [|ct cts IH]; intros i st; simpl.
  - by rewrite app_nil_r.
  - rewrite IH. simpl. by rewrite <- app_assoc.
Qed.

Lemma fan_out_kv_other w task_id target country i cts st key :
  key ∉ (task_key task_id <$> cts) →
  kv (store (fan_out w task_id target country i cts st)) !! key = kv (store st) !! key.
Proof.
  revert i st. induction cts as [|ct cts IH]; intros i st Hkey; simpl; [done|].
  rewrite fmap_cons, not_elem_of_cons in Hkey. destruct Hkey as [Hne Hkey].
  rewrite IH by done. simpl. by rewrite lookup_insert_ne.
Qed.

Lemma fan_out_kv_hit w task_id target country i cts st j ct :
  NoDup cts → cts !! j = Some ct →
  kv (store (fan_out w task_id target country i cts st)) !! task_key task_id ct
  = Some (task_data w (i + j) task_id target ct country).
Proof.
  revert i st j. induction cts as [|c cts IH]; intros i st j Hnd Hj; [done|].
  apply NoDup_cons in Hnd as [Hc Hnd]. destruct j as [|j]; simpl in *.
  - injection Hj as ->. rewrite fan_out_kv_other.
    + simpl. rewrite Nat.add_0_r. apply lookup_insert_eq.
    + intros Hin. apply list_elem_of_fmap in Hin as (c' & Heq & Hin).
      apply task_key_inj in Heq as <-. done.
  - rewrite (IH (S i) _ j) by done. do 2 f_equal. lia.
Qed.

Lemma fan_out_queue w task_id target country i cts st :
  redis_lrange ("queue:" +:+ country) (store (fan_out w task_id target country i cts st))
  = rev (sub_task_id task_id <$> cts) ++ redis_lrange ("queue:" +:+ country) (store st).
Proof.
  revert i st. induction cts as [|ct cts IH]; intros i st; simpl; [done|].
  rewrite IH. unfold redis_lrange, redis_lpush, redis_set. simpl.
  rewrite lookup_insert_eq. simpl. by rewrite <- app_assoc.
Qed.

Lemma fan_out_lists_other w task_id target country i cts st key :
  key ≠ "queue:" +:+ country →
  lists (store (fan_out w task_id target country i cts st)) !! key = lists (store st) !! key.
Proof.
  intros Hne. revert i st. induction cts as [|ct cts IH]; intros i st; simpl; [done|].
  rewrite IH. simpl. by rewrite lookup_insert_ne.
Qed.

Lemma all_check_types_NoDup : NoDup all_check_types.
Proof. apply (bool_decide_unpack _). vm_compute. exact I. Qed.

(** With ["auto"], the draw always lands on a configured country. *)
Lemma resolve_auto w : resolve_country w "auto" = Some "ru".
Proof.
  unfold resolve_country, secrets_choice.
  change (length (fst <$> AGENT_SERVERS)) with 1%nat.
  by rewrite Nat.mod_1_r.
Qed.

(** C1.  A call of [create_task] for a configured country (given as such,
    or drawn for ["auto"]) succeeds and returns the parent id with the ten
    sub-task ids, one per check type of the catalog, in catalog order; the
    ids are the parent id followed by ["-"] and the check type and are
    pairwise distinct; each sub-task is stored under [task:<id>] with its
    [parent_task_id] equal to the parent id and status ["pending"], no other
    document changes, and the ids are pushed on [queue:<country>] and on no
    other list. *)
Theorem create_task_fans_out w (target country c : string) r :
  resolve_country w country = Some c →
  is_Some (agent_server_of c) →
  ∃ resp r' log,
    create_task w target country r = inr (resp, r', log) ∧
    created_task_id resp = uuid4 w ∧
    created_country resp = c ∧
    created_sub_tasks resp = sub_task_id (uuid4 w) <$> all_check_types ∧
    length (created_sub_tasks resp) = 10%nat ∧
    NoDup (created_sub_tasks resp) ∧
    (∀ i ct, all_check_types !! i = Some ct →
       ∃ td, redis_get ("task:" +:+ sub_task_id (uuid4 w) ct) r' = Some td ∧
             Task.id td = sub_task_id (uuid4 w) ct ∧
             Task.parent_task_id td = Some (uuid4 w) ∧
             Task.check_type td = ct ∧
             Task.target td = target ∧
             Task.country td = c ∧
             Task.status td = "pending" ∧
             Task.assigned_agent td = None) ∧
    (∀ key, key ∉ (String.app "task:" <$> created_sub_tasks resp) →
       redis_get key r' = redis_get key r) ∧
    redis_lrange ("queue:" +:+ c) r'
      = rev (created_sub_tasks resp) ++ redis_lrange ("queue:" +:+ c) r ∧
    (∀ key, key ≠ "queue:" +:+ c → lists r' !! key = lists r !! key).
Proof.
  intros Hc [cfg Hcfg]. unfold create_task. rewrite Hc, Hcfg.
  do 3 eexists. split; [reflexivity|].
  cbn [created_task_id created_country created_sub_tasks].
  rewrite fan_out_sub_tasks. cbn [sub_tasks]. rewrite app_nil_l.
  repeat split.
  - apply (NoDup_fmap_2 _), all_check_types_NoDup.
  - intros i ct Hi. eexists. split.
    + unfold redis_get. apply (fan_out_kv_hit _ _ _ _ 0 _ _ i ct); [|done].
      apply all_check_types_NoDup.
    + done.
  - intros key Hkey. unfold redis_get. apply fan_out_kv_other.
    by rewrite <- list_fmap_compose in Hkey.
  - apply fan_out_queue.
  - intros key Hkey. by apply fan_out_lists_other.
Qed.

Lemma create_task_fans_out_witness :
  ∃ resp r' log,
    create_task Scenario.world "example.com" "auto" empty_redis = inr (resp, r', log) ∧
    length (created_sub_tasks resp) = 10%nat.
Proof.
  destruct (create_task_fans_out Scenario.world "example.com" "auto" "ru" empty_redis)
    as (resp & r' & log & H & _ & _ & _ & Hlen & _).
  - reflexivity.
  - by eexists.
  - exists resp, r', log. exact (conj H Hlen).
Defined.

End FanOut.

(** ** Aggregation of [get_task_status] *)

Section Aggregation.

Import Coordinator.

Implicit Types (r : redis) (m : gmap string nat) (tasks : list Task.t).

Lemma summary_total_empty : summary_total ∅ = 0%nat.
Proof. apply map_fold_empty. Qed.

Lemma summary_total_fresh m key n :
  m !! key = None → summary_total (<[key := n]> m) = (n + summary_total m)%nat.
Proof.
  intros Hkey. unfold summary_total.
  apply (map_fold_insert_L (λ _ n acc, (n + acc)%nat)); [|done].
  intros. lia.
Qed.

(** Writing [n] under a key takes the old count of the key out of the sum
    and puts [n] in. *)
Lemma summary_total_insert m key n :
  (summary_total (<[key := n]> m) + default 0 (m !! key) = summary_total m + n)%nat.
Proof.
  destruct (m !! key) as [old|] eqn:Hkey; simpl.
  - assert (summary_total (<[key := n]> m)
            = (n + summary_total (delete key m))%nat) as H1.
    { rewrite <- insert_delete_eq. apply summary_total_fresh, lookup_delete_eq. }
    assert (summary_total m = (old + summary_total (delete key m))%nat) as H2.
    { rewrite <- (insert_id m key old) at 1 by done.
      rewrite <- insert_delete_eq. apply summary_total_fresh, lookup_delete_eq. }
    lia.
  - rewrite summary_total_fresh by done. lia.
Qed.

Lemma count_statuses_total tasks m :
  summary_total (count_statuses tasks m) = (summary_total m + length tasks)%nat.
Proof.
  revert m. induction tasks as [|task tasks IH]; intros m; simpl; [lia|].
  rewrite IH.
  pose proof (summary_total_insert m (Task.status task)
                (default 0 (m !! Task.status task) + 1)) as H.
  lia.
Qed.

Lemma count_statuses_lookup tasks m st :
  default 0%nat (count_statuses tasks m !! st)
  = (default 0 (m !! st) + with_status st tasks)%nat.
Proof.
  unfold with_status. revert m.
  induction tasks as [|task tasks IH]; intros m; simpl; [lia|].
  rewrite IH. rewrite filter_cons.
  destruct (decide (Task.status task = st)) as [->|Hne].
  - rewrite lookup_insert_eq. simpl. lia.
  - by rewrite lookup_insert_ne.
Qed.

Lemma with_status_all st tasks :
  with_status st tasks = length tasks ↔ Forall (λ task, Task.status task = st) tasks.
Proof.
  unfold with_status. induction tasks as [|task tasks IH]; simpl.
  - split; [constructor|done].
  - rewrite filter_cons, Forall_cons.
    pose proof (length_filter (λ task, Task.status task = st) tasks) as Hle.
    destruct (decide (Task.status task = st)) as [Heq|Hne]; simpl.
    + rewrite <- IH. split; [intros; split; [done|lia]|intros []; lia].
    + split; [lia|intros []; done].
Qed.

(** Every task the scan appends is stored under [task:<sid>] for an
    [sid] that starts with the parent id and a dash. *)
Lemma scan_sub_tasks_found task_id r keys found task :
  task ∈ scan_sub_tasks task_id r keys found →
  task ∈ found ∨
  ∃ sid, Py.startswith sid (task_id +:+ "-") = true ∧ get_task sid r = Some task.
Proof.
  revert found. induction keys as [|key keys IH]; intros found; simpl; [by left|].
  destruct (Py.startswith _ _) eqn:Hpre; [|by apply IH].
  destruct (get_task _ r) as [t|] eqn:Hget; [|by apply IH].
  intros [Hin|Hex]%IH; [|by right].
  apply elem_of_app in Hin as [Hin|Hin%list_elem_of_singleton]; [by left|].
  subst. right. eauto.
Qed.

(** The report of [get_task_status] against what the scan found: the
    answer is 404 and the prefix scan found nothing and no task is stored
    under the id itself, or it is a report whose counts fit its checks. *)
Lemma get_task_status_report (task_id : string) r :
  match get_task_status task_id r with
  | inr rep =>
      summary_total (status_summary rep) = length (checks rep) ∧
      (∀ st, default 0%nat (status_summary rep !! st) = with_status st (checks rep)) ∧
      (completed rep = true
       ↔ default 0%nat (status_summary rep !! "completed") = length (checks rep)) ∧
      (completed rep = true
       ↔ Forall (λ task, Task.status task = "completed") (checks rep)) ∧
      checks rep ≠ [] ∧
      (∀ task, task ∈ checks rep →
         (∃ sid, Py.startswith sid (task_id +:+ "-") = true ∧ get_task sid r = Some task)
         ∨ get_task task_id r = Some task)
  | inl e =>
      e = HTTPException 404 "Task not found" ∧
      scan_sub_tasks task_id r (redis_scan_iter "task:" r) [] = [] ∧
      get_task task_id r = None
  end
  ∧ ((∀ sid, Py.startswith sid (task_id +:+ "-") = true → get_task sid r = None) →
     get_task task_id r = None →
     get_task_status task_id r = inl (HTTPException 404 "Task not found")).
Proof.
  unfold get_task_status.
  pose proof (scan_sub_tasks_found task_id r (redis_scan_iter "task:" r) []) as Hfound.
  destruct (scan_sub_tasks task_id r (redis_scan_iter "task:" r) [])
    as [|first found] eqn:Hscan.
  - destruct (get_task task_id r) as [main_task|] eqn:Hmain.
    + split; [|done]. cbn [status_summary completed checks].
      assert (Hcount : ∀ st, default 0%nat
                ((({[Task.status main_task := 1%nat]} : gmap string nat)) !! st)
                = with_status st [main_task]).
      { intros st. unfold with_status. rewrite filter_cons, filter_nil.
        destruct (decide (Task.status main_task = st)) as [->|Hne].
        - by rewrite lookup_singleton_eq.
        - by rewrite lookup_singleton_ne. }
      split_and!.
      * unfold summary_total. by rewrite map_fold_singleton.
      * done.
      * rewrite Hcount. unfold with_status. rewrite filter_cons, filter_nil.
        rewrite bool_decide_eq_true. destruct (decide _); simpl; split; done.
      * rewrite bool_decide_eq_true, Forall_singleton. done.
      * done.
      * intros task ->%list_elem_of_singleton. by right.
    + split; [done|]. done.
  - set (tasks := first :: found) in *.
    assert (Hcount : ∀ st, default 0%nat (count_statuses tasks ∅ !! st)
                           = with_status st tasks).
    { intros st. by rewrite count_statuses_lookup, lookup_empty. }
    split.
    + cbn [status_summary completed checks]. split_and!.
      * by rewrite count_statuses_total, summary_total_empty.
      * done.
      * by rewrite bool_decide_eq_true.
      * by rewrite bool_decide_eq_true, Hcount, with_status_all.
      * done.
      * intros task Hin. destruct (Hfound task Hin) as [H|H]; [|by left].
        by apply elem_of_nil in H.
    + intros Hnone _. exfalso.
      destruct (Hfound first) as [H|(sid & Hpre & Hget)].
      * apply list_elem_of_here.
      * by apply elem_of_nil in H.
      * rewrite (Hnone sid Hpre) in Hget. done.
Qed.

(** The scenario: right after the fan-out the status endpoint finds the ten
    sub-tasks, all pending. *)
Example scenario_ten_pending :
  Scenario.status_after_check = Some (Some 10%nat, false, Some 10%nat).
Proof. vm_compute. reflexivity. Qed.

End Aggregation.

(** ** The queue of the agent server *)

Section Queue.

Import AgentServer.

Implicit Types (queue pre post : list Task.t) (task : Task.t) (caps : list string).

Lemma eligible_true caps task : eligible caps task = true ↔ matches caps task.
Proof.
  unfold eligible, matches, Py.contains.
  by rewrite andb_true_iff, !bool_decide_eq_true.
Qed.

Lemma eligible_false caps task : eligible caps task = false ↔ ¬ matches caps task.
Proof. rewrite <- eligible_true. by destruct (eligible caps task). Qed.

Lemma find_first_match caps pre task post :
  Forall (λ t, ¬ matches caps t) pre → matches caps task →
  get_pending_task_for_agent caps (pre ++ task :: post) = Some (length pre).
Proof.
  intros Hpre Htask. induction Hpre as [|t pre Ht _ IH]; simpl.
  - apply eligible_true in Htask. by rewrite Htask.
  - apply eligible_false in Ht. by rewrite Ht, IH.
Qed.

Lemma find_no_match caps queue :
  Forall (λ t, ¬ matches caps t) queue →
  get_pending_task_for_agent caps queue = None.
Proof.
  induction 1 as [|t queue Ht _ IH]; simpl; [done|].
  apply eligible_false in Ht. by rewrite Ht, IH.
Qed.

(** The scan stops at the first match, or finds none. *)
Lemma first_match_or_none caps queue :
  (∃ pre task post, queue = pre ++ task :: post ∧
     Forall (λ t, ¬ matches caps t) pre ∧ matches caps task)
  ∨ Forall (λ t, ¬ matches caps t) queue.
Proof.
  induction queue as [|t queue IH].
  - right. constructor.
  - destruct (eligible caps t) eqn:Ht.
    + left. exists [], t, queue. apply eligible_true in Ht.
      split; [done|]. split; [constructor|done].
    + apply eligible_false in Ht. destruct IH as [(pre & task & post & -> & Hpre & Htask)|Hall].
      * left. exists (t :: pre), task, post.
        split; [done|]. split; [by constructor|done].
      * right. by constructor.
Qed.

Lemma find_some_inv caps queue pos :
  get_pending_task_for_agent caps queue = Some pos →
  ∃ pre task post, queue = pre ++ task :: post ∧ length pre = pos ∧
    Forall (λ t, ¬ matches caps t) pre ∧ matches caps task.
Proof.
  intros Hfind.
  destruct (first_match_or_none caps queue)
    as [(pre & task & post & -> & Hpre & Htask)|Hall].
  - rewrite find_first_match in Hfind by done. injection Hfind as <-.
    by exists pre, task, post.
  - by rewrite find_no_match in Hfind.
Qed.

Lemma write_status_id st a task : Task.id (write_status st a task) = Task.id task.
Proof. unfold write_status. destruct a as [a|]; [destruct (Py.truthy a)|]; done. Qed.

Lemma write_status_status st a task : Task.status (write_status st a task) = st.
Proof. unfold write_status. destruct a as [a|]; [destruct (Py.truthy a)|]; done. Qed.

Lemma write_status_check_type st a task :
  Task.check_type (write_status st a task) = Task.check_type task.
Proof. unfold write_status. destruct a as [a|]; [destruct (Py.truthy a)|]; done. Qed.

Lemma update_task_status_ids task_id st a queue :
  Task.id <$> update_task_status task_id st a queue = Task.id <$> queue.
Proof.
  induction queue as [|t queue IH]; [done|]. cbn [update_task_status].
  case_bool_decide; rewrite !fmap_cons; [by rewrite write_status_id|by rewrite IH].
Qed.

Lemma update_task_status_length task_id st a queue :
  length (update_task_status task_id st a queue) = length queue.
Proof.
  rewrite <- (length_fmap Task.id), update_task_status_ids. apply length_fmap.
Qed.

(** An id that is not in the queue: nothing is written. *)
Lemma update_task_status_unknown task_id st a queue :
  task_id ∉ (Task.id <$> queue) → update_task_status task_id st a queue = queue.
Proof.
  induction queue as [|t queue IH]; simpl; [done|].
  rewrite not_elem_of_cons. intros [Hne Hnin].
  rewrite bool_decide_eq_false_2 by done. by rewrite IH.
Qed.

(** With distinct ids, the task that is written is the task with the id. *)
Lemma update_task_status_middle st a pre task post :
  NoDup (Task.id <$> (pre ++ task :: post)) →
  update_task_status (Task.id task) st a (pre ++ task :: post)
  = pre ++ write_status st a task :: post.
Proof.
  induction pre as [|t pre IH]; simpl; intros Hnd.
  - by rewrite bool_decide_eq_true_2.
  - apply NoDup_cons in Hnd as [Hnin Hnd].
    rewrite bool_decide_eq_false_2, IH; [done..|].
    intros Heq. apply Hnin. rewrite Heq, fmap_app, fmap_cons. set_solver.
Qed.

(** In any queue, each position keeps its task or gets the written one. *)
Lemma update_task_status_lookup task_id st a queue i task :
  queue !! i = Some task →
  ∃ task', update_task_status task_id st a queue !! i = Some task' ∧
    (task' = task ∨ (Task.id task = task_id ∧ task' = write_status st a task)).
Proof.
  revert i. induction queue as [|t queue IH]; intros i Hi; [done|]. simpl.
  case_bool_decide as Hid.
  - destruct i as [|i]; simpl in *.
    + injection Hi as ->. eauto.
    + eauto.
  - destruct i as [|i]; simpl in *; [eauto|]. by apply IH.
Qed.

Lemma NoDup_ids_lookup queue i j t1 t2 :
  NoDup (Task.id <$> queue) →
  queue !! i = Some t1 → queue !! j = Some t2 → Task.id t1 = Task.id t2 → i = j.
Proof.
  intros Hnd H1 H2 Heq.
  apply (NoDup_lookup _ i j (Task.id t1) Hnd); rewrite list_lookup_fmap.
  - by rewrite H1.
  - by rewrite H2, Heq.
Qed.

End Queue.

(** ** Polling and submitting *)

Section Dispatch.

Import AgentServer.

Implicit Types (s : state) (agent : Agent.t) (task : Task.t).

Lemma verify_agent_true s agent_id tok :
  verify_agent agent_id tok s = true
  ↔ ∃ agent, agents_db s !! agent_id = Some agent ∧ Agent.token agent = tok.
Proof.
  unfold verify_agent. destruct (agents_db s !! agent_id) as [agent|].
  - rewrite bool_decide_eq_true. split; [eauto|]. by intros (? & [= <-] & ?).
  - split; [done|]. by intros (? & ? & _).
Qed.

Lemma write_assigned agent_id task :
  agent_id ≠ "" →
  write_status "assigned" (Some agent_id) task
  = Task.set_assigned_agent agent_id (Task.set_status "assigned" task).
Proof. intros Hne. unfold write_status. by destruct agent_id. Qed.

(** Past the three gates of a poll: the scan and the assignment. *)
Lemma get_pending_task_open s (agent_id agent_token : string) (now : Z) agent :
  agents_db s !! agent_id = Some agent →
  Agent.token agent = agent_token →
  Agent.status agent = "online" →
  (Agent.current_tasks agent < Agent.max_tasks agent)%Z →
  get_pending_task agent_id agent_token now s
  = match get_pending_task_for_agent (Agent.capabilities agent) (tasks_queue s) with
    | Some pos =>
        match tasks_queue s !! pos with
        | Some task =>
            let queue := update_task_status (Task.id task) "assigned" (Some agent_id)
                           (tasks_queue s) in
            (inr (Assigned (default task (queue !! pos))),
             assigned_state s agent_id agent now queue)
        | None => (inr (InBand "no_tasks"), s)
        end
    | None => (inr (InBand "no_tasks"), s)
    end.
Proof.
  intros Hagent Htok Honline Hload.
  unfold get_pending_task, verify_agent, get_agent. rewrite Hagent.
  rewrite (bool_decide_eq_true_2 _ Htok), (bool_decide_eq_true_2 _ Honline).
  cbn [negb]. by rewrite (proj2 (Z.leb_gt _ _) Hload).
Qed.

(** C2, where the code misses.  The relay of the [http] sub-task has
    arrived twice, so the queue holds two entries under one id, and the
    first agent has been given the first of them.  The second agent polls:
    the first pending sub-task that matches its capabilities is the second
    entry, and the poll returns it, but with its status still ["pending"]
    and without an assigned agent, and it stays pending in the queue;
    [update_task_status] has written the first entry with that id instead,
    which now names the second agent.  The load of the second agent is
    increased all the same. *)
Lemma repeated_id_poll_returns_pending_task :
  queued_ids Scenario.repeated = [Scenario.http_id; Scenario.http_id] ∧
  Task.status <$> tasks_queue Scenario.repeated_polled = ["assigned"; "pending"] ∧
  Task.assigned_agent <$> tasks_queue Scenario.repeated_polled
  = [Some Scenario.agent_id; None] ∧
  fst (get_pending_task Scenario.second_agent_id Scenario.second_agent_token
         1700000006000000 Scenario.repeated_polled)
  = inr (Assigned Scenario.http_task) ∧
  Task.status Scenario.http_task = "pending" ∧
  Task.assigned_agent Scenario.http_task = None ∧
  Task.status
    <$> tasks_queue
          (snd (get_pending_task Scenario.second_agent_id Scenario.second_agent_token
                  1700000006000000 Scenario.repeated_polled))
  = ["assigned"; "pending"] ∧
  Task.assigned_agent
    <$> tasks_queue
          (snd (get_pending_task Scenario.second_agent_id Scenario.second_agent_token
                  1700000006000000 Scenario.repeated_polled))
  = [Some Scenario.second_agent_id; None] ∧
  load Scenario.second_agent_id Scenario.repeated_polled = Some 0%Z ∧
  load Scenario.second_agent_id
    (snd (get_pending_task Scenario.second_agent_id Scenario.second_agent_token
            1700000006000000 Scenario.repeated_polled))
  = Some 1%Z.
Proof. vm_compute. repeat split. Qed.

(** X18.  A poll by an agent with the right token, status ["online"] and
    load below [max_tasks], on a queue of tasks with distinct ids: if [task]
    is the first task of the queue that is pending and whose check type is
    in the capabilities of the agent, the poll returns that task with status
    ["assigned"] and [assigned_agent] the agent id, its other fields as
    they were; the queue holds the task so changed at the same place and is
    otherwise the same; the agent has its load increased by one and
    [last_heartbeat] set to the time of the poll, its other fields as they
    were; the other agents and the results are untouched.  If no task of
    the queue matches, the poll returns the status ["no_tasks"] and changes
    nothing.  One of the two cases always holds. *)
Theorem poll_assigns_first_match s (agent_id agent_token : string) (now : Z) agent :
  agents_db s !! agent_id = Some agent →
  Agent.token agent = agent_token →
  Agent.status agent = "online" →
  (Agent.current_tasks agent < Agent.max_tasks agent)%Z →
  agent_id ≠ "" →
  NoDup (queued_ids s) →
  (∀ pre task post,
     tasks_queue s = pre ++ task :: post →
     Forall (λ t, ¬ matches (Agent.capabilities agent) t) pre →
     matches (Agent.capabilities agent) task →
     let task' :=
       {| Task.id := Task.id task;
          Task.parent_task_id := Task.parent_task_id task;
          Task.target := Task.target task;
          Task.check_type := Task.check_type task;
          Task.country := Task.country task;
          Task.status := "assigned";
          Task.created_at := Task.created_at task;
          Task.assigned_agent := Some agent_id;
          Task.result := Task.result task;
          Task.agent_server := Task.agent_server task |} in
     let agent' :=
       {| Agent.id := Agent.id agent;
          Agent.name := Agent.name agent;
          Agent.country := Agent.country agent;
          Agent.token := Agent.token agent;
          Agent.capabilities := Agent.capabilities agent;
          Agent.status := Agent.status agent;
          Agent.current_tasks := Agent.current_tasks agent + 1;
          Agent.max_tasks := Agent.max_tasks agent;
          Agent.created_at := Agent.created_at agent;
          Agent.last_heartbeat := now |} in
     get_pending_task agent_id agent_token now s
     = (inr (Assigned task'),
        {| agents_db := <[agent_id := agent']> (agents_db s);
           tasks_queue := pre ++ task' :: post;
           task_results := task_results s |}))
  ∧ (Forall (λ t, ¬ matches (Agent.capabilities agent) t) (tasks_queue s) →
     get_pending_task agent_id agent_token now s = (inr (InBand "no_tasks"), s))
  ∧ ((∃ pre task post, tasks_queue s = pre ++ task :: post ∧
        Forall (λ t, ¬ matches (Agent.capabilities agent) t) pre ∧
        matches (Agent.capabilities agent) task)
     ∨ Forall (λ t, ¬ matches (Agent.capabilities agent) t) (tasks_queue s)).
Proof.
  intros Hagent Htok Honline Hload Hid Hnd.
  pose proof (get_pending_task_open s agent_id agent_token now agent
                Hagent Htok Honline Hload) as Hpoll.
  split_and!.
  - intros pre task post Hq Hpre Htask task' agent'. rewrite Hpoll, Hq.
    rewrite find_first_match by done. rewrite list_lookup_middle by done.
    cbn zeta. unfold queued_ids in Hnd. rewrite Hq in Hnd.
    rewrite update_task_status_middle by done.
    rewrite list_lookup_middle by done. rewrite write_assigned by done. done.
  - intros Hnone. rewrite Hpoll. by rewrite find_no_match.
  - apply first_match_or_none.
Qed.

Lemma poll_assigns_first_match_witness :
  ∃ task,
    fst (get_pending_task Scenario.agent_id Scenario.agent_token 1700000005000000
           Scenario.queued) = inr (Assigned task) ∧
    Task.id task = Scenario.http_id ∧
    Task.status task = "assigned" ∧
    Task.assigned_agent task = Some Scenario.agent_id.
Proof.
  destruct (poll_assigns_first_match Scenario.queued Scenario.agent_id
              Scenario.agent_token 1700000005000000 Scenario.agent)
    as (Hmatch & _).
  - vm_compute. reflexivity.
  - reflexivity.
  - reflexivity.
  - vm_compute. reflexivity.
  - discriminate.
  - apply (bool_decide_unpack _). vm_compute. exact I.
  - specialize (Hmatch [] Scenario.http_task (tail Scenario.sub_tasks)).
    rewrite Hmatch.
    + eexists. split; [reflexivity|]. vm_compute. repeat split.
    + vm_compute. reflexivity.
    + constructor.
    + split; [reflexivity|]. apply (bool_decide_unpack _). vm_compute. exact I.
Defined.

(** C10.  A submission with a valid agent credential answers ["success"]
    for every task id.  The result is stored under the id and the load of
    the submitting agent is decremented by one, floored at 0; when the id
    is the id of no queued task, the queue is left as it was. *)
Theorem submit_result_accepts_any_id s (task_id agent_id agent_token : string)
    (result : json_object) :
  verify_agent agent_id agent_token s = true →
  ∃ agent s',
    agents_db s !! agent_id = Some agent ∧
    submit_result task_id agent_id agent_token result s = (inr "success", s') ∧
    task_results s' !! task_id = Some result ∧
    load agent_id s' = Some (Z.max 0 (Agent.current_tasks agent - 1)) ∧
    (∀ other, other ≠ agent_id → agents_db s' !! other = agents_db s !! other) ∧
    (task_id ∉ queued_ids s → tasks_queue s' = tasks_queue s).
Proof.
  intros Hok. pose proof Hok as (agent & Hagent & Htok)%verify_agent_true.
  exists agent. eexists. split; [done|]. unfold submit_result, get_agent.
  rewrite Hok, Hagent. cbn [negb]. split; [reflexivity|].
  cbn [task_results agents_db tasks_queue]. unfold load. cbn [agents_db].
  split_and!.
  - apply lookup_insert_eq.
  - by rewrite lookup_insert_eq.
  - intros other Hne. by rewrite lookup_insert_ne.
  - apply update_task_status_unknown.
Qed.

Lemma submit_result_accepts_any_id_witness :
  ∃ s',
    submit_result "no-such-task" Scenario.agent_id Scenario.agent_token
      Scenario.outcome Scenario.two_assigned = (inr "success", s') ∧
    task_results s' !! "no-such-task" = Some Scenario.outcome ∧
    load Scenario.agent_id s' = Some 1%Z ∧
    tasks_queue s' = tasks_queue Scenario.two_assigned.
Proof.
  destruct (submit_result_accepts_any_id Scenario.two_assigned "no-such-task"
              Scenario.agent_id Scenario.agent_token Scenario.outcome)
    as (agent & s' & Hagent & Hsubmit & Hres & Hload & _ & Hqueue).
  - vm_compute. reflexivity.
  - exists s'. split_and!; [done|done| |].
    + rewrite Hload. assert (agent = Agent.set_last_heartbeat 1700000010000000
        (Agent.set_current_tasks 2 Scenario.agent)) as ->; [|reflexivity].
      apply (inj Some). rewrite <- Hagent. vm_compute. reflexivity.
    + apply Hqueue. apply (bool_decide_unpack _). vm_compute. exact I.
Defined.

(** C3, as stated, fails.  In the scenario the agent holds two assigned
    sub-tasks ([http] and [ping]), so its load is 2.  It submits the result
    of the [http] sub-task: the sub-task is completed and the load is 1.  It
    submits a result for the same sub-task again: the load is 0, one less
    than after the first submission. *)
Lemma second_submission_decrements_again :
  load Scenario.agent_id Scenario.two_assigned = Some 2%Z ∧
  Scenario.status_of Scenario.http_id Scenario.submitted_once = Some "completed" ∧
  load Scenario.agent_id Scenario.submitted_once = Some 1%Z ∧
  load Scenario.agent_id Scenario.submitted_twice = Some 0%Z ∧
  load Scenario.agent_id Scenario.submitted_twice
    ≠ load Scenario.agent_id Scenario.submitted_once.
Proof. vm_compute. split_and!; done. Qed.

(** C3, amended.  Every submission by an agent with a valid credential,
    the first for a sub-task or a repeated one, stores its result under the
    task id, in place of the one stored before, and decrements the load of
    the agent by one, floored at 0: after two submissions for the same
    sub-task the stored result is the second one and a load [c] has become
    [max 0 (c - 2)], which is less than the load after the first submission
    whenever [c] is at least 2. *)
Theorem submit_result_decrements_each_time s (task_id agent_id agent_token : string)
    (r1 r2 : json_object) :
  verify_agent agent_id agent_token s = true →
  ∃ agent s1 s2,
    agents_db s !! agent_id = Some agent ∧
    submit_result task_id agent_id agent_token r1 s = (inr "success", s1) ∧
    submit_result task_id agent_id agent_token r2 s1 = (inr "success", s2) ∧
    task_results s1 !! task_id = Some r1 ∧
    task_results s2 !! task_id = Some r2 ∧
    load agent_id s1 = Some (Z.max 0 (Agent.current_tasks agent - 1)) ∧
    load agent_id s2 = Some (Z.max 0 (Agent.current_tasks agent - 2)) ∧
    ((2 ≤ Agent.current_tasks agent)%Z →
     load agent_id s2 = Some (Agent.current_tasks agent - 2)%Z ∧
     load agent_id s1 = Some (Agent.current_tasks agent - 1)%Z).
Proof.
  intros Hok. pose proof Hok as (agent & Hagent & Htok)%verify_agent_true.
  set (agent1 := Agent.set_current_tasks (Z.max 0 (Agent.current_tasks agent - 1)) agent).
  assert (Hstep : ∀ s0 a0 r, agents_db s0 !! agent_id = Some a0 →
            Agent.token a0 = agent_token →
            submit_result task_id agent_id agent_token r s0
            = (inr "success",
               {| agents_db :=
                    <[agent_id :=
                        Agent.set_current_tasks (Z.max 0 (Agent.current_tasks a0 - 1)) a0]>
                      (agents_db s0);
                  tasks_queue := update_task_status task_id "completed" None (tasks_queue s0);
                  task_results := <[task_id := r]> (task_results s0) |})).
  { intros s0 a0 r Ha0 Ht0. unfold submit_result, verify_agent, get_agent.
    rewrite Ha0. by rewrite (bool_decide_eq_true_2 _ Ht0). }
  exists agent. do 2 eexists. split; [done|].
  split; [by apply Hstep|]. split.
  { apply Hstep; [apply lookup_insert_eq|done]. }
  unfold load. cbn [task_results agents_db]. rewrite !lookup_insert_eq.
  cbn [fmap option_fmap option_map Agent.current_tasks Agent.set_current_tasks].
  split_and!; try done.
  - f_equal. lia.
  - intros Hc. split; f_equal; lia.
Qed.

Lemma submit_result_decrements_each_time_witness :
  ∃ s1 s2,
    submit_result Scenario.http_id Scenario.agent_id Scenario.agent_token
      Scenario.outcome Scenario.two_assigned = (inr "success", s1) ∧
    submit_result Scenario.http_id Scenario.agent_id Scenario.agent_token
      [("status", "retry")] s1 = (inr "success", s2) ∧
    task_results s2 !! Scenario.http_id = Some [("status", "retry")].
Proof.
  destruct (submit_result_decrements_each_time Scenario.two_assigned Scenario.http_id
              Scenario.agent_id Scenario.agent_token Scenario.outcome
              [("status", "retry")])
    as (agent & s1 & s2 & _ & H1 & H2 & _ & Hres & _).
  - vm_compute. reflexivity.
  - exists s1, s2. exact (conj H1 (conj H2 Hres)).
Defined.

End Dispatch.

(** ** The load of an agent *)

Section Load.

Import AgentServer.

Implicit Types (s : state) (req : request).

Lemma bounded_insert s agent_id agent queue results :
  bounded s →
  (0 ≤ Agent.current_tasks agent ≤ Agent.max_tasks agent)%Z →
  bounded {| agents_db := <[agent_id := agent]> (agents_db s);
             tasks_queue := queue;
             task_results := results |}.
Proof.
  intros Hs Hagent other a. cbn [agents_db]. rewrite lookup_insert_Some.
  intros [[_ <-]|[_ Hother]]; [done|]. by apply (Hs other).
Qed.

Lemma create_agent_bounded name caps d s :
  bounded s → bounded (snd (create_agent name caps d s)).
Proof.
  intros Hs. unfold create_agent. cbn [snd].
  apply bounded_insert; [done|]. simpl. lia.
Qed.

Lemma get_pending_task_bounded agent_id tok now s :
  bounded s → bounded (snd (get_pending_task agent_id tok now s)).
Proof.
  intros Hs. unfold get_pending_task.
  destruct (verify_agent agent_id tok s); [|done]. cbn [negb]. unfold get_agent.
  destruct (agents_db s !! agent_id) as [agent|] eqn:Hagent; [|done].
  destruct (bool_decide _); [|done]. cbn [negb].
  destruct (Z.leb_spec (Agent.max_tasks agent) (Agent.current_tasks agent)); [done|].
  destruct (get_pending_task_for_agent _ _) as [pos|]; [|done].
  destruct (tasks_queue s !! pos); [|done].
  apply bounded_insert; [done|]. pose proof (Hs _ _ Hagent). simpl. lia.
Qed.

Lemma submit_result_bounded task_id agent_id tok res s :
  bounded s → bounded (snd (submit_result task_id agent_id tok res s)).
Proof.
  intros Hs. unfold submit_result.
  destruct (verify_agent agent_id tok s); [|done]. cbn [negb]. unfold get_agent.
  destruct (agents_db s !! agent_id) as [agent|] eqn:Hagent; [|done].
  apply bounded_insert; [done|]. pose proof (Hs _ _ Hagent). simpl. lia.
Qed.

Lemma handle_bounded req s : bounded s → bounded (handle req s).
Proof.
  intros Hs. destruct req as [name tok caps d|td tok|a tok|a tok now|tid a tok res
                             |a tok now|a now]; cbn [handle].
  - unfold create_agent_endpoint. destruct (verify_server_token tok); [|done].
    cbn [negb]. pose proof (create_agent_bounded name caps d s Hs).
    by destruct (create_agent name caps d s).
  - unfold assign_task. by destruct (verify_server_token tok).
  - unfold stop_agent_endpoint, stop_agent. destruct (verify_server_token tok); [|done].
    cbn [negb]. destruct (agents_db s !! a) as [agent|] eqn:Hagent; [|done].
    apply bounded_insert; [done|]. apply (Hs _ _ Hagent).
  - by apply get_pending_task_bounded.
  - by apply submit_result_bounded.
  - unfold agent_heartbeat. destruct (verify_agent a tok s); [|done]. cbn [negb].
    unfold get_agent. destruct (agents_db s !! a) as [agent|] eqn:Hagent; [|done].
    apply bounded_insert; [done|]. apply (Hs _ _ Hagent).
  - unfold worker_heartbeat. destruct (agents_db s !! a) as [agent|] eqn:Hagent; [|done].
    apply bounded_insert; [done|]. apply (Hs _ _ Hagent).
Qed.

Lemma run_bounded reqs s : bounded s → bounded (run reqs s).
Proof.
  revert s. induction reqs as [|req reqs IH]; intros s Hs; [done|].
  by apply IH, handle_bounded.
Qed.

(** C4.  In every state that the agent server reaches from its start by
    any sequence of requests (polls and submissions among them), every
    agent has [0 ≤ current_tasks ≤ max_tasks], and the same holds from any
    state in which it holds.  A poll for an agent at capacity assigns
    nothing: it leaves the stores as they are and returns no task; past the
    credential check and the online check its answer is the status
    ["busy"].  A submission leaves the load of every agent as it was or at
    a value that is not negative. *)
Theorem load_within_capacity :
  (∀ reqs, bounded (run reqs initial)) ∧
  (∀ reqs s, bounded s → bounded (run reqs s)) ∧
  (∀ s agent_id tok now agent,
     agents_db s !! agent_id = Some agent →
     (Agent.max_tasks agent ≤ Agent.current_tasks agent)%Z →
     snd (get_pending_task agent_id tok now s) = s ∧
     (∀ task, fst (get_pending_task agent_id tok now s) ≠ inr (Assigned task)) ∧
     (Agent.token agent = tok → Agent.status agent = "online" →
      fst (get_pending_task agent_id tok now s) = inr (InBand "busy"))) ∧
  (∀ s task_id agent_id tok res other c',
     load other (snd (submit_result task_id agent_id tok res s)) = Some c' →
     load other s = Some c' ∨ (0 ≤ c')%Z).
Proof.
  split_and!.
  - intros reqs. apply run_bounded. intros a agent Ha.
    cbn [initial agents_db] in Ha. by rewrite lookup_empty in Ha.
  - apply run_bounded.
  - intros s agent_id tok now agent Hagent Hfull.
    unfold get_pending_task, verify_agent, get_agent. rewrite Hagent.
    apply Z.leb_le in Hfull. rewrite Hfull.
    split_and!.
    + by repeat (case_bool_decide; cbn [negb]).
    + intros task. by repeat (case_bool_decide; cbn [negb]).
    + intros Htok Honline.
      by rewrite (bool_decide_eq_true_2 _ Htok), (bool_decide_eq_true_2 _ Honline).
  - intros s task_id agent_id tok res other c'. unfold submit_result, load.
    destruct (verify_agent agent_id tok s); [|by left]. cbn [negb snd agents_db].
    unfold get_agent. destruct (agents_db s !! agent_id) as [agent|] eqn:Hagent; [|by left].
    destruct (decide (agent_id = other)) as [<-|Hne].
    + rewrite lookup_insert_eq. simpl. intros [= <-]. right. lia.
    + rewrite lookup_insert_ne by done. by left.
Qed.

Lemma load_within_capacity_witness :
  bounded (run Scenario.history initial).
Proof.
  destruct load_within_capacity as (Hreach & _).
  apply (Hreach Scenario.history).
Defined.

End Load.

(** ** The life of a queued task *)

Section Lifecycle.

Import AgentServer.

Implicit Types (s : state) (req : request) (task : Task.t).

(** What a poll does: nothing to the stores and no task in the answer, or
    the assignment of the task found by the scan. *)
Lemma get_pending_task_inv agent_id tok now s :
  (snd (get_pending_task agent_id tok now s) = s ∧
   ∀ t, fst (get_pending_task agent_id tok now s) ≠ inr (Assigned t))
  ∨ ∃ agent pos task,
      agents_db s !! agent_id = Some agent ∧
      get_pending_task_for_agent (Agent.capabilities agent) (tasks_queue s) = Some pos ∧
      tasks_queue s !! pos = Some task ∧
      get_pending_task agent_id tok now s
      = (inr (Assigned
                (default task
                   (update_task_status (Task.id task) "assigned" (Some agent_id)
                      (tasks_queue s) !! pos))),
         assigned_state s agent_id agent now
           (update_task_status (Task.id task) "assigned" (Some agent_id) (tasks_queue s))).
Proof.
  unfold get_pending_task.
  destruct (verify_agent agent_id tok s); cbn [negb]; [|by left].
  unfold get_agent. destruct (agents_db s !! agent_id) as [agent|] eqn:Hagent; [|by left].
  destruct (bool_decide _); cbn [negb]; [|by left].
  destruct (Z.leb _ _); [by left|].
  destruct (get_pending_task_for_agent _ _) as [pos|] eqn:Hfind; [|by left].
  destruct (tasks_queue s !! pos) as [task|] eqn:Hpos; [|by left].
  right. by exists agent, pos, task.
Qed.

Lemma find_some_lookup caps queue pos task :
  get_pending_task_for_agent caps queue = Some pos → queue !! pos = Some task →
  matches caps task.
Proof.
  intros (pre & t & post & -> & <- & _ & Ht)%find_some_inv.
  rewrite list_lookup_middle by done. by intros [= <-].
Qed.

(** The four things a request can do to the queue. *)
Lemma handle_queue req s :
  tasks_queue (handle req s) = tasks_queue s
  ∨ (∃ td tok, req = AssignTask td tok ∧ verify_server_token tok = true ∧
       tasks_queue (handle req s)
       = tasks_queue s ++ [Task.set_country (country CONFIG) (Task.set_status "pending" td)])
  ∨ (∃ pos task a, tasks_queue s !! pos = Some task ∧ Task.status task = "pending" ∧
       tasks_queue (handle req s)
       = update_task_status (Task.id task) "assigned" a (tasks_queue s))
  ∨ (∃ task_id, tasks_queue (handle req s)
       = update_task_status task_id "completed" None (tasks_queue s)).
Proof.
  destruct req as [name tok caps d|td tok|a tok|a tok now|tid a tok res
                  |a tok now|a now]; cbn [handle].
  - left. unfold create_agent_endpoint. by destruct (verify_server_token tok).
  - unfold assign_task. destruct (verify_server_token tok) eqn:Htok; cbn [negb].
    + right. left. by exists td, tok.
    + by left.
  - left. unfold stop_agent_endpoint, stop_agent.
    destruct (verify_server_token tok); [|done]. cbn [negb].
    by destruct (agents_db s !! a).
  - destruct (get_pending_task_inv a tok now s)
      as [[-> _]|(agent & pos & task & Hagent & Hfind & Hpos & ->)]; [by left|].
    right. right. left. exists pos, task, (Some a). split; [done|]. split; [|done].
    by destruct (find_some_lookup _ _ _ _ Hfind Hpos).
  - unfold submit_result. destruct (verify_agent a tok s); cbn [negb]; [|by left].
    right. right. right. by exists tid.
  - left. unfold agent_heartbeat. destruct (verify_agent a tok s); [|done].
    cbn [negb]. by destruct (get_agent a s).
  - left. unfold worker_heartbeat. by destruct (agents_db s !! a).
Qed.

Lemma handle_NoDup req s :
  fresh req s → NoDup (queued_ids s) → NoDup (queued_ids (handle req s)).
Proof.
  intros Hfresh Hnd. unfold queued_ids in *.
  destruct (handle_queue req s)
    as [->|[(td & tok & -> & Htok & ->)|[(pos & task & a & _ & _ & ->)|(tid & ->)]]].
  - done.
  - rewrite fmap_app. apply NoDup_app. split; [done|]. split.
    + intros x Hx ->%list_elem_of_singleton. by apply (Hfresh Htok).
    + apply NoDup_singleton.
  - by rewrite update_task_status_ids.
  - by rewrite update_task_status_ids.
Qed.

(** One request: each queued task keeps its place and its id; its status
    stays, or makes one of the two moves. *)
Lemma handle_status req s i task :
  NoDup (queued_ids s) → tasks_queue s !! i = Some task →
  ∃ task', tasks_queue (handle req s) !! i = Some task' ∧
    Task.id task' = Task.id task ∧
    (Task.status task' = Task.status task ∨ move (Task.status task) (Task.status task')).
Proof.
  intros Hnd Hi.
  destruct (handle_queue req s)
    as [->|[(td & tok & -> & Htok & ->)|[(pos & found & a & Hpos & Hpending & ->)
                                         |(tid & ->)]]].
  - exists task. auto.
  - exists task. rewrite lookup_app_l by (by eapply lookup_lt_Some). auto.
  - destruct (update_task_status_lookup (Task.id found) "assigned" a _ _ _ Hi)
      as (task' & Hi' & [->|[Hid ->]]); [exists task; auto|].
    eexists. split; [done|]. rewrite write_status_id, write_status_status.
    split; [done|]. right.
    assert (i = pos) as -> by (by eapply NoDup_ids_lookup).
    rewrite Hpos in Hi. injection Hi as <-. rewrite Hpending. constructor.
  - destruct (update_task_status_lookup tid "completed" None _ _ _ Hi)
      as (task' & Hi' & [->|[Hid ->]]); [exists task; auto|].
    eexists. split; [done|]. rewrite write_status_id, write_status_status.
    split; [done|]. right. constructor.
Qed.

Lemma run_status reqs s i task :
  NoDup (queued_ids s) → fresh_run reqs s → tasks_queue s !! i = Some task →
  NoDup (queued_ids (run reqs s)) ∧
  ∃ task', tasks_queue (run reqs s) !! i = Some task' ∧
    Task.id task' = Task.id task ∧
    rtc move (Task.status task) (Task.status task').
Proof.
  revert s task. induction reqs as [|req reqs IH]; intros s task Hnd Hfresh Hi.
  - split; [done|]. exists task. by split_and!.
  - destruct Hfresh as [Hreq Hfresh]. cbn [run].
    destruct (handle_status req s i task Hnd Hi) as (mid & Hmid & Hid & Hst).
    destruct (IH (handle req s) mid (handle_NoDup _ _ Hreq Hnd) Hfresh Hmid)
      as (Hnd' & task' & Hi' & Hid' & Hrtc).
    split; [done|]. exists task'. split; [done|]. split; [congruence|].
    destruct Hst as [<-|Hmove]; [done|]. by eapply rtc_l.
Qed.

Lemma move_from_completed st : move "completed" st → st = "completed".
Proof. by inversion 1. Qed.

Lemma move_from_assigned st : move "assigned" st → st = "completed".
Proof. by inversion 1. Qed.

Lemma move_not_pending st st' : move st st' → st' ≠ "pending".
Proof. by inversion 1. Qed.

Lemma rtc_move_completed st : rtc move "completed" st → st = "completed".
Proof.
  intros H. remember "completed" as c eqn:Hc. induction H as [|x y z Hxy _ IH]; [done|].
  subst x. apply move_from_completed in Hxy. rewrite IH; done.
Qed.

Lemma rtc_move_assigned st :
  rtc move "assigned" st → st = "assigned" ∨ st = "completed".
Proof.
  inversion 1 as [|x y z Hxy Hyz]; subst; [by left|].
  apply move_from_assigned in Hxy as ->. right. by apply rtc_move_completed.
Qed.

Lemma rtc_move_to_pending st : rtc move st "pending" → st = "pending".
Proof.
  intros H. remember "pending" as p eqn:Hp. induction H as [|x y z Hxy Hyz IH]; [done|].
  subst z. specialize (IH eq_refl). subst y. by apply move_not_pending in Hxy.
Qed.

End Lifecycle.

(** ** Assignment *)

Section Assignment.

Import AgentServer.

Implicit Types (s : state) (req : request) (task : Task.t).

(** C6, as stated, fails.  In the scenario the [tcp] sub-task is pending
    and no agent has been given it; the agent (whose capabilities do not
    even include [tcp]) submits a result under its id, and the sub-task is
    completed without having been assigned. *)
Lemma pending_task_completed_without_assignment :
  Scenario.status_of Scenario.tcp_id Scenario.queued = Some "pending" ∧
  Scenario.status_of Scenario.tcp_id
    (handle (Scenario.submit Scenario.tcp_id) Scenario.queued) = Some "completed".
Proof. vm_compute. by split. Qed.

(** C6, amended.  On a queue of tasks with distinct ids, along every
    sequence of requests (polls and submissions among them; relayed tasks
    arrive under new ids) each queued task keeps its id and its status
    never moves backward: every change is pending to assigned, made by the
    poll that returns the task, or a change to completed, made by a
    submission under its id from whatever status, pending included.  So a
    completed task stays completed, an assigned task is assigned or
    completed later on, and a task that is pending later on was pending
    all along.  The agent server never sets the status failed. *)
Theorem status_never_moves_backward reqs s (i : nat) task :
  NoDup (queued_ids s) → fresh_run reqs s → tasks_queue s !! i = Some task →
  ∃ task', tasks_queue (run reqs s) !! i = Some task' ∧
    Task.id task' = Task.id task ∧
    rtc move (Task.status task) (Task.status task') ∧
    (Task.status task = "completed" → Task.status task' = "completed") ∧
    (Task.status task = "assigned" →
     Task.status task' = "assigned" ∨ Task.status task' = "completed") ∧
    (Task.status task' = "pending" → Task.status task = "pending").
Proof.
  intros Hnd Hfresh Hi.
  destruct (run_status reqs s i task Hnd Hfresh Hi) as (_ & task' & Hi' & Hid & Hrtc).
  exists task'. split_and!; [done..| | |].
  - intros Hst. rewrite Hst in Hrtc. by apply rtc_move_completed.
  - intros Hst. rewrite Hst in Hrtc. by apply rtc_move_assigned.
  - intros Hst. rewrite Hst in Hrtc. by apply rtc_move_to_pending.
Qed.

Lemma status_never_moves_backward_witness :
  ∃ task', tasks_queue (run Scenario.replay Scenario.queued) !! 0%nat = Some task' ∧
    Task.id task' = Scenario.http_id ∧
    rtc move "pending" (Task.status task').
Proof.
  destruct (status_never_moves_backward Scenario.replay Scenario.queued 0
              Scenario.http_task) as (task' & H1 & H2 & H3 & _).
  - apply (bool_decide_unpack _). vm_compute. exact I.
  - repeat split.
  - vm_compute. reflexivity.
  - exists task'. exact (conj H1 (conj H2 H3)).
Defined.

(** C8, where the code misses.  The relay of the [http] sub-task has
    arrived twice, so the queue holds two entries under one id.  Two agents
    poll, one right after the other: the first receives the sub-task, the
    second receives a sub-task with the same id, and both answers are
    assignments.  The entry that the second agent received is still pending
    in the queue, and a third poll, by the first agent, receives that very
    entry again.  Afterwards the first agent carries a load of two and the
    second a load of one. *)
Lemma repeated_id_polls_share_a_task :
  queued_ids Scenario.repeated = [Scenario.http_id; Scenario.http_id] ∧
  fst (get_pending_task Scenario.agent_id Scenario.agent_token 1700000005000000
         Scenario.repeated)
  = inr (Assigned Scenario.http_assigned) ∧
  fst (get_pending_task Scenario.second_agent_id Scenario.second_agent_token
         1700000006000000
         (run [PendingTask Scenario.agent_id Scenario.agent_token 1700000005000000]
            Scenario.repeated))
  = inr (Assigned Scenario.http_task) ∧
  fst (get_pending_task Scenario.agent_id Scenario.agent_token 1700000007000000
         (run [PendingTask Scenario.agent_id Scenario.agent_token 1700000005000000;
               PendingTask Scenario.second_agent_id Scenario.second_agent_token
                 1700000006000000] Scenario.repeated))
  = inr (Assigned Scenario.http_task) ∧
  Task.id Scenario.http_assigned = Scenario.http_id ∧
  Task.id Scenario.http_task = Scenario.http_id ∧
  Scenario.agent_id ≠ Scenario.second_agent_id ∧
  load Scenario.agent_id
    (run [PendingTask Scenario.agent_id Scenario.agent_token 1700000005000000;
          PendingTask Scenario.second_agent_id Scenario.second_agent_token
            1700000006000000;
          PendingTask Scenario.agent_id Scenario.agent_token 1700000007000000]
       Scenario.repeated) = Some 2%Z ∧
  load Scenario.second_agent_id
    (run [PendingTask Scenario.agent_id Scenario.agent_token 1700000005000000;
          PendingTask Scenario.second_agent_id Scenario.second_agent_token
            1700000006000000;
          PendingTask Scenario.agent_id Scenario.agent_token 1700000007000000]
       Scenario.repeated) = Some 1%Z.
Proof. vm_compute. repeat split; discriminate. Qed.

(** X19.  Requests served one after the other, on a queue of tasks with
    distinct ids, relayed tasks arriving under new ids: if a poll returns a
    task, then no later poll, by the same or another agent and after any
    requests in between, returns a task with the same id. *)
Theorem polls_never_share_a_task s (a1 tok1 : string) (now1 : Z) reqs
    (a2 tok2 : string) (now2 : Z) (t1 t2 : Task.t) :
  NoDup (queued_ids s) →
  fst (get_pending_task a1 tok1 now1 s) = inr (Assigned t1) →
  fresh_run reqs (snd (get_pending_task a1 tok1 now1 s)) →
  fst (get_pending_task a2 tok2 now2 (run reqs (snd (get_pending_task a1 tok1 now1 s))))
  = inr (Assigned t2) →
  Task.id t1 ≠ Task.id t2.
Proof.
  intros Hnd Hfirst Hfresh Hsecond Heq.
  destruct (get_pending_task_inv a1 tok1 now1 s)
    as [[_ Hno]|(agent1 & pos1 & task1 & _ & Hfind1 & Hpos1 & Hpoll1)];
    [by apply (Hno t1)|].
  rewrite Hpoll1 in Hfirst, Hfresh, Hsecond. cbn [fst snd] in *.
  set (s1 := assigned_state s a1 agent1 now1 _) in *.
  destruct (update_task_status_lookup (Task.id task1) "assigned" (Some a1) _ _ _ Hpos1)
    as (task1' & Hpos1' & Hwritten).
  assert (Hnd1 : NoDup (queued_ids s1)).
  { unfold queued_ids, s1. cbn [tasks_queue assigned_state].
    by rewrite update_task_status_ids. }
  assert (Hwrite : task1' = write_status "assigned" (Some a1) task1).
  { destruct Hwritten as [->|[_ ->]]; [|done].
    destruct (find_some_inv _ _ _ Hfind1) as (pre & t & post & Hq & Hlen & _ & _).
    unfold queued_ids in Hnd. rewrite Hq in Hnd, Hpos1, Hpos1'. subst pos1.
    rewrite list_lookup_middle in Hpos1 by done. injection Hpos1 as ->.
    rewrite update_task_status_middle in Hpos1' by done.
    rewrite list_lookup_middle in Hpos1' by done. by injection Hpos1'. }
  rewrite Hpos1' in Hfirst. cbn [default from_option] in Hfirst.
  injection Hfirst as <-.
  assert (Hs1 : tasks_queue s1 !! pos1 = Some task1') by done.
  destruct (run_status reqs s1 pos1 task1' Hnd1 Hfresh Hs1)
    as (Hnd2 & later & Hlater & Hid & Hrtc).
  destruct (get_pending_task_inv a2 tok2 now2 (run reqs s1))
    as [[_ Hno]|(agent2 & pos2 & task2 & _ & Hfind2 & Hpos2 & Hpoll2)];
    [by apply (Hno t2)|].
  rewrite Hpoll2 in Hsecond. cbn [fst] in Hsecond.
  destruct (update_task_status_lookup (Task.id task2) "assigned" (Some a2) _ _ _ Hpos2)
    as (task2' & Hpos2' & Hwritten2).
  rewrite Hpos2' in Hsecond. cbn [default from_option] in Hsecond.
  injection Hsecond as <-.
  assert (Hid2 : Task.id task2' = Task.id task2).
  { destruct Hwritten2 as [->|[_ ->]]; [done|apply write_status_id]. }
  assert (pos1 = pos2) as <-.
  { eapply NoDup_ids_lookup; [exact Hnd2|exact Hlater|exact Hpos2|]. congruence. }
  rewrite Hlater in Hpos2. injection Hpos2 as ->.
  destruct (find_some_lookup _ _ _ _ Hfind2 Hlater) as [Hpending _].
  rewrite Hpending in Hrtc. apply rtc_move_to_pending in Hrtc.
  rewrite Hwrite, write_status_status in Hrtc. done.
Qed.

Lemma polls_never_share_a_task_witness :
  ∃ t1 t2,
    fst (get_pending_task Scenario.agent_id Scenario.agent_token 1700000005000000
           Scenario.queued) = inr (Assigned t1) ∧
    fst (get_pending_task Scenario.agent_id Scenario.agent_token 1700000010000000
           Scenario.one_assigned) = inr (Assigned t2) ∧
    Task.id t1 ≠ Task.id t2.
Proof.
  pose (t2 := Task.set_assigned_agent Scenario.agent_id
                (Task.set_status "assigned"
                   (Coordinator.task_data Scenario.world 2 Scenario.parent_id
                      "example.com" "ping" "ru"))).
  assert (H1 : fst (get_pending_task Scenario.agent_id Scenario.agent_token
                      1700000005000000 Scenario.queued)
               = inr (Assigned Scenario.http_assigned)) by (vm_compute; reflexivity).
  assert (H2 : fst (get_pending_task Scenario.agent_id Scenario.agent_token
                      1700000010000000 Scenario.one_assigned)
               = inr (Assigned t2)) by (vm_compute; reflexivity).
  exists Scenario.http_assigned, t2. split; [exact H1|]. split; [exact H2|].
  apply (polls_never_share_a_task Scenario.queued Scenario.agent_id Scenario.agent_token
           1700000005000000 [] Scenario.agent_id Scenario.agent_token 1700000010000000).
  - apply (bool_decide_unpack _). vm_compute. exact I.
  - exact H1.
  - exact I.
  - exact H2.
Defined.

End Assignment.

(** ** Capabilities *)

Section Capabilities.

Import AgentServer.

Implicit Types (s : state) (req : request) (task : Task.t) (agent : Agent.t).

(** Writing under [key] a dictionary with the capabilities of the one that
    is there keeps the capabilities of every agent. *)
Lemma keep_capabilities s (key : string) new (agent_id : string) agent :
  agents_db s !! agent_id = Some agent →
  (∀ old, agents_db s !! key = Some old →
     Agent.capabilities new = Agent.capabilities old) →
  ∃ agent', <[key := new]> (agents_db s) !! agent_id = Some agent' ∧
    Agent.capabilities agent' = Agent.capabilities agent.
Proof.
  intros Hagent Hsame. destruct (decide (key = agent_id)) as [->|Hne].
  - exists new. rewrite lookup_insert_eq. split; [done|]. by apply Hsame.
  - exists agent. by rewrite lookup_insert_ne.
Qed.

Lemma handle_capabilities req s (agent_id : string) agent :
  agents_db s !! agent_id = Some agent → ¬ recreates agent_id req →
  ∃ agent', agents_db (handle req s) !! agent_id = Some agent' ∧
    Agent.capabilities agent' = Agent.capabilities agent.
Proof.
  intros Hagent Hreq.
  destruct req as [name tok caps d|td tok|a tok|a tok now|tid a tok res
                  |a tok now|a now]; cbn [handle].
  - unfold create_agent_endpoint. destruct (verify_server_token tok); cbn [negb]; [|eauto].
    unfold create_agent. cbn [snd agents_db]. exists agent.
    by rewrite lookup_insert_ne.
  - unfold assign_task. destruct (verify_server_token tok); cbn [negb]; eauto.
  - unfold stop_agent_endpoint, stop_agent.
    destruct (verify_server_token tok); cbn [negb]; [|eauto].
    destruct (agents_db s !! a) as [old|] eqn:Hold; cbn [snd]; [|eauto].
    apply keep_capabilities; [done|]. rewrite Hold. by intros ? [= <-].
  - destruct (get_pending_task_inv a tok now s)
      as [[-> _]|(old & pos & task & Hold & _ & _ & ->)]; [eauto|].
    cbn [snd assigned_state agents_db].
    apply keep_capabilities; [done|]. rewrite Hold. by intros ? [= <-].
  - unfold submit_result. destruct (verify_agent a tok s); cbn [negb snd]; [|eauto].
    unfold get_agent. destruct (agents_db s !! a) as [old|] eqn:Hold; [|eauto].
    cbn [agents_db]. apply keep_capabilities; [done|]. rewrite Hold. by intros ? [= <-].
  - unfold agent_heartbeat. destruct (verify_agent a tok s); cbn [negb snd]; [|eauto].
    unfold get_agent. destruct (agents_db s !! a) as [old|] eqn:Hold; cbn [snd]; [|eauto].
    apply keep_capabilities; [done|]. rewrite Hold. by intros ? [= <-].
  - unfold worker_heartbeat. destruct (agents_db s !! a) as [old|] eqn:Hold; [|eauto].
    apply keep_capabilities; [done|]. rewrite Hold. by intros ? [= <-].
Qed.

Lemma run_capabilities reqs s (agent_id : string) agent :
  agents_db s !! agent_id = Some agent →
  Forall (λ req, ¬ recreates agent_id req) reqs →
  ∃ agent', agents_db (run reqs s) !! agent_id = Some agent' ∧
    Agent.capabilities agent' = Agent.capabilities agent.
Proof.
  intros Hagent Hreqs. revert s agent Hagent.
  induction Hreqs as [|req reqs Hreq _ IH]; intros s agent Hagent; [eauto|].
  destruct (handle_capabilities req s agent_id agent Hagent Hreq) as (mid & Hmid & Hcaps).
  destruct (IH _ _ Hmid) as (agent' & Hagent' & Hcaps').
  exists agent'. split; [done|]. congruence.
Qed.

(** The task a poll returns has a check type among the capabilities of the
    agent, whatever the queue. *)
Lemma assigned_check_type s (agent_id tok : string) (now : Z) agent task :
  agents_db s !! agent_id = Some agent →
  fst (get_pending_task agent_id tok now s) = inr (Assigned task) →
  Task.check_type task ∈ Agent.capabilities agent.
Proof.
  intros Hagent Hpoll.
  destruct (get_pending_task_inv agent_id tok now s)
    as [[_ Hno]|(agent' & pos & found & Hagent' & Hfind & Hpos & Heq)];
    [by apply Hno in Hpoll|].
  rewrite Hagent in Hagent'. injection Hagent' as <-.
  rewrite Heq in Hpoll. cbn [fst] in Hpoll. injection Hpoll as <-.
  destruct (find_some_lookup _ _ _ _ Hfind Hpos) as [_ Hin].
  destruct (update_task_status_lookup (Task.id found) "assigned" (Some agent_id) _ _ _ Hpos)
    as (written & -> & [->|[_ ->]]); [done|].
  change (Task.check_type (write_status "assigned" (Some agent_id) found)
          ∈ Agent.capabilities agent).
  by rewrite write_status_check_type.
Qed.

(** C9.  An agent created by [create_agent] without capabilities of its own
    has the capabilities [http], [ping], [tcp] and [dns], and keeps them
    through every sequence of requests that does not create an agent under
    the same id.  Matching is membership of the check type in that list: a
    task that a poll by this agent returns has one of these four check
    types, so it has none of [https], [traceroute], [dns_a], [dns_aaaa],
    [dns_mx], [dns_ns] and [dns_txt], and if its check type is one of the
    ten of the catalog it is [http], [ping] or [tcp]. *)
Theorem default_agent_gets_http_ping_tcp_only (name server_token : string) (d : draw) s
    reqs (tok : string) (now : Z) task :
  verify_server_token server_token = true →
  Forall (λ req, ¬ recreates (new_agent_id d) req) reqs →
  fst (get_pending_task (new_agent_id d) tok now
         (run reqs (handle (CreateAgent name server_token None d) s)))
  = inr (Assigned task) →
  Task.check_type task ∈ ["http"; "ping"; "tcp"; "dns"] ∧
  (Task.check_type task
     ∉ ["https"; "traceroute"; "dns_a"; "dns_aaaa"; "dns_mx"; "dns_ns"; "dns_txt"]) ∧
  (Task.check_type task ∈ Coordinator.all_check_types →
   Task.check_type task ∈ ["http"; "ping"; "tcp"]).
Proof.
  intros Htok Hreqs Hpoll.
  set (s1 := handle (CreateAgent name server_token None d) s) in *.
  assert (Hcreated : ∃ agent, agents_db s1 !! new_agent_id d = Some agent ∧
                       Agent.capabilities agent = default_capabilities).
  { unfold s1. cbn [handle]. unfold create_agent_endpoint. rewrite Htok.
    cbn [negb]. unfold create_agent. cbn [snd agents_db].
    eexists. split; [apply lookup_insert_eq|done]. }
  destruct Hcreated as (agent & Hagent & Hcaps).
  destruct (run_capabilities reqs s1 _ agent Hagent Hreqs) as (agent' & Hagent' & Hcaps').
  pose proof (assigned_check_type _ _ _ _ _ _ Hagent' Hpoll) as Hin.
  rewrite Hcaps', Hcaps in Hin. unfold default_capabilities in Hin.
  split; [done|].
  rewrite !elem_of_cons in Hin.
  destruct Hin as [->|[->|[->|[->|Hin]]]]; [..|by apply elem_of_nil in Hin].
  - split; [by apply (bool_decide_unpack _)|]. intros _. by apply (bool_decide_unpack _).
  - split; [by apply (bool_decide_unpack _)|]. intros _. by apply (bool_decide_unpack _).
  - split; [by apply (bool_decide_unpack _)|]. intros _. by apply (bool_decide_unpack _).
  - split; [by apply (bool_decide_unpack _)|].
    intros Hcat. exfalso. revert Hcat. by apply (bool_decide_unpack _).
Qed.

Lemma default_agent_gets_http_ping_tcp_only_witness :
  Task.check_type Scenario.http_assigned ∈ ["http"; "ping"; "tcp"; "dns"] ∧
  (Task.check_type Scenario.http_assigned
     ∉ ["https"; "traceroute"; "dns_a"; "dns_aaaa"; "dns_mx"; "dns_ns"; "dns_txt"]) ∧
  (Task.check_type Scenario.http_assigned ∈ Coordinator.all_check_types →
   Task.check_type Scenario.http_assigned ∈ ["http"; "ping"; "tcp"]).
Proof.
  apply (default_agent_gets_http_ping_tcp_only "probe" Scenario.server_token
           Scenario.draw initial Scenario.arrivals Scenario.agent_token
           1700000005000000).
  - reflexivity.
  - repeat constructor; intros [].
  - vm_compute. reflexivity.
Defined.

End Capabilities.

(** ** The liveness sweep *)

Section Liveness.

Implicit Types (s : HostCheck.state) (info : HostCheck.agent_info)
  (dead : list string).

Lemma agent_key_inj : Inj (=) (=) (String.app "agent:").
Proof. apply _. Qed.

(** [timedelta(seconds=n)] is built exactly for the seconds whose day count
    is within 999999999 days either way. *)
Lemma timedelta_seconds_range (n : Z) :
  (-86399999913600 ≤ n ≤ 86399999999999)%Z →
  HostCheck.timedelta_seconds n = Some (n * 1000000)%Z.
Proof.
  intros Hn. unfold HostCheck.timedelta_seconds.
  pose proof (Z.div_mod n 86400 ltac:(lia)) as Hdiv.
  pose proof (Z.mod_pos_bound n 86400 ltac:(lia)) as Hmod.
  destruct (Z.leb_spec (-999999999) (n / 86400)); [|lia].
  destruct (Z.leb_spec (n / 86400) 999999999); [done|lia].
Qed.

Lemma timedelta_seconds_overflow (n : Z) :
  (n < -86399999913600 ∨ 86399999999999 < n)%Z →
  HostCheck.timedelta_seconds n = None.
Proof.
  intros Hn. unfold HostCheck.timedelta_seconds.
  pose proof (Z.div_mod n 86400 ltac:(lia)) as Hdiv.
  pose proof (Z.mod_pos_bound n 86400 ltac:(lia)) as Hmod.
  destruct (Z.leb_spec (-999999999) (n / 86400)); [|done].
  destruct (Z.leb_spec (n / 86400) 999999999); [lia|done].
Qed.

Lemma stale_in_range cfg (now : Z) info :
  (-86399999913600 ≤ HostCheck.HEARTBEAT_TIMEOUT cfg ≤ 86399999999999)%Z →
  HostCheck.stale cfg now info
  = Some (HostCheck.HEARTBEAT_TIMEOUT cfg * 1000000
          <? now - HostCheck.last_heartbeat info)%Z.
Proof.
  intros Hrange. unfold HostCheck.stale. by rewrite timedelta_seconds_range.
Qed.

(** The first loop, for a timeout that [timedelta] can hold: the ids of the
    entries whose heartbeat is too old, in the order of the entries. *)
Lemma collect_dead_in_range cfg (now : Z) (items : list (string * HostCheck.agent_info))
    dead :
  (-86399999913600 ≤ HostCheck.HEARTBEAT_TIMEOUT cfg ≤ 86399999999999)%Z →
  HostCheck.collect_dead cfg now items dead
  = Some (dead ++ (filter (λ entry : string * HostCheck.agent_info,
                             (HostCheck.HEARTBEAT_TIMEOUT cfg * 1000000
                              < now - HostCheck.last_heartbeat entry.2)%Z) items).*1).
Proof.
  intros Hrange. revert dead.
  induction items as [|[key info] items IH]; intros dead; cbn [HostCheck.collect_dead].
  - by rewrite filter_nil, app_nil_r.
  - rewrite stale_in_range by done.
    destruct (Z.ltb_spec (HostCheck.HEARTBEAT_TIMEOUT cfg * 1000000)
                (now - HostCheck.last_heartbeat info)) as [Hlt|Hge].
    + rewrite IH, filter_cons_True by done. by rewrite fmap_cons, <- app_assoc.
    + rewrite IH, filter_cons_False; [done|]. cbn [snd]. lia.
Qed.

(** The first loop, for a timeout that [timedelta] cannot hold: the test
    raises at the first entry. *)
Lemma collect_dead_overflow cfg (now : Z) (items : list (string * HostCheck.agent_info))
    dead :
  (HostCheck.HEARTBEAT_TIMEOUT cfg < -86399999913600
   ∨ 86399999999999 < HostCheck.HEARTBEAT_TIMEOUT cfg)%Z →
  HostCheck.collect_dead cfg now items dead
  = match items with [] => Some dead | _ :: _ => None end.
Proof.
  intros Hrange. destruct items as [|[key info] items]; [done|].
  cbn [HostCheck.collect_dead]. unfold HostCheck.stale.
  by rewrite timedelta_seconds_overflow.
Qed.

Lemma collect_dead_elem cfg (now : Z) (items : list (string * HostCheck.agent_info))
    (agent_id : string) :
  agent_id ∈ (filter (λ entry : string * HostCheck.agent_info,
                        (HostCheck.HEARTBEAT_TIMEOUT cfg * 1000000
                         < now - HostCheck.last_heartbeat entry.2)%Z) items).*1
  ↔ ∃ info, (agent_id, info) ∈ items ∧
            (HostCheck.HEARTBEAT_TIMEOUT cfg * 1000000
             < now - HostCheck.last_heartbeat info)%Z.
Proof.
  rewrite list_elem_of_fmap. split.
  - intros ([key info] & -> & [Hlt Hin]%list_elem_of_filter). by exists info.
  - intros (info & Hin & Hlt). exists (agent_id, info). split; [done|].
    by apply list_elem_of_filter.
Qed.

Lemma collect_dead_NoDup cfg (now : Z) (items : list (string * HostCheck.agent_info)) :
  NoDup items.*1 →
  NoDup (filter (λ entry : string * HostCheck.agent_info,
                   (HostCheck.HEARTBEAT_TIMEOUT cfg * 1000000
                    < now - HostCheck.last_heartbeat entry.2)%Z) items).*1.
Proof.
  induction items as [|[key info] items IH]; [done|].
  rewrite fmap_cons. intros [Hkey Hnd]%NoDup_cons. specialize (IH Hnd).
  destruct (decide (HostCheck.HEARTBEAT_TIMEOUT cfg * 1000000
                    < now - HostCheck.last_heartbeat info)%Z) as [Hlt|Hge].
  - rewrite filter_cons_True by done. rewrite fmap_cons. apply NoDup_cons.
    split; [|done]. intros Hin. apply Hkey.
    apply list_elem_of_fmap in Hin as (entry & -> & [_ Hin]%list_elem_of_filter).
    apply list_elem_of_fmap. by exists entry.
  - by rewrite filter_cons_False.
Qed.

(** The second loop over distinct ids that are all in [active_agents]. *)
Lemma mark_offline_spec dead s :
  NoDup dead →
  (∀ agent_id, agent_id ∈ dead → is_Some (HostCheck.active_agents s !! agent_id)) →
  (∀ agent_id info, agent_id ∈ dead →
     HostCheck.active_agents s !! agent_id = Some info →
     HostCheck.active_agents (HostCheck.mark_offline dead s) !! agent_id = None ∧
     HostCheck.kv (HostCheck.redis_client (HostCheck.mark_offline dead s))
       !! ("agent:" +:+ agent_id) = Some (HostCheck.set_status "offline" info) ∧
     agent_id ∉ HostCheck.redis_smembers "active_agents"
                  (HostCheck.redis_client (HostCheck.mark_offline dead s))) ∧
  (∀ agent_id, agent_id ∉ dead →
     HostCheck.active_agents (HostCheck.mark_offline dead s) !! agent_id
     = HostCheck.active_agents s !! agent_id ∧
     HostCheck.kv (HostCheck.redis_client (HostCheck.mark_offline dead s))
       !! ("agent:" +:+ agent_id)
     = HostCheck.kv (HostCheck.redis_client s) !! ("agent:" +:+ agent_id) ∧
     (agent_id ∈ HostCheck.redis_smembers "active_agents"
                   (HostCheck.redis_client (HostCheck.mark_offline dead s))
      ↔ agent_id ∈ HostCheck.redis_smembers "active_agents" (HostCheck.redis_client s))).
Proof.
  revert s. induction dead as [|first dead IH]; intros s Hnd Hin.
  - split; [intros a info Ha; by apply elem_of_nil in Ha|]. by intros a _.
  - apply NoDup_cons in Hnd as [Hfirst Hnd].
    destruct (Hin first) as [info0 Hinfo0]; [apply list_elem_of_here|].
    cbn [HostCheck.mark_offline]. rewrite Hinfo0.
    set (s1 := {| HostCheck.active_agents := delete first (HostCheck.active_agents s);
                  HostCheck.redis_client := _ |}).
    assert (Hother : ∀ a, a ≠ first →
              HostCheck.active_agents s1 !! a = HostCheck.active_agents s !! a ∧
              HostCheck.kv (HostCheck.redis_client s1) !! ("agent:" +:+ a)
              = HostCheck.kv (HostCheck.redis_client s) !! ("agent:" +:+ a) ∧
              (a ∈ HostCheck.redis_smembers "active_agents" (HostCheck.redis_client s1)
               ↔ a ∈ HostCheck.redis_smembers "active_agents" (HostCheck.redis_client s))).
    { intros a Hne. unfold s1. cbn. split_and!.
      - by rewrite lookup_delete_ne.
      - rewrite lookup_insert_ne; [done|]. by intros ?%agent_key_inj.
      - unfold HostCheck.redis_smembers at 1. cbn. rewrite lookup_insert_eq. cbn.
        rewrite elem_of_difference, elem_of_singleton.
        split; [by intros [? _]|by intros ?; split]. }
    assert (Hfirst1 : HostCheck.active_agents s1 !! first = None ∧
              HostCheck.kv (HostCheck.redis_client s1) !! ("agent:" +:+ first)
              = Some (HostCheck.set_status "offline" info0) ∧
              first ∉ HostCheck.redis_smembers "active_agents" (HostCheck.redis_client s1)).
    { unfold s1. cbn. split_and!.
      - apply lookup_delete_eq.
      - apply lookup_insert_eq.
      - unfold HostCheck.redis_smembers at 1. cbn. rewrite lookup_insert_eq. cbn.
        rewrite elem_of_difference, elem_of_singleton. by intros [_ ?]. }
    destruct (IH s1 Hnd) as [IHdead IHlive].
    { intros a Ha. destruct (Hother a) as [-> _]; [by intros ->|].
      apply Hin. by apply list_elem_of_further. }
    split.
    + intros a info Ha Hinfo. apply elem_of_cons in Ha as [->|Ha].
      * rewrite Hinfo0 in Hinfo. injection Hinfo as <-.
        destruct (IHlive first Hfirst) as (-> & -> & Hset). rewrite Hset. done.
      * apply IHdead; [done|]. destruct (Hother a) as [-> _]; [by intros ->|done].
    + intros a Ha. apply not_elem_of_cons in Ha as [Hne Ha].
      destruct (IHlive a Ha) as (-> & -> & ->). by apply Hother.
Qed.

(** One sweep with a timeout that [timedelta] can hold: the agents of
    [active_agents] whose heartbeat is too old go offline, the others are
    left alone. *)
Lemma cleanup_dead_agents_spec cfg (now : Z) s :
  (-86399999913600 ≤ HostCheck.HEARTBEAT_TIMEOUT cfg ≤ 86399999999999)%Z →
  (∀ agent_id info,
     HostCheck.active_agents s !! agent_id = Some info →
     (HostCheck.HEARTBEAT_TIMEOUT cfg * 1000000
      < now - HostCheck.last_heartbeat info)%Z →
     HostCheck.active_agents (HostCheck.cleanup_dead_agents cfg now s) !! agent_id = None ∧
     HostCheck.kv (HostCheck.redis_client (HostCheck.cleanup_dead_agents cfg now s))
       !! ("agent:" +:+ agent_id) = Some (HostCheck.set_status "offline" info) ∧
     agent_id ∉ HostCheck.redis_smembers "active_agents"
                  (HostCheck.redis_client (HostCheck.cleanup_dead_agents cfg now s))) ∧
  (∀ agent_id,
     (∀ info, HostCheck.active_agents s !! agent_id = Some info →
        (now - HostCheck.last_heartbeat info
         ≤ HostCheck.HEARTBEAT_TIMEOUT cfg * 1000000)%Z) →
     HostCheck.active_agents (HostCheck.cleanup_dead_agents cfg now s) !! agent_id
     = HostCheck.active_agents s !! agent_id ∧
     HostCheck.kv (HostCheck.redis_client (HostCheck.cleanup_dead_agents cfg now s))
       !! ("agent:" +:+ agent_id)
     = HostCheck.kv (HostCheck.redis_client s) !! ("agent:" +:+ agent_id) ∧
     (agent_id ∈ HostCheck.redis_smembers "active_agents"
                   (HostCheck.redis_client (HostCheck.cleanup_dead_agents cfg now s))
      ↔ agent_id ∈ HostCheck.redis_smembers "active_agents" (HostCheck.redis_client s))).
Proof.
  intros Hrange. unfold HostCheck.cleanup_dead_agents.
  rewrite collect_dead_in_range, app_nil_l by done.
  set (dead := (filter _ (map_to_list (HostCheck.active_agents s))).*1).
  assert (Hdead : ∀ a, a ∈ dead ↔ ∃ info, HostCheck.active_agents s !! a = Some info ∧
                         (HostCheck.HEARTBEAT_TIMEOUT cfg * 1000000
                          < now - HostCheck.last_heartbeat info)%Z).
  { intros a. unfold dead. rewrite collect_dead_elem.
    split; intros (info & Hin & Hlt); exists info.
    - by rewrite <- elem_of_map_to_list.
    - by rewrite elem_of_map_to_list. }
  destruct (mark_offline_spec dead s) as [Hoff Hlive].
  { apply collect_dead_NoDup, NoDup_fst_map_to_list. }
  { intros a (info & Hin & _)%Hdead. by exists info. }
  split.
  - intros a info Ha Hlt. apply Hoff; [|done]. apply Hdead. eauto.
  - intros a Hfresh. apply Hlive.
    intros (info & Ha & Hlt)%Hdead. specialize (Hfresh _ Ha). lia.
Qed.

(** One sweep with a timeout that [timedelta] cannot hold: the first test
    raises, the [except] clause ends the cycle and nothing is written. *)
Lemma cleanup_dead_agents_overflow cfg (now : Z) s :
  (HostCheck.HEARTBEAT_TIMEOUT cfg < -86399999913600
   ∨ 86399999999999 < HostCheck.HEARTBEAT_TIMEOUT cfg)%Z →
  HostCheck.cleanup_dead_agents cfg now s = s.
Proof.
  intros Hrange. unfold HostCheck.cleanup_dead_agents.
  rewrite collect_dead_overflow by done.
  by destruct (map_to_list (HostCheck.active_agents s)).
Qed.

(** C7, as stated, fails.  The worker is registered with the host-check
    service and its last heartbeat is 301 seconds old when the sweep runs
    with the default timeout of 300 seconds: the sweep marks it offline in
    the registry of that service and takes it out of the in-memory index.
    The poll that follows is served by the agent server from its own
    [agents_db], which the sweep does not write: the agent server has no
    agent under the id of the worker and answers 401, not the status
    ["offline"]. *)
Lemma poll_after_sweep_is_not_offline :
  HostCheck.active_agents Scenario.registered !! Scenario.worker_id
  = Some {| HostCheck.id := Scenario.worker_id;
            HostCheck.name := "RU-agent-1";
            HostCheck.location := "RU";
            HostCheck.capabilities :=
              ["http"; "https"; "ping"; "tcp"; "dns"; "traceroute"];
            HostCheck.token := Scenario.worker_token;
            HostCheck.status := "online";
            HostCheck.last_heartbeat := 1700000000000000;
            HostCheck.active_tasks := 0;
            HostCheck.total_tasks := 0;
            HostCheck.created_at := 1700000000000002 |} ∧
  (HostCheck.HEARTBEAT_TIMEOUT HostCheck.default_config * 1000000
   < Scenario.sweep_time - 1700000000000000)%Z ∧
  HostCheck.active_agents
    (Deployment.host_check
       (Deployment.sweep HostCheck.default_config Scenario.sweep_time
          Scenario.deployment))
    !! Scenario.worker_id = None ∧
  HostCheck.status
    <$> HostCheck.kv
          (HostCheck.redis_client
             (Deployment.host_check
                (Deployment.sweep HostCheck.default_config Scenario.sweep_time
                   Scenario.deployment)))
        !! ("agent:" +:+ Scenario.worker_id) = Some "offline" ∧
  Deployment.poll Scenario.worker_id Scenario.worker_token Scenario.sweep_time
    (Deployment.sweep HostCheck.default_config Scenario.sweep_time Scenario.deployment)
  = (inl (HTTPException 401 "Invalid agent credentials"),
     Deployment.sweep HostCheck.default_config Scenario.sweep_time Scenario.deployment).
Proof. vm_compute. repeat split. Qed.

(** C7, amended.  Let [HEARTBEAT_TIMEOUT] be a number of seconds that
    [timedelta] can hold.  A sweep of the host-check service at time [now]
    takes every agent of its in-memory index [active_agents] whose
    [last_heartbeat] is more than [HEARTBEAT_TIMEOUT] seconds old: it writes
    the agent with status ["offline"] under [agent:<id>], removes the id
    from the Redis set [active_agents] and from the in-memory index.  The
    sweep leaves the stores of the agent server as they are.  There, a poll
    by an agent with a valid credential whose status in [agents_db] is not
    ["online"] returns the status ["offline"] and changes nothing: such an
    agent is never assigned work. *)
Theorem sweep_marks_stale_agents_offline cfg (now : Z) (d : Deployment.state)
    (agent_id : string) info :
  (-86399999913600 ≤ HostCheck.HEARTBEAT_TIMEOUT cfg ≤ 86399999999999)%Z →
  HostCheck.active_agents (Deployment.host_check d) !! agent_id = Some info →
  (HostCheck.HEARTBEAT_TIMEOUT cfg * 1000000
   < now - HostCheck.last_heartbeat info)%Z →
  HostCheck.active_agents (Deployment.host_check (Deployment.sweep cfg now d))
    !! agent_id = None ∧
  HostCheck.kv (HostCheck.redis_client (Deployment.host_check (Deployment.sweep cfg now d)))
    !! ("agent:" +:+ agent_id)
  = Some (HostCheck.mk_agent_info
            (HostCheck.id info) (HostCheck.name info) (HostCheck.location info)
            (HostCheck.capabilities info) (HostCheck.token info) "offline"
            (HostCheck.last_heartbeat info) (HostCheck.active_tasks info)
            (HostCheck.total_tasks info) (HostCheck.created_at info)) ∧
  (agent_id ∉ HostCheck.redis_smembers "active_agents"
                (HostCheck.redis_client
                   (Deployment.host_check (Deployment.sweep cfg now d)))) ∧
  Deployment.hub (Deployment.sweep cfg now d) = Deployment.hub d ∧
  (∀ d0 (a tok : string) (now' : Z) agent,
     AgentServer.agents_db (Deployment.hub d0) !! a = Some agent →
     Agent.token agent = tok →
     Agent.status agent ≠ "online" →
     Deployment.poll a tok now' d0 = (inr (AgentServer.InBand "offline"), d0)).
Proof.
  intros Hrange Hinfo Hstale.
  destruct (cleanup_dead_agents_spec cfg now (Deployment.host_check d) Hrange)
    as [Hoff _].
  destruct (Hoff agent_id info Hinfo Hstale) as (H1 & H2 & H3).
  split_and!; [done..|].
  intros d0 a tok now' agent Hagent Htok Hst.
  unfold Deployment.poll, AgentServer.get_pending_task, AgentServer.verify_agent,
    AgentServer.get_agent.
  rewrite Hagent, (bool_decide_eq_true_2 _ Htok), (bool_decide_eq_false_2 _ Hst).
  cbn [negb]. by destruct d0.
Qed.

Lemma sweep_marks_stale_agents_offline_witness :
  HostCheck.active_agents
    (Deployment.host_check
       (Deployment.sweep HostCheck.default_config Scenario.sweep_time Scenario.deployment))
    !! Scenario.worker_id = None.
Proof.
  eapply (sweep_marks_stale_agents_offline HostCheck.default_config Scenario.sweep_time
            Scenario.deployment Scenario.worker_id).
  - vm_compute. split; discriminate.
  - vm_compute. reflexivity.
  - vm_compute. reflexivity.
Defined.

End Liveness.

(** ** Credentials *)

Section Credentials.

Import AgentServer AgentServerViews.

Implicit Types (s : state) (req : request).

Lemma verify_agent_false s (agent_id tok : string) :
  verify_agent agent_id tok s = false
  ↔ agents_db s !! agent_id = None
    ∨ ∃ agent, agents_db s !! agent_id = Some agent ∧ Agent.token agent ≠ tok.
Proof.
  unfold verify_agent. destruct (agents_db s !! agent_id) as [agent|].
  - rewrite bool_decide_eq_false. split.
    + intros Hne. right. by exists agent.
    + intros [?|(? & [= <-] & ?)]; done.
  - split; [by left|done].
Qed.

(** X1.  A request with a wrong credential is answered 401 and leaves the three
    stores as they are: a poll, a submission and a heartbeat with an unknown
    agent id or a token that is not the token of the agent, and an
    assignment, an agent creation, a stop, a listing and a result query with
    a token that is not the token of the server. *)
Theorem rejected_requests_change_nothing s :
  (∀ req, authorized req s = false → handle req s = s) ∧
  (∀ (a tok : string) (now : Z),
     agents_db s !! a = None
     ∨ (∃ agent, agents_db s !! a = Some agent ∧ Agent.token agent ≠ tok) →
     get_pending_task a tok now s
       = (inl (HTTPException 401 "Invalid agent credentials"), s) ∧
     agent_heartbeat a tok now s
       = (inl (HTTPException 401 "Invalid agent credentials"), s) ∧
     ∀ task_id result,
       submit_result task_id a tok result s
       = (inl (HTTPException 401 "Invalid agent credentials"), s)) ∧
  (∀ tok : string,
     tok ≠ token CONFIG →
     (∀ td, assign_task td tok s = (inl (HTTPException 401 "Invalid server token"), s)) ∧
     (∀ name caps d,
        create_agent_endpoint name tok caps d s
        = (inl (HTTPException 401 "Invalid server token"), s)) ∧
     (∀ a, stop_agent_endpoint a tok s
           = (inl (HTTPException 401 "Invalid server token"), s)) ∧
     list_agents tok s = inl (HTTPException 401 "Invalid server token") ∧
     (∀ task_id, get_task_result task_id tok s
                 = inl (HTTPException 401 "Invalid server token"))).
Proof.
  split_and!.
  - intros [name tok caps d|td tok|a tok|a tok now|tid a tok res|a tok now|a now] Hno;
      cbn [authorized handle] in *.
    + unfold create_agent_endpoint. by rewrite Hno.
    + unfold assign_task. by rewrite Hno.
    + unfold stop_agent_endpoint. by rewrite Hno.
    + unfold get_pending_task. by rewrite Hno.
    + unfold submit_result. by rewrite Hno.
    + unfold agent_heartbeat. by rewrite Hno.
    + done.
  - intros a tok now Hno%verify_agent_false.
    unfold get_pending_task, agent_heartbeat, submit_result. by rewrite Hno.
  - intros tok Hno.
    assert (verify_server_token tok = false) as Hv
      by (by apply bool_decide_eq_false_2).
    unfold assign_task, create_agent_endpoint, stop_agent_endpoint, list_agents,
      get_task_result. by rewrite Hv.
Qed.

Lemma rejected_requests_change_nothing_witness :
  get_pending_task Scenario.agent_id "guess" 1700000005000000 Scenario.queued
  = (inl (HTTPException 401 "Invalid agent credentials"), Scenario.queued).
Proof.
  destruct (rejected_requests_change_nothing Scenario.queued) as (_ & Hagent & _).
  apply (Hagent Scenario.agent_id "guess" 1700000005000000%Z).
  right. exists Scenario.agent. split; [vm_compute; reflexivity|discriminate].
Defined.

End Credentials.

(** ** The agents of the server *)

Section Agents.

Import AgentServer AgentServerViews.

Implicit Types (s : state) (req : request) (agent : Agent.t).

Lemma startswith_app (p rest : string) : Py.startswith (p +:+ rest) p = true.
Proof.
  unfold Py.startswith. induction p as [|c p IH]; [by destruct rest|].
  change (String c p +:+ rest) with (String c (p +:+ rest)). cbn [String.prefix].
  by destruct (Ascii.ascii_dec c c).
Qed.

Lemma created_here_insert s (key : string) agent queue results :
  created_here s →
  Agent.id agent = key →
  Py.startswith key ("agent-" +:+ country CONFIG +:+ "-") = true →
  Agent.country agent = country CONFIG →
  Agent.max_tasks agent = 5%Z →
  created_here {| agents_db := <[key := agent]> (agents_db s);
                  tasks_queue := queue;
                  task_results := results |}.
Proof.
  intros Hs H1 H2 H3 H4 k a. cbn [agents_db]. rewrite lookup_insert_Some.
  intros [[<- <-]|[_ Hk]]; [done|]. by apply Hs.
Qed.

(** Writing back an agent with the same id, country and capacity. *)
Lemma created_here_update s (key : string) old agent queue results :
  created_here s →
  agents_db s !! key = Some old →
  Agent.id agent = Agent.id old →
  Agent.country agent = Agent.country old →
  Agent.max_tasks agent = Agent.max_tasks old →
  created_here {| agents_db := <[key := agent]> (agents_db s);
                  tasks_queue := queue;
                  task_results := results |}.
Proof.
  intros Hs Hold H1 H2 H3. destruct (Hs key old Hold) as (Hid & Hpre & Hc & Hm).
  apply created_here_insert; [done|congruence..].
Qed.

Lemma handle_created_here req s : created_here s → created_here (handle req s).
Proof.
  intros Hs. destruct req as [name tok caps d|td tok|a tok|a tok now|tid a tok res
                             |a tok now|a now]; cbn [handle].
  - unfold create_agent_endpoint. destruct (verify_server_token tok); [|done].
    cbn [negb]. unfold create_agent. cbn [snd].
    apply created_here_insert; try done.
    apply (startswith_app "agent-ru-" (token_hex4 d)).
  - unfold assign_task. by destruct (verify_server_token tok).
  - unfold stop_agent_endpoint, stop_agent. destruct (verify_server_token tok); [|done].
    cbn [negb]. destruct (agents_db s !! a) as [agent|] eqn:Hagent; [|done].
    by eapply created_here_update.
  - destruct (get_pending_task_inv a tok now s)
      as [[-> _]|(agent & pos & task & Hagent & _ & _ & ->)]; [done|].
    cbn [snd]. by eapply created_here_update.
  - unfold submit_result. destruct (verify_agent a tok s); [|done]. cbn [negb snd].
    unfold get_agent. destruct (agents_db s !! a) as [agent|] eqn:Hagent; [|done].
    by eapply created_here_update.
  - unfold agent_heartbeat. destruct (verify_agent a tok s); [|done]. cbn [negb].
    unfold get_agent. destruct (agents_db s !! a) as [agent|] eqn:Hagent; [|done].
    by eapply created_here_update.
  - unfold worker_heartbeat. destruct (agents_db s !! a) as [agent|] eqn:Hagent; [|done].
    by eapply created_here_update.
Qed.

Lemma run_created_here reqs s : created_here s → created_here (run reqs s).
Proof.
  revert s. induction reqs as [|req reqs IH]; intros s Hs; [done|].
  by apply IH, handle_created_here.
Qed.

(** X2.  In every state that the agent server reaches from its start, each
    agent is stored under its own id, the id starts with ["agent-ru-"], in
    particular it is not the empty string, the country is ["ru"] and the
    capacity is 5, so the load of an agent is never above 5. *)
Theorem agents_are_keyed_by_their_id reqs (key : string) agent :
  agents_db (run reqs initial) !! key = Some agent →
  Agent.id agent = key ∧
  Py.startswith key "agent-ru-" = true ∧
  key ≠ "" ∧
  Agent.country agent = "ru" ∧
  Agent.max_tasks agent = 5%Z ∧
  (0 ≤ Agent.current_tasks agent ≤ 5)%Z.
Proof.
  intros Hagent.
  pose proof (run_created_here reqs) as Hall.
  assert (Hinit : created_here initial).
  { intros k a Hk. cbn [initial agents_db] in Hk. by rewrite lookup_empty in Hk. }
  destruct (Hall initial Hinit key agent Hagent) as (Hid & Hpre & Hc & Hm).
  refine (conj Hid (conj Hpre (conj _ (conj Hc (conj Hm _))))).
  - intros ->. by vm_compute in Hpre.
  - rewrite <- Hm. apply (run_bounded reqs initial) with key; [|done].
    intros k a Hk. cbn [initial agents_db] in Hk. by rewrite lookup_empty in Hk.
Qed.

Lemma agents_are_keyed_by_their_id_witness :
  Py.startswith Scenario.agent_id "agent-ru-" = true ∧ Scenario.agent_id ≠ "".
Proof.
  destruct (agents_are_keyed_by_their_id Scenario.history Scenario.agent_id
              (Agent.set_current_tasks 0
                 (Agent.set_last_heartbeat 1700000010000000 Scenario.agent)))
    as (_ & H1 & H2 & _).
  - vm_compute. reflexivity.
  - exact (conj H1 H2).
Defined.

End Agents.

(** ** Stopping, reviving and the worker *)

Section Stopping.

Import AgentServer AgentServerViews.

Implicit Types (s : state) (req : request) (agent : Agent.t) (task : Task.t).

Lemma stop_known_agent s (agent_id : string) agent :
  agents_db s !! agent_id = Some agent →
  ∃ s', stop_agent_endpoint agent_id (token CONFIG) s = (inr "success", s') ∧
    agents_db s' !! agent_id = Some (Agent.set_status "stopped" agent) ∧
    tasks_queue s' = tasks_queue s ∧
    load agent_id s' = load agent_id s.
Proof.
  intros Hagent.
  assert (verify_server_token (token CONFIG) = true) as Hv
    by (by apply bool_decide_eq_true_2).
  unfold stop_agent_endpoint, stop_agent. rewrite Hv, Hagent. cbn [negb].
  eexists. split; [reflexivity|]. cbn [agents_db tasks_queue]. unfold load.
  cbn [agents_db]. by rewrite !lookup_insert_eq, Hagent.
Qed.

Lemma keep_stopped (key agent_id : string) (new agent : Agent.t)
    (db : gmap string Agent.t) :
  db !! agent_id = Some agent →
  (key = agent_id →
   Agent.status new = Agent.status agent ∧ Agent.token new = Agent.token agent) →
  ∃ agent', <[key := new]> db !! agent_id = Some agent' ∧
    Agent.status agent' = Agent.status agent ∧
    Agent.token agent' = Agent.token agent.
Proof.
  intros Hagent Hsame. destruct (decide (key = agent_id)) as [->|Hne].
  - exists new. rewrite lookup_insert_eq. split; [done|]. by apply Hsame.
  - exists agent. by rewrite lookup_insert_ne.
Qed.

(** A request other than a heartbeat under the id of an agent or the
    creation of an agent under that id leaves the status and the token of
    the agent as they are, when the status is ["stopped"]. *)
Lemma handle_stopped req s (agent_id : string) agent :
  agents_db s !! agent_id = Some agent →
  Agent.status agent = "stopped" →
  ¬ revives agent_id req →
  ∃ agent', agents_db (handle req s) !! agent_id = Some agent' ∧
    Agent.status agent' = Agent.status agent ∧
    Agent.token agent' = Agent.token agent.
Proof.
  intros Hagent Hstopped Hreq.
  destruct req as [name tok caps d|td tok|a tok|a tok now|tid a tok res
                  |a tok now|a now]; cbn [handle].
  - unfold create_agent_endpoint. destruct (verify_server_token tok); cbn [negb]; [|eauto].
    unfold create_agent. cbn [snd agents_db]. exists agent.
    by rewrite lookup_insert_ne.
  - unfold assign_task. destruct (verify_server_token tok); cbn [negb]; eauto.
  - unfold stop_agent_endpoint, stop_agent.
    destruct (verify_server_token tok); cbn [negb]; [|eauto].
    destruct (agents_db s !! a) as [old|] eqn:Hold; cbn [snd]; [|eauto].
    apply keep_stopped; [done|]. intros ->. rewrite Hagent in Hold.
    injection Hold as <-. by rewrite Hstopped.
  - destruct (get_pending_task_inv a tok now s)
      as [[-> _]|(old & pos & task & Hold & _ & _ & ->)]; [eauto|].
    cbn [snd assigned_state agents_db].
    apply keep_stopped; [done|]. intros ->. rewrite Hagent in Hold.
    by injection Hold as <-.
  - unfold submit_result. destruct (verify_agent a tok s); cbn [negb snd]; [|eauto].
    unfold get_agent. destruct (agents_db s !! a) as [old|] eqn:Hold; [|eauto].
    cbn [agents_db]. apply keep_stopped; [done|]. intros ->. rewrite Hagent in Hold.
    by injection Hold as <-.
  - unfold agent_heartbeat. destruct (verify_agent a tok s); cbn [negb snd]; [|eauto].
    unfold get_agent. destruct (agents_db s !! a) as [old|] eqn:Hold; cbn [snd]; [|eauto].
    cbn [agents_db]. exists agent. rewrite lookup_insert_ne; [done|].
    intros ->. by apply Hreq.
  - unfold worker_heartbeat. destruct (agents_db s !! a) as [old|] eqn:Hold; [|eauto].
    apply keep_stopped; [done|]. intros ->. rewrite Hagent in Hold.
    by injection Hold as <-.
Qed.

Lemma run_stopped reqs s (agent_id : string) agent :
  agents_db s !! agent_id = Some agent →
  Agent.status agent = "stopped" →
  Forall (λ req, ¬ revives agent_id req) reqs →
  ∃ agent', agents_db (run reqs s) !! agent_id = Some agent' ∧
    Agent.status agent' = "stopped" ∧
    Agent.token agent' = Agent.token agent.
Proof.
  intros Hagent Hstopped Hreqs. revert s agent Hagent Hstopped.
  induction Hreqs as [|req reqs Hreq _ IH]; intros s agent Hagent Hstopped; [eauto|].
  destruct (handle_stopped req s agent_id agent Hagent Hstopped Hreq)
    as (mid & Hmid & Hst & Htok).
  destruct (IH (handle req s) mid Hmid) as (agent' & Hagent' & Hst' & Htok');
    [congruence|].
  exists agent'. split; [done|]. split; [done|]. congruence.
Qed.

(** X3.  A stop with the token of the server: an agent that is not in
    [agents_db] gives 404 and no change.  An agent that is there gets the
    status ["stopped"], its other fields as they were; the queue is left as
    it is (what the agent holds stays assigned to it).  From then on, and
    after any further requests among which there is no heartbeat under the
    id of the agent and no creation of an agent under that id, a poll with
    the token of the agent is answered ["offline"] and changes nothing. *)
Theorem stopped_agent_gets_no_work s (agent_id : string) :
  (agents_db s !! agent_id = None →
   stop_agent_endpoint agent_id (token CONFIG) s
   = (inl (HTTPException 404 "Agent not found"), s)) ∧
  (∀ agent, agents_db s !! agent_id = Some agent →
     ∃ s', stop_agent_endpoint agent_id (token CONFIG) s = (inr "success", s') ∧
       agents_db s' !! agent_id
       = Some {| Agent.id := Agent.id agent;
                 Agent.name := Agent.name agent;
                 Agent.country := Agent.country agent;
                 Agent.token := Agent.token agent;
                 Agent.capabilities := Agent.capabilities agent;
                 Agent.status := "stopped";
                 Agent.current_tasks := Agent.current_tasks agent;
                 Agent.max_tasks := Agent.max_tasks agent;
                 Agent.created_at := Agent.created_at agent;
                 Agent.last_heartbeat := Agent.last_heartbeat agent |} ∧
       tasks_queue s' = tasks_queue s ∧
       load agent_id s' = load agent_id s ∧
       ∀ reqs (now : Z),
         Forall (λ req, ¬ revives agent_id req) reqs →
         get_pending_task agent_id (Agent.token agent) now (run reqs s')
         = (inr (InBand "offline"), run reqs s')).
Proof.
  split.
  - assert (verify_server_token (token CONFIG) = true) as Hv
      by (by apply bool_decide_eq_true_2).
    unfold stop_agent_endpoint, stop_agent. rewrite Hv. cbn [negb]. by intros ->.
  - intros agent Hagent.
    destruct (stop_known_agent s agent_id agent Hagent) as (s' & Hstop & Hdb & Hq & Hload).
    exists s'. split_and!; [done..|].
    intros reqs now Hreqs.
    destruct (run_stopped reqs s' agent_id _ Hdb eq_refl Hreqs)
      as (agent' & Hagent' & Hst & Htok).
    unfold get_pending_task, verify_agent, get_agent. rewrite Hagent'.
    cbn [Agent.token Agent.set_status] in Htok.
    rewrite (bool_decide_eq_true_2 _ Htok). cbn [negb].
    rewrite bool_decide_eq_false_2; [done|]. by rewrite Hst.
Qed.

Lemma stopped_agent_gets_no_work_witness :
  get_pending_task Scenario.agent_id Scenario.agent_token 1700000011000000
    (run [AssignTask Scenario.http_task Scenario.server_token;
          WorkerHeartbeat Scenario.agent_id 1700000010000000]
       (snd (stop_agent_endpoint Scenario.agent_id (token CONFIG) Scenario.queued)))
  = (inr (InBand "offline"),
     run [AssignTask Scenario.http_task Scenario.server_token;
          WorkerHeartbeat Scenario.agent_id 1700000010000000]
       (snd (stop_agent_endpoint Scenario.agent_id (token CONFIG) Scenario.queued))).
Proof.
  destruct (proj2 (stopped_agent_gets_no_work Scenario.queued Scenario.agent_id)
              Scenario.agent) as (s' & Hstop & _ & _ & _ & Hpoll).
  - vm_compute. reflexivity.
  - rewrite Hstop. cbn [snd]. apply Hpoll.
    repeat constructor; cbn [revives]; tauto.
Defined.

(** X4.  A heartbeat with the token of the agent sets the status to ["online"]
    whatever it was: a stopped agent that sends one is online again, and
    its next poll is no longer answered ["offline"]. *)
Theorem heartbeat_revives_a_stopped_agent s (agent_id : string) agent (t1 t2 : Z) :
  agents_db s !! agent_id = Some agent →
  ∃ s1 s2 agent2,
    stop_agent_endpoint agent_id (token CONFIG) s = (inr "success", s1) ∧
    agent_heartbeat agent_id (Agent.token agent) t1 s1 = (inr "success", s2) ∧
    agents_db s2 !! agent_id = Some agent2 ∧
    Agent.status agent2 = "online" ∧
    Agent.last_heartbeat agent2 = t1 ∧
    Agent.current_tasks agent2 = Agent.current_tasks agent ∧
    fst (get_pending_task agent_id (Agent.token agent) t2 s2) ≠ inr (InBand "offline").
Proof.
  intros Hagent.
  destruct (stop_known_agent s agent_id agent Hagent) as (s1 & Hstop & Hagent1 & _).
  exists s1. do 2 eexists. split; [done|].
  unfold agent_heartbeat, verify_agent, get_agent. rewrite Hagent1.
  cbn [Agent.token Agent.set_status]. rewrite bool_decide_eq_true_2 by done.
  cbn [negb]. split; [reflexivity|]. cbn [agents_db].
  split; [apply lookup_insert_eq|]. split_and!; [done..|].
  unfold get_pending_task, verify_agent, get_agent. cbn [agents_db].
  rewrite lookup_insert_eq.
  cbn [Agent.token Agent.status Agent.set_last_heartbeat Agent.set_status].
  rewrite !bool_decide_eq_true_2 by done. cbn [negb].
  destruct (Z.leb _ _); [done|].
  destruct (get_pending_task_for_agent _ _) as [pos|]; [|done].
  by destruct (_ !! pos).
Qed.

Lemma heartbeat_revives_a_stopped_agent_witness :
  ∃ s1 s2,
    stop_agent_endpoint Scenario.agent_id Scenario.server_token Scenario.queued
    = (inr "success", s1) ∧
    agent_heartbeat Scenario.agent_id Scenario.agent_token 1700000020000000 s1
    = (inr "success", s2).
Proof.
  destruct (heartbeat_revives_a_stopped_agent Scenario.queued Scenario.agent_id
              Scenario.agent 1700000020000000 1700000025000000)
    as (s1 & s2 & _ & H1 & H2 & _).
  - vm_compute. reflexivity.
  - exists s1, s2. exact (conj H1 H2).
Defined.

Lemma worker_heartbeat_load (a b : string) (now : Z) s :
  load a (worker_heartbeat b now s) = load a s.
Proof.
  unfold worker_heartbeat, load.
  destruct (agents_db s !! b) as [agent|] eqn:Hb; [|done]. cbn [agents_db].
  destruct (decide (b = a)) as [->|Hne].
  - by rewrite lookup_insert_eq, Hb.
  - by rewrite lookup_insert_ne.
Qed.

Lemma worker_heartbeat_rest (b : string) (now : Z) s :
  tasks_queue (worker_heartbeat b now s) = tasks_queue s ∧
  task_results (worker_heartbeat b now s) = task_results s.
Proof. unfold worker_heartbeat. by destruct (agents_db s !! b). Qed.

(** Writing a status under an id that is in the queue leaves a task with
    that id and that status in the queue. *)
Lemma update_task_status_written (task_id st : string) a (queue : list Task.t) :
  task_id ∈ (Task.id <$> queue) →
  ∃ task, task ∈ update_task_status task_id st a queue ∧
    Task.id task = task_id ∧ Task.status task = st.
Proof.
  induction queue as [|t queue IH]; [by intros ?%elem_of_nil|].
  cbn [update_task_status]. rewrite fmap_cons. case_bool_decide as Hid.
  - intros _. exists (write_status st a t). split; [apply list_elem_of_here|].
    by rewrite write_status_id, write_status_status.
  - intros [?|Hin]%elem_of_cons; [congruence|].
    destruct (IH Hin) as (task & Htask & H1 & H2).
    exists task. split; [by apply list_elem_of_further|done].
Qed.

(** X5.  One turn of the worker of an agent whose load is not negative leaves
    the load of every agent as it was: what the poll adds, the submission
    takes back.  If the poll of the turn hands out a task, then after the
    turn the queue holds a task with the id of that task and the status
    ["completed"], and the result of [execute_task] on the task as it was
    handed out is stored under that id. *)
Theorem worker_turn_keeps_load s (agent_id agent_token : string) (now_poll now_beat : Z)
    (execute_task : Task.t → json_object) :
  bounded s →
  (∀ other, load other (worker_turn agent_id agent_token now_poll now_beat execute_task s)
            = load other s) ∧
  (∀ agent task,
     agents_db s !! agent_id = Some agent →
     Agent.status agent = "online" →
     fst (get_pending_task agent_id agent_token now_poll s) = inr (Assigned task) →
     task_results (worker_turn agent_id agent_token now_poll now_beat execute_task s)
       !! Task.id task = Some (execute_task task) ∧
     ∃ done_task,
       done_task ∈ tasks_queue
                     (worker_turn agent_id agent_token now_poll now_beat execute_task s) ∧
       Task.id done_task = Task.id task ∧
       Task.status done_task = "completed").
Proof.
  intros Hs. unfold worker_turn.
  destruct (agents_db s !! agent_id) as [agent|] eqn:Hagent; [|by split].
  case_bool_decide as Honline; cbn [negb];
    [|split; [done|]; by intros ? ? [= <-] ?].
  destruct (verify_agent agent_id agent_token s) eqn:Hverify.
  2:{ unfold get_pending_task. rewrite Hverify. cbn [negb]. split.
      - intros other. apply worker_heartbeat_load.
      - intros ? ? _ _ Hpoll. done. }
  apply verify_agent_true in Hverify as (agent' & Hagent' & Htok).
  rewrite Hagent in Hagent'. injection Hagent' as <-.
  destruct (get_pending_task_inv agent_id agent_token now_poll s)
    as [[Hsame Hnone]|(agent'' & pos & found & Hagent'' & Hfind & Hpos & Hpoll)].
  - destruct (get_pending_task agent_id agent_token now_poll s) as [[e|[st|task]] s1];
      cbn [fst snd] in *; subst s1.
    + split; [intros other; apply worker_heartbeat_load|]. by intros ? ? _ _ ?.
    + split; [done|]. by intros ? ? _ _ ?.
    + by destruct (Hnone task).
  - rewrite Hagent in Hagent''. injection Hagent'' as <-. rewrite Hpoll. cbn [fst].
    set (queue1 := update_task_status (Task.id found) "assigned" (Some agent_id)
                     (tasks_queue s)) in *.
    set (handed := default found (queue1 !! pos)).
    set (s1 := assigned_state s agent_id agent now_poll queue1).
    assert (Hhanded : Task.id handed = Task.id found).
    { unfold handed.
      destruct (update_task_status_lookup (Task.id found) "assigned" (Some agent_id)
                  _ _ _ Hpos) as (t' & Ht' & [->|[_ ->]]); fold queue1 in Ht';
        rewrite Ht'; [done|apply write_status_id]. }
    assert (Hsubmit :
      submit_result (Task.id handed) agent_id agent_token (execute_task handed) s1
      = (inr "success",
         {| agents_db :=
              <[agent_id :=
                  Agent.set_current_tasks
                    (Z.max 0 (Agent.current_tasks agent + 1 - 1))
                    (Agent.set_last_heartbeat now_poll
                       (Agent.set_current_tasks (Agent.current_tasks agent + 1) agent))]>
                (agents_db s1);
            tasks_queue := update_task_status (Task.id handed) "completed" None queue1;
            task_results := <[Task.id handed := execute_task handed]> (task_results s) |})).
    { unfold submit_result, verify_agent, get_agent, s1, assigned_state.
      cbn [agents_db tasks_queue task_results]. rewrite lookup_insert_eq.
      cbn [Agent.token Agent.set_last_heartbeat Agent.set_current_tasks].
      by rewrite (bool_decide_eq_true_2 _ Htok). }
    rewrite Hsubmit. cbn [snd]. split.
    + intros other. rewrite worker_heartbeat_load. unfold load, s1, assigned_state.
      cbn [agents_db]. destruct (decide (agent_id = other)) as [<-|Hne].
      * rewrite lookup_insert_eq, Hagent. cbn. f_equal.
        pose proof (Hs _ _ Hagent). lia.
      * by rewrite !lookup_insert_ne.
    + intros agent0 task _ _ [= <-].
      destruct (worker_heartbeat_rest agent_id now_beat
                  {| agents_db :=
                       <[agent_id :=
                           Agent.set_current_tasks
                             (Z.max 0 (Agent.current_tasks agent + 1 - 1))
                             (Agent.set_last_heartbeat now_poll
                                (Agent.set_current_tasks (Agent.current_tasks agent + 1)
                                   agent))]>
                         (agents_db s1);
                     tasks_queue :=
                       update_task_status (Task.id handed) "completed" None queue1;
                     task_results :=
                       <[Task.id handed := execute_task handed]> (task_results s) |})
        as [-> ->].
      cbn [tasks_queue task_results]. split; [apply lookup_insert_eq|].
      apply update_task_status_written. rewrite Hhanded. unfold queue1.
      rewrite update_task_status_ids. apply list_elem_of_fmap.
      exists found. split; [done|]. by eapply list_elem_of_lookup_2.
Qed.

Lemma worker_turn_keeps_load_witness :
  load Scenario.agent_id
    (worker_turn Scenario.agent_id Scenario.agent_token 1700000005000000
       1700000006000000 (λ _, Scenario.outcome) Scenario.queued)
  = load Scenario.agent_id Scenario.queued.
Proof.
  destruct (worker_turn_keeps_load Scenario.queued Scenario.agent_id
              Scenario.agent_token 1700000005000000 1700000006000000
              (λ _, Scenario.outcome)) as [Hload _].
  - apply (run_bounded Scenario.setup initial). intros k a Hk.
    cbn [initial agents_db] in Hk. by rewrite lookup_empty in Hk.
  - apply Hload.
Defined.

End Stopping.

(** ** The queue and its counts *)

Section Counts.

Import AgentServer AgentServerViews.

Implicit Types (s : state) (req : request) (task : Task.t).

Lemma handle_ids_grow req s : ∃ more, queued_ids (handle req s) = queued_ids s ++ more.
Proof.
  unfold queued_ids.
  destruct (handle_queue req s)
    as [->|[(td & tok & -> & Htok & ->)|[(pos & task & a & _ & _ & ->)|(tid & ->)]]].
  - exists []. by rewrite app_nil_r.
  - eexists. by rewrite fmap_app.
  - exists []. by rewrite update_task_status_ids, app_nil_r.
  - exists []. by rewrite update_task_status_ids, app_nil_r.
Qed.

(** X6.  No request takes a task out of the queue or moves it: after any
    sequence of requests the ids that were queued are still there, at the
    same places, and tasks that arrived since follow them.  A completed task
    stays in the queue for good. *)
Theorem queue_only_grows reqs s :
  ∃ more, queued_ids (run reqs s) = queued_ids s ++ more.
Proof.
  revert s. induction reqs as [|req reqs IH]; intros s.
  - exists []. by rewrite app_nil_r.
  - cbn [run]. destruct (IH (handle req s)) as [more2 ->].
    destruct (handle_ids_grow req s) as [more1 ->].
    exists (more1 ++ more2). by rewrite app_assoc.
Qed.

Lemma count_middle (st : string) (pre post : list Task.t) task :
  length (filter (λ t, Task.status t = st) (pre ++ task :: post))
  = (length (filter (λ t, Task.status t = st) pre)
     + (if decide (Task.status task = st) then 1 else 0)
     + length (filter (λ t, Task.status t = st) post))%nat.
Proof.
  rewrite filter_app, filter_cons, length_app.
  destruct (decide (Task.status task = st)); simpl; lia.
Qed.

(** X7.  A poll that hands out a task, on a queue of tasks with distinct ids,
    moves exactly one task from pending to assigned: in the counts of
    [list_agents] the pending tasks are one fewer, the active tasks one
    more, and the count of every other status is as before. *)
Theorem poll_moves_one_task_to_active s (agent_id tok : string) (now : Z) task :
  NoDup (queued_ids s) →
  fst (get_pending_task agent_id tok now s) = inr (Assigned task) →
  count_tasks "pending" s
    = S (count_tasks "pending" (snd (get_pending_task agent_id tok now s))) ∧
  count_tasks "assigned" (snd (get_pending_task agent_id tok now s))
    = S (count_tasks "assigned" s) ∧
  (∀ st : string, st ≠ "pending" → st ≠ "assigned" →
     count_tasks st (snd (get_pending_task agent_id tok now s)) = count_tasks st s) ∧
  length (tasks_queue (snd (get_pending_task agent_id tok now s)))
    = length (tasks_queue s).
Proof.
  intros Hnd Hpoll.
  destruct (get_pending_task_inv agent_id tok now s)
    as [[_ Hno]|(agent & pos & found & _ & Hfind & Hpos & Heq)];
    [by apply Hno in Hpoll|].
  rewrite Heq. cbn [snd assigned_state]. unfold count_tasks. cbn [tasks_queue].
  destruct (find_some_inv _ _ _ Hfind) as (pre & t & post & Hq & Hlen & _ & Hpending & _).
  unfold queued_ids in Hnd. rewrite Hq in *. subst pos.
  rewrite list_lookup_middle in Hpos by done. injection Hpos as ->.
  rewrite update_task_status_middle by done. cbn [tasks_queue assigned_state].
  rewrite !count_middle, write_status_status, Hpending, !length_app. cbn [length].
  split_and!.
  - rewrite !decide_True by done. rewrite decide_False by done. lia.
  - rewrite decide_True by done. rewrite decide_False by done. lia.
  - intros st H1 H2. rewrite !count_middle, write_status_status, Hpending.
    rewrite !decide_False by done. done.
  - done.
Qed.

Lemma poll_moves_one_task_to_active_witness :
  count_tasks "pending" Scenario.queued
  = S (count_tasks "pending"
         (snd (get_pending_task Scenario.agent_id Scenario.agent_token
                 1700000005000000 Scenario.queued))).
Proof.
  destruct (poll_moves_one_task_to_active Scenario.queued Scenario.agent_id
              Scenario.agent_token 1700000005000000 Scenario.http_assigned)
    as (H1 & _).
  - apply (bool_decide_unpack _). vm_compute. exact I.
  - vm_compute. reflexivity.
  - exact H1.
Defined.

(** X8.  [list_agents] with the token of the server: the listing has one entry
    per agent, [online] counts the agents with status ["online"] and
    [offline] all the others, stopped agents included; the two add up to
    [total] and [offline] is not negative. *)
Theorem list_agents_counts s :
  ∃ agents st,
    list_agents (token CONFIG) s = inr (agents, st) ∧
    Z.of_nat (length agents) = total st ∧
    online st
      = Z.of_nat (length (filter (λ agent, Agent.status agent = "online") agents)) ∧
    offline st
      = Z.of_nat (length (filter (λ agent, Agent.status agent ≠ "online") agents)) ∧
    total st = (online st + offline st)%Z ∧
    (0 ≤ offline st)%Z ∧
    (∀ agent, agent ∈ agents ↔ ∃ key, agents_db s !! key = Some agent).
Proof.
  assert (verify_server_token (token CONFIG) = true) as Hv
    by (by apply bool_decide_eq_true_2).
  unfold list_agents. rewrite Hv. cbn [negb]. do 2 eexists. split; [reflexivity|].
  cbn [total online offline]. unfold get_online_agents, get_all_agents.
  set (agents := (map_to_list (agents_db s)).*2).
  assert (Hlen : size (agents_db s) = length agents).
  { unfold agents. by rewrite length_fmap, length_map_to_list. }
  assert (Hsplit : (length (filter (λ agent, Agent.status agent = "online") agents)
                    + length (filter (λ agent, Agent.status agent ≠ "online") agents)
                    = length agents)%nat).
  { rewrite <- length_app. apply Permutation_length, filter_app_complement. }
  rewrite Hlen. split_and!; [done|done|lia|lia|lia|].
  intros agent. unfold agents. rewrite list_elem_of_fmap. split.
  - intros ([key a] & -> & Hin%elem_of_map_to_list). by exists key.
  - intros (key & Hkey). exists (key, agent). split; [done|].
    by apply elem_of_map_to_list.
Qed.

(** X9.  The result that a submission stores is what [get_task_result] serves
    for that id afterwards, unless it is the empty dictionary, for which the
    answer is ["not_found"] as for an id without any result; the answers for
    the other ids are as before. *)
Theorem stored_result_is_served s (task_id agent_id agent_token : string)
    (result : json_object) :
  verify_agent agent_id agent_token s = true →
  get_task_result task_id (token CONFIG)
    (snd (submit_result task_id agent_id agent_token result s))
  = inr (match result with [] => NotFound | _ :: _ => Success result end) ∧
  (∀ other : string, other ≠ task_id →
     get_task_result other (token CONFIG)
       (snd (submit_result task_id agent_id agent_token result s))
     = get_task_result other (token CONFIG) s) ∧
  (task_results s !! task_id = None →
   get_task_result task_id (token CONFIG) s = inr NotFound).
Proof.
  intros Hok.
  assert (verify_server_token (token CONFIG) = true) as Hv
    by (by apply bool_decide_eq_true_2).
  unfold get_task_result, submit_result. rewrite Hv, Hok. cbn [negb snd task_results].
  split_and!.
  - rewrite lookup_insert_eq. by destruct result.
  - intros other Hne. by rewrite lookup_insert_ne.
  - intros Hnone. unfold json_object in *. by rewrite Hnone.
Qed.

Lemma stored_result_is_served_witness :
  get_task_result Scenario.http_id Scenario.server_token Scenario.submitted_once
  = inr (Success Scenario.outcome).
Proof.
  apply (stored_result_is_served Scenario.two_assigned Scenario.http_id
           Scenario.agent_id Scenario.agent_token Scenario.outcome).
  vm_compute. reflexivity.
Defined.

End Counts.

(** ** The relay of a fan-out *)

Section RelayedTasks.

Import AgentServer.

Implicit Types (s : state) (tds : list Task.t).

Lemma run_app (reqs1 reqs2 : list request) s :
  run (reqs1 ++ reqs2) s = run reqs2 (run reqs1 s).
Proof. revert s. induction reqs1 as [|req reqs1 IH]; intros s; [done|apply IH]. Qed.

Lemma server_token_ok : verify_server_token (token CONFIG) = true.
Proof. by apply bool_decide_eq_true_2. Qed.

Lemma run_assign tds s :
  agents_db (run ((λ td, AssignTask td (token CONFIG)) <$> tds) s) = agents_db s ∧
  tasks_queue (run ((λ td, AssignTask td (token CONFIG)) <$> tds) s)
  = tasks_queue s ++ (Relay.queued_form <$> tds) ∧
  task_results (run ((λ td, AssignTask td (token CONFIG)) <$> tds) s) = task_results s.
Proof.
  revert s. induction tds as [|td tds IH]; intros s.
  - by rewrite app_nil_r.
  - rewrite fmap_cons. cbn [run handle]. destruct (IH (snd (assign_task td (token CONFIG) s)))
      as (-> & -> & ->).
    unfold assign_task. rewrite server_token_ok.
    cbn [negb snd add_task agents_db tasks_queue task_results].
    by rewrite fmap_cons, <- app_assoc.
Qed.

Lemma fresh_run_assign tds s :
  NoDup (queued_ids s ++ (Task.id <$> tds)) →
  fresh_run ((λ td, AssignTask td (token CONFIG)) <$> tds) s.
Proof.
  revert s. induction tds as [|td tds IH]; intros s Hnd; [done|].
  rewrite fmap_cons. cbn [fresh_run fresh]. split.
  - intros _ Hin. apply NoDup_app in Hnd as (_ & Hdis & _).
    apply (Hdis _ Hin). rewrite fmap_cons. apply list_elem_of_here.
  - apply IH. cbn [handle]. unfold assign_task, queued_ids.
    rewrite server_token_ok. cbn [negb snd add_task tasks_queue].
    rewrite fmap_app, fmap_cons. cbn [fmap list_fmap Task.id Task.set_country
      Task.set_status]. rewrite <- app_assoc. by rewrite fmap_cons in Hnd.
Qed.

Lemma relayed_ids (w : Coordinator.world) (target : string) :
  Task.id <$> Relay.relayed_tasks w target "ru"
  = Coordinator.sub_task_id (Coordinator.uuid4 w) <$> Coordinator.all_check_types.
Proof. reflexivity. Qed.

(** X10.  The ten posts of one [create_task] for ["ru"], served by the agent
    server in the order of the loop.  The token that the monitoring server
    sends is the token of the agent server, so every post is accepted.  If
    the queue has distinct ids and none of the ten new ones, the ten
    dictionaries are appended to it as they were posted (they are pending
    and of country ["ru"] already), which are the documents that
    [create_task] stored under [task:<id>]; the ids of the queue are then
    the old ones followed by the [sub_tasks] of the answer, and they are
    distinct again.  The agents are not touched. *)
Theorem relayed_fan_out_is_queued (w : Coordinator.world) (target : string) s
    (r : Coordinator.redis) :
  NoDup (queued_ids s) →
  (∀ ct, ct ∈ Coordinator.all_check_types →
     Coordinator.sub_task_id (Coordinator.uuid4 w) ct ∉ queued_ids s) →
  ∃ resp r' log,
    Coordinator.create_task w target "ru" r = inr (resp, r', log) ∧
    Relay.requests w target "ru"
      = (λ td, AssignTask td (token CONFIG)) <$> Relay.relayed_tasks w target "ru" ∧
    (∀ td, td ∈ Relay.relayed_tasks w target "ru" →
       Coordinator.redis_get ("task:" +:+ Task.id td) r' = Some td ∧
       Task.status td = "pending") ∧
    fresh_run (Relay.requests w target "ru") s ∧
    tasks_queue (run (Relay.requests w target "ru") s)
      = tasks_queue s ++ Relay.relayed_tasks w target "ru" ∧
    queued_ids (run (Relay.requests w target "ru") s)
      = queued_ids s ++ Coordinator.created_sub_tasks resp ∧
    NoDup (queued_ids (run (Relay.requests w target "ru") s)) ∧
    agents_db (run (Relay.requests w target "ru") s) = agents_db s.
Proof.
  intros Hnd Hnew.
  assert (Hreqs : Relay.requests w target "ru"
            = (λ td, AssignTask td (token CONFIG)) <$> Relay.relayed_tasks w target "ru")
    by reflexivity.
  assert (Hform : Relay.queued_form <$> Relay.relayed_tasks w target "ru"
                  = Relay.relayed_tasks w target "ru") by reflexivity.
  assert (Hall : NoDup (queued_ids s ++ (Task.id <$> Relay.relayed_tasks w target "ru"))).
  { rewrite relayed_ids. apply NoDup_app. split; [done|]. split.
    - intros x Hx (ct & -> & Hct)%list_elem_of_fmap. by apply (Hnew ct).
    - apply (NoDup_fmap_2 _), all_check_types_NoDup. }
  destruct (run_assign (Relay.relayed_tasks w target "ru") s) as (Hagents & Hqueue & _).
  do 3 eexists. split; [reflexivity|]. rewrite Hreqs.
  cbn [Coordinator.created_sub_tasks]. rewrite fan_out_sub_tasks.
  cbn [Coordinator.sub_tasks]. rewrite app_nil_l.
  split; [done|]. split_and!.
  - intros td (i & Hi)%list_elem_of_lookup.
    unfold Relay.relayed_tasks in Hi. rewrite list_lookup_imap in Hi.
    destruct (Coordinator.all_check_types !! i) as [ct|] eqn:Hct; [|done].
    injection Hi as <-. split; [|done].
    apply (fan_out_kv_hit w (Coordinator.uuid4 w) target "ru" 0 _ _ i ct);
      [apply all_check_types_NoDup|done].
  - by apply fresh_run_assign.
  - by rewrite Hqueue, Hform.
  - unfold queued_ids. by rewrite Hqueue, Hform, fmap_app, relayed_ids.
  - unfold queued_ids at 1. by rewrite Hqueue, Hform, fmap_app.
  - done.
Qed.

Lemma relayed_fan_out_is_queued_witness :
  ∃ resp r' log,
    Coordinator.create_task Scenario.world "example.com" "ru" Coordinator.empty_redis
    = inr (resp, r', log) ∧
    queued_ids (run (Relay.requests Scenario.world "example.com" "ru") initial)
    = queued_ids initial ++ Coordinator.created_sub_tasks resp.
Proof.
  destruct (relayed_fan_out_is_queued Scenario.world "example.com" initial
              Coordinator.empty_redis) as (resp & r' & log & Hc & _ & _ & _ & _ & Hids & _).
  - apply NoDup_nil_2.
  - intros ct _ Hin. by apply elem_of_nil in Hin.
  - exists resp, r', log. exact (conj Hc Hids).
Defined.

End RelayedTasks.

(** ** The monitoring server: countries and the status of a new check *)

Section NewCheck.

Import Coordinator.

Implicit Types (w : world) (r : redis).

Lemma agent_server_of_ru (c : string) : is_Some (agent_server_of c) ↔ c = "ru".
Proof.
  unfold agent_server_of, AGENT_SERVERS. cbn [List.find fst].
  case_bool_decide as Hc; cbn.
  - split; [done|]. by intros _; eexists.
  - split; [by intros [? ?]|congruence].
Qed.

(** X11.  [create_task] accepts the country ["ru"] and the word ["auto"], which
    it resolves to ["ru"]; every other country, the ["us"] of the examples
    of the root endpoint included, is refused with 400. *)
Theorem create_task_accepts_ru_only w (target country : string) r :
  (country = "auto" ∨ country = "ru" →
   ∃ resp r' log, create_task w target country r = inr (resp, r', log) ∧
     created_country resp = "ru" ∧
     created_agent_server resp = "http://localhost:8001") ∧
  (country ≠ "auto" → country ≠ "ru" →
   create_task w target country r
   = inl (HTTPException 400 ("No agent server for country: " +:+ country))).
Proof.
  split.
  - intros [-> | ->].
    + unfold create_task. rewrite resolve_auto. by do 3 eexists.
    + by do 3 eexists.
  - intros Hauto Hru. unfold create_task, resolve_country.
    rewrite bool_decide_eq_false_2 by done.
    destruct (agent_server_of country) as [cfg|] eqn:Hcfg; [|done].
    destruct Hru. apply agent_server_of_ru. by eexists.
Qed.

Lemma create_task_accepts_ru_only_witness :
  create_task Scenario.world "example.com" "us" empty_redis
  = inl (HTTPException 400 "No agent server for country: us").
Proof.
  apply (create_task_accepts_ru_only Scenario.world "example.com" "us" empty_redis);
    discriminate.
Defined.

End NewCheck.

(** ** The status of a check that was just created *)

Section StatusAfterCreate.

Import Coordinator.

Implicit Types (w : world) (r : redis) (keys : list string).

Example colon_is_the_colon : String StatusScan.colon "" = ":".
Proof. reflexivity. Qed.

Lemma chars_app (a b : string) :
  StatusScan.chars (a +:+ b) = StatusScan.chars a ++ StatusScan.chars b.
Proof.
  unfold StatusScan.chars. induction a as [|c a IH]; [done|].
  change (String c a +:+ b) with (String c (a +:+ b)).
  cbn [String.list_ascii_of_string]. by rewrite IH.
Qed.

Lemma task_prefix_has_colon (s : string) :
  String.prefix "task:" s = true → StatusScan.colon ∈ StatusScan.chars s.
Proof.
  destruct s as [|c1 [|c2 [|c3 [|c4 [|c5 rest]]]]]; cbn [String.prefix];
    repeat (match goal with
            | |- context [Ascii.ascii_dec ?a ?b] => destruct (Ascii.ascii_dec a b)
            end; try done); try done.
  subst. intros _. unfold StatusScan.chars. cbn [String.list_ascii_of_string].
  do 4 apply list_elem_of_further.
  apply list_elem_of_here.
Qed.

(** A string without a colon has no occurrence of ["task:"] to replace. *)
Lemma replace_without_colon (s : string) :
  StatusScan.colon ∉ StatusScan.chars s → Py.replace_from 0 s "task:" "" = s.
Proof.
  induction s as [|c s IH]; [done|]. intros Hno. cbn [Py.replace_from].
  destruct (String.prefix "task:" (String c s)) eqn:Hpre.
  - by apply task_prefix_has_colon in Hpre.
  - rewrite IH; [done|]. intros Hin. apply Hno. by apply list_elem_of_further.
Qed.

Lemma replace_from_skip (q rest old new : string) :
  Py.replace_from (String.length q) (q +:+ rest) old new
  = Py.replace_from 0 rest old new.
Proof.
  induction q as [|c q IH]; [done|].
  change (String c q +:+ rest) with (String c (q +:+ rest)).
  cbn [String.length Py.replace_from]. done.
Qed.

(** A string that starts with [old]: the occurrence is replaced and the
    scan goes on behind it. *)
Lemma replace_head c (p rest new : string) :
  Py.replace (String c p +:+ rest) (String c p) new
  = new +:+ Py.replace_from 0 rest (String c p) new.
Proof.
  unfold Py.replace. pose proof (startswith_app (String c p) rest) as Hpre.
  unfold Py.startswith in Hpre.
  change (String c p +:+ rest) with (String c (p +:+ rest)) in *.
  cbn [Py.replace_from]. rewrite Hpre.
  replace (String.length (String c p) - 1)%nat with (String.length p)
    by (cbn [String.length]; lia).
  by rewrite replace_from_skip.
Qed.

(** [("task:" + sid).replace("task:", "")] is [sid] when [sid] has no
    colon. *)
Lemma replace_task_key (sid : string) :
  StatusScan.colon ∉ StatusScan.chars sid →
  Py.replace ("task:" +:+ sid) "task:" "" = sid.
Proof.
  intros Hno. rewrite (replace_head _ _ sid "").
  change ("" +:+ ?x) with x. by apply replace_without_colon.
Qed.

Lemma string_app_assoc (a b c : string) : (a +:+ b) +:+ c = a +:+ (b +:+ c).
Proof.
  induction a as [|x a IH]; [done|].
  change (String x a +:+ b) with (String x (a +:+ b)).
  change (String x (a +:+ b) +:+ c) with (String x ((a +:+ b) +:+ c)).
  change (String x a +:+ (b +:+ c)) with (String x (a +:+ (b +:+ c))).
  by rewrite IH.
Qed.

Lemma scan_sub_tasks_omap (task_id : string) r keys (found : list Task.t) :
  scan_sub_tasks task_id r keys found
  = found ++ omap (StatusScan.picked task_id r) keys.
Proof.
  revert found. induction keys as [|key keys IH]; intros found.
  - by rewrite app_nil_r.
  - cbn [scan_sub_tasks omap list_omap]. unfold StatusScan.picked at 1.
    destruct (Py.startswith _ _); [|apply IH].
    destruct (get_task _ r) as [task|]; [|apply IH].
    rewrite IH. by rewrite <- app_assoc.
Qed.

Lemma omap_filter_ext {A B} (p : A → bool) (g h : A → option B) (l : list A) :
  (∀ x, x ∈ l → (if p x then g x else None) = h x) →
  omap g (List.filter p l) = omap h l.
Proof.
  induction l as [|x l IH]; intros Hext; [done|].
  cbn [List.filter omap list_omap].
  rewrite <- (Hext x) by apply list_elem_of_here.
  assert (omap g (List.filter p l) = omap h l) as Hrest.
  { apply IH. intros y Hy. apply Hext. by apply list_elem_of_further. }
  destruct (p x); cbn [omap list_omap]; by rewrite Hrest.
Qed.

Lemma omap_all_none {A B} (h : A → option B) (l : list A) :
  (∀ x, x ∈ l → h x = None) → omap h l = [].
Proof.
  induction l as [|x l IH]; intros Hnone; [done|].
  cbn [omap list_omap]. rewrite (Hnone x) by apply list_elem_of_here.
  apply IH. intros y Hy. apply Hnone. by apply list_elem_of_further.
Qed.

Lemma omap_fmap_imap {A B C} (h : B → option C) (f : A → B) (k : nat → A → C)
    (l : list A) :
  (∀ i x, l !! i = Some x → h (f x) = Some (k i x)) →
  omap h (f <$> l) = imap k l.
Proof.
  revert k. induction l as [|x l IH]; intros k Hk; [done|].
  rewrite fmap_cons. cbn [omap list_omap imap].
  rewrite (Hk 0%nat x) by done. f_equal. apply IH.
  intros i y Hy. apply (Hk (S i) y Hy).
Qed.

Lemma catalog_without_colon :
  Forall (λ ct, StatusScan.colon ∉ StatusScan.chars ct) all_check_types.
Proof. apply (bool_decide_unpack _). vm_compute. exact I. Qed.

Lemma with_status_perm (st : string) (l k : list Task.t) :
  l ≡ₚ k → with_status st l = with_status st k.
Proof. intros Hperm. unfold with_status. by rewrite Hperm. Qed.

(** X12.  A check that was just created, read back.  When the uuid drawn for the
    parent has no colon in it (a uuid has hexadecimal digits and dashes) and
    no key of the store reads as a sub-task of this parent yet, then after
    [create_task] for ["ru"] the status endpoint, asked for the parent id
    of the answer, reports exactly the ten sub-tasks that were relayed, in
    the order in which the store enumerates them: ten checks in total, ten
    of them pending, none with another status, and [completed] false. *)
Theorem new_check_reports_ten_pending w (target : string) r :
  StatusScan.colon ∉ StatusScan.chars (uuid4 w) →
  (∀ key, is_Some (kv r !! key) →
     Py.startswith (Py.replace key "task:" "") (uuid4 w +:+ "-") = false) →
  ∃ resp r' log rep,
    create_task w target "ru" r = inr (resp, r', log) ∧
    get_task_status (created_task_id resp) r' = inr rep ∧
    checks rep ≡ₚ Relay.relayed_tasks w target "ru" ∧
    total_checks rep = Some 10%nat ∧
    status_summary rep !! "pending" = Some 10%nat ∧
    (∀ st : string, st ≠ "pending" → default 0%nat (status_summary rep !! st) = 0%nat) ∧
    completed rep = false.
Proof.
  intros Hcolon Hfree.
  set (tid := uuid4 w).
  set (r' := store (fan_out w tid target "ru" 0 all_check_types
                      {| store := r; sub_tasks := []; log := [] |})).
  set (newkeys := task_key tid <$> all_check_types).
  set (allkeys := (map_to_list (kv r')).*1).
  set (h := λ key : string,
              if decide (key ∈ newkeys) then kv r' !! key else None).
  assert (Hhit : ∀ i ct, all_check_types !! i = Some ct →
            kv r' !! task_key tid ct = Some (task_data w i tid target ct "ru")).
  { intros i ct Hi. apply (fan_out_kv_hit w tid target "ru" 0 _ _ i ct); [|done].
    apply all_check_types_NoDup. }
  assert (Hpick : ∀ key, key ∈ allkeys →
            (if Py.startswith key "task:" then StatusScan.picked tid r' key else None)
            = h key).
  { intros key Hkey. unfold h. destruct (decide (key ∈ newkeys)) as [Hnew|Hold].
    - apply list_elem_of_fmap in Hnew as (ct & -> & Hct). unfold task_key.
      rewrite startswith_app. unfold StatusScan.picked.
      rewrite replace_task_key.
      + unfold sub_task_id. rewrite <- string_app_assoc, startswith_app.
        unfold get_task, redis_get. by rewrite string_app_assoc.
      + unfold sub_task_id. rewrite !chars_app. rewrite !not_elem_of_app.
        split; [done|]. split; [by apply (bool_decide_unpack _)|].
        by apply (proj1 (Forall_forall _ _) catalog_without_colon).
    - assert (is_Some (kv r !! key)) as Hr.
      { unfold allkeys in Hkey. apply list_elem_of_fmap in Hkey as ([k td] & -> & Hin).
        apply elem_of_map_to_list in Hin. cbn [fst] in *.
        pose proof (fan_out_kv_other w tid target "ru" 0 all_check_types
                      {| store := r; sub_tasks := []; log := [] |} k Hold) as Ho.
        cbn [store] in Ho. rewrite <- Ho. by exists td. }
      pose proof (Hfree key Hr) as Hf. fold tid in Hf.
      unfold StatusScan.picked. rewrite Hf. by destruct (Py.startswith key "task:"). }
  assert (Hfound : scan_sub_tasks tid r' (redis_scan_iter "task:" r') []
                   ≡ₚ Relay.relayed_tasks w target "ru").
  { rewrite scan_sub_tasks_omap, app_nil_l. unfold redis_scan_iter.
    fold allkeys. rewrite (omap_filter_ext _ _ h allkeys Hpick).
    assert (Hnd : NoDup allkeys) by apply NoDup_fst_map_to_list.
    assert (Hnew : filter (λ key, key ∈ newkeys) allkeys ≡ₚ newkeys).
    { apply NoDup_Permutation.
      - by apply NoDup_filter.
      - apply (NoDup_fmap_2 _), all_check_types_NoDup.
      - intros key. rewrite list_elem_of_filter. split; [by intros [? _]|].
        intros Hin. split; [done|].
        pose proof Hin as (ct & -> & (i & Hi)%list_elem_of_lookup)%list_elem_of_fmap.
        unfold allkeys. apply list_elem_of_fmap.
        exists (task_key tid ct, task_data w i tid target ct "ru").
        split; [done|]. apply elem_of_map_to_list. by apply Hhit. }
    rewrite <- (filter_app_complement (λ key, key ∈ newkeys) allkeys).
    rewrite omap_app, Hnew.
    rewrite (omap_all_none h (filter _ allkeys)).
    - rewrite app_nil_r. unfold newkeys.
      rewrite (omap_fmap_imap h (task_key tid)
                 (λ i ct, task_data w i tid target ct "ru")); [done|].
      intros i ct Hi. unfold h. rewrite decide_True.
      + by apply Hhit.
      + apply list_elem_of_fmap. exists ct. split; [done|].
        by eapply list_elem_of_lookup_2.
    - intros key [Hno _]%list_elem_of_filter. unfold h. by rewrite decide_False. }
  assert (Hcount : ∀ st, with_status st (scan_sub_tasks tid r' (redis_scan_iter "task:" r') [])
                         = if decide (st = "pending") then 10%nat else 0%nat).
  { intros st. rewrite (with_status_perm st _ _ Hfound). unfold with_status.
    unfold Relay.relayed_tasks. cbn [imap all_check_types]. rewrite !filter_cons.
    cbn [Task.status task_data]. rewrite filter_nil.
    destruct (decide (st = "pending")) as [->|Hne].
    - by rewrite !decide_True.
    - rewrite !decide_False; [done|by intros Heq; apply Hne..]. }
  exists {| created_status := "success";
            created_task_id := tid;
            created_target := target;
            created_country := "ru";
            created_check_types := all_check_types;
            created_sub_tasks := sub_tasks
              (fan_out w tid target "ru" 0 all_check_types
                 {| store := r; sub_tasks := []; log := [] |});
            created_agent_server := "http://localhost:8001" |}, r'.
  eexists. cbn [created_task_id].
  unfold get_task_status.
  destruct (scan_sub_tasks tid r' (redis_scan_iter "task:" r') [])
    as [|first found] eqn:Hscan.
  { apply Permutation_length in Hfound. by cbn in Hfound. }
  eexists. split; [reflexivity|]. split; [reflexivity|].
  cbn [checks total_checks status_summary completed].
  assert (Hlook : ∀ st, default 0%nat (count_statuses (first :: found) ∅ !! st)
                        = if decide (st = "pending") then 10%nat else 0%nat).
  { intros st. by rewrite count_statuses_lookup, lookup_empty, Hcount. }
  assert (Hlen : length (first :: found) = 10%nat).
  { by rewrite (Permutation_length Hfound). }
  split_and!.
  - done.
  - by rewrite Hlen.
  - specialize (Hlook "pending"). rewrite decide_True in Hlook by done.
    destruct (count_statuses (first :: found) ∅ !! "pending") as [n|];
      cbn in Hlook; [by subst|done].
  - intros st Hst. rewrite Hlook. by rewrite decide_False.
  - rewrite bool_decide_eq_false, Hlen, (Hlook "completed"). by rewrite decide_False.
Qed.

Lemma new_check_reports_ten_pending_witness :
  ∃ resp r' log rep,
    create_task Scenario.world "example.com" "ru" empty_redis = inr (resp, r', log) ∧
    get_task_status (created_task_id resp) r' = inr rep ∧
    total_checks rep = Some 10%nat.
Proof.
  destruct (new_check_reports_ten_pending Scenario.world "example.com" empty_redis)
    as (resp & r' & log & rep & H1 & H2 & _ & H3 & _).
  - apply (bool_decide_unpack _). vm_compute. exact I.
  - intros key [td Htd]. cbn [empty_redis kv] in Htd. by rewrite lookup_empty in Htd.
  - exists resp, r', log, rep. exact (conj H1 (conj H2 H3)).
Defined.

End StatusAfterCreate.

(** ** The status of a check against the store *)

Section StoredSubTasks.

Import Coordinator.

Implicit Types (r : redis) (keys : list string).

Lemma prefix_app_cancel (p a b : string) :
  String.prefix (p +:+ a) (p +:+ b) = String.prefix a b.
Proof.
  induction p as [|c p IH]; [done|].
  change (String c p +:+ ?x) with (String c (p +:+ x)).
  cbn [String.prefix]. by destruct (Ascii.ascii_dec c c).
Qed.

Lemma prefix_decompose (p s : string) :
  String.prefix p s = true → ∃ rest, s = p +:+ rest.
Proof.
  revert s. induction p as [|c p IH]; intros s; [by exists s|].
  destruct s as [|c' s]; cbn [String.prefix]; [done|].
  destruct (Ascii.ascii_dec c c') as [<-|]; [|done].
  intros [rest ->]%IH. by exists rest.
Qed.

Lemma scan_iter_elem (key p : string) r :
  key ∈ redis_scan_iter p r ↔ Py.startswith key p = true ∧ is_Some (kv r !! key).
Proof.
  unfold redis_scan_iter. rewrite list_elem_of_In, List.filter_In, <- list_elem_of_In.
  rewrite list_elem_of_fmap. split.
  - intros [([k t] & -> & Hin%elem_of_map_to_list) Hpre]. split; [done|by exists t].
  - intros [Hpre [t Ht]]. split; [|done]. exists (key, t). split; [done|].
    by apply elem_of_map_to_list.
Qed.

(** The document stored under [task:<parent>-<rest>], ids without a colon,
    is what the first loop keeps of that key. *)
Lemma picked_stored (task_id rest : string) r :
  StatusScan.colon ∉ StatusScan.chars task_id →
  StatusScan.colon ∉ StatusScan.chars rest →
  StatusScan.picked task_id r ("task:" +:+ task_id +:+ "-" +:+ rest)
  = kv r !! ("task:" +:+ task_id +:+ "-" +:+ rest).
Proof.
  intros Hid Hrest. unfold StatusScan.picked.
  rewrite replace_task_key.
  - rewrite <- (string_app_assoc task_id "-" rest), startswith_app.
    unfold get_task, redis_get. by rewrite string_app_assoc.
  - rewrite !chars_app, !not_elem_of_app. split; [done|]. split; [|done].
    by apply (bool_decide_unpack _).
Qed.

(** With ids without a colon under every key [task:...], the first loop of
    [get_task_status] finds exactly the documents stored under the keys
    [task:<parent>-...]. *)
Lemma scan_sub_tasks_exact (task_id : string) r :
  (∀ (sid : string) t, kv r !! ("task:" +:+ sid) = Some t →
     StatusScan.colon ∉ StatusScan.chars sid) →
  scan_sub_tasks task_id r (redis_scan_iter "task:" r) []
  = StatusScan.sub_task_docs task_id r.
Proof.
  intros Hwf. rewrite scan_sub_tasks_omap, app_nil_l.
  unfold redis_scan_iter, StatusScan.sub_task_docs.
  assert (Hl : ∀ k t, (k, t) ∈ map_to_list (kv r) → kv r !! k = Some t).
  { intros k t. by rewrite elem_of_map_to_list. }
  induction (map_to_list (kv r)) as [|[k t] l IH]; [done|].
  rewrite fmap_cons. cbn [fst List.filter].
  assert (Hrest : omap (StatusScan.picked task_id r)
                    (List.filter (λ key, Py.startswith key "task:") l.*1)
                  = (filter (λ entry : string * Task.t,
                               Py.startswith entry.1 ("task:" +:+ task_id +:+ "-") = true)
                       l).*2).
  { apply IH. intros k' t' Hin. apply Hl. by apply list_elem_of_further. }
  pose proof (Hl k t (list_elem_of_here _ _)) as Hk.
  destruct (Py.startswith k "task:") eqn:Hpre.
  - apply prefix_decompose in Hpre as [sid ->].
    pose proof (Hwf sid t Hk) as Hsid.
    cbn [omap list_omap]. unfold StatusScan.picked at 1.
    rewrite replace_task_key by done.
    unfold get_task, redis_get. rewrite Hk.
    assert (Hq : Py.startswith ("task:" +:+ sid) ("task:" +:+ task_id +:+ "-")
                 = Py.startswith sid (task_id +:+ "-")) by apply prefix_app_cancel.
    rewrite filter_cons. cbn [fst]. rewrite Hq.
    destruct (Py.startswith sid (task_id +:+ "-")) eqn:Hsub.
    + rewrite decide_True by done. rewrite fmap_cons. cbn [snd]. by rewrite Hrest.
    + by rewrite decide_False.
  - rewrite filter_cons_False; [done|]. cbn [fst]. intros Hsub.
    apply prefix_decompose in Hsub as [rest ->].
    rewrite string_app_assoc, startswith_app in Hpre. done.
Qed.

(** C5.  [get_task_status] aggregates the sub-tasks that the prefix scan
    finds for the parent id.  (1) It either answers 404, and then the scan
    found nothing and no task is stored under the id itself, or returns a
    report in which the counts of the summary sum to the number of reported
    checks, the count of each status is the number of checks with that
    status, [completed] is true exactly when the count of ["completed"]
    equals the number of checks, which is exactly when every check is
    completed, and every check is a task stored under an id that starts
    with the parent id and a dash (or, for a task without sub-tasks, the
    task itself); the answer is 404 whenever no stored task matches the id.
    (2) Every document stored under a key [task:<parent>-<rest>], the ids
    without a colon, is among the reported checks, and the report gives the
    number of checks as its total.  (3) When the id under every key
    [task:...] is without a colon, the reported checks are exactly the
    documents stored under the keys [task:<parent>-...], the total is
    their number; without any such document the report is the task stored
    under the id itself, and 404 when there is none. *)
Theorem get_task_status_aggregates (task_id : string) r :
  (match get_task_status task_id r with
   | inr rep =>
       summary_total (status_summary rep) = length (checks rep) ∧
       (∀ st, default 0%nat (status_summary rep !! st) = with_status st (checks rep)) ∧
       (completed rep = true
        ↔ default 0%nat (status_summary rep !! "completed") = length (checks rep)) ∧
       (completed rep = true
        ↔ Forall (λ task, Task.status task = "completed") (checks rep)) ∧
       checks rep ≠ [] ∧
       (∀ task, task ∈ checks rep →
          (∃ sid, Py.startswith sid (task_id +:+ "-") = true ∧ get_task sid r = Some task)
          ∨ get_task task_id r = Some task)
   | inl e =>
       e = HTTPException 404 "Task not found" ∧
       scan_sub_tasks task_id r (redis_scan_iter "task:" r) [] = [] ∧
       get_task task_id r = None
   end
   ∧ ((∀ sid, Py.startswith sid (task_id +:+ "-") = true → get_task sid r = None) →
      get_task task_id r = None →
      get_task_status task_id r = inl (HTTPException 404 "Task not found"))) ∧
  (∀ (rest : string) t,
     StatusScan.colon ∉ StatusScan.chars task_id →
     StatusScan.colon ∉ StatusScan.chars rest →
     kv r !! ("task:" +:+ task_id +:+ "-" +:+ rest) = Some t →
     ∃ rep, get_task_status task_id r = inr rep ∧
            t ∈ checks rep ∧
            total_checks rep = Some (length (checks rep))) ∧
  ((∀ (sid : string) t, kv r !! ("task:" +:+ sid) = Some t →
      StatusScan.colon ∉ StatusScan.chars sid) →
   match StatusScan.sub_task_docs task_id r with
   | _ :: _ =>
       ∃ rep, get_task_status task_id r = inr rep ∧
              checks rep = StatusScan.sub_task_docs task_id r ∧
              total_checks rep = Some (length (StatusScan.sub_task_docs task_id r))
   | [] =>
       match kv r !! ("task:" +:+ task_id) with
       | Some t =>
           ∃ rep, get_task_status task_id r = inr rep ∧
                  checks rep = [t] ∧ total_checks rep = None
       | None => get_task_status task_id r = inl (HTTPException 404 "Task not found")
       end
   end).
Proof.
  split; [apply get_task_status_report|]. split.
  - intros rest t Hid Hrest Ht.
    assert (t ∈ scan_sub_tasks task_id r (redis_scan_iter "task:" r) []) as Hin.
    { rewrite scan_sub_tasks_omap, app_nil_l. apply list_elem_of_omap.
      exists ("task:" +:+ task_id +:+ "-" +:+ rest). split.
      - apply scan_iter_elem. split; [apply startswith_app|by exists t].
      - by rewrite picked_stored. }
    unfold get_task_status.
    destruct (scan_sub_tasks task_id r (redis_scan_iter "task:" r) [])
      as [|first found]; [by apply elem_of_nil in Hin|].
    eexists. split; [reflexivity|]. by cbn [checks total_checks].
  - intros Hwf. unfold get_task_status. rewrite (scan_sub_tasks_exact _ _ Hwf).
    destruct (StatusScan.sub_task_docs task_id r) as [|first found].
    + unfold get_task, redis_get.
      destruct (kv r !! ("task:" +:+ task_id)) as [t|]; [|done].
      eexists. split; [reflexivity|]. by cbn [checks total_checks].
    + eexists. split; [reflexivity|]. by cbn [checks total_checks].
Qed.

Lemma get_task_status_aggregates_witness :
  ∃ rep,
    get_task_status Scenario.parent_id Scenario.store_after_check = inr rep ∧
    Scenario.http_task ∈ checks rep ∧
    total_checks rep = Some (length (checks rep)).
Proof.
  apply (proj1 (proj2 (get_task_status_aggregates Scenario.parent_id
                         Scenario.store_after_check)) "http").
  - apply (bool_decide_unpack _). vm_compute. exact I.
  - apply (bool_decide_unpack _). vm_compute. exact I.
  - vm_compute. reflexivity.
Defined.

End StoredSubTasks.

(** ** The admin endpoints of the monitoring server *)

Section Admin.

Import CoordinatorAdmin.

Implicit Types (docs : gmap string agent_doc).

(** X13.  [POST /admin/agents] never succeeds and never registers an agent:
    whatever the agent server answers, the endpoint answers 400 (for a
    country without agent server) or 500, and the store is as it was.
    When the agent server has created the agent and answered 200, the
    failure is the lookup of ["server_id"], a key that no entry of
    [AGENT_SERVERS] has. *)
Theorem admin_create_agent_never_registers (name country : string)
    (reply : post_reply) (now : Z) docs :
  (∃ code detail,
     create_agent name country reply now docs = (inl (HTTPException code detail), docs) ∧
     (code = 400%nat ∨ code = 500%nat)) ∧
  (∀ text agent_data,
     country = "ru" →
     create_agent name country (Response 200 text (inr agent_data)) now docs
     = (inl (HTTPException 500 "Agent server connection failed: 'server_id'"), docs)).
Proof.
  split.
  - unfold create_agent.
    destruct (Coordinator.agent_server_of country) as [cfg|]; [|eauto].
    destruct reply as [e|e|code text [e|agent_data]]; [eauto..| |].
    + case_bool_decide; eauto.
    + case_bool_decide; [|eauto]. cbn. eauto.
  - intros text agent_data ->. reflexivity.
Qed.

(** X14.  An agent registered by [register_agent] is read back by [get_agent]
    as it was written: offline, without load, with capacity 10 and without
    a heartbeat; [verify_agent] accepts its token and no other; the other
    agents are not touched.  [delete_agent_endpoint] answers with the
    deleted document and takes it out of the store, so that a second
    deletion, like the deletion of an id that was never registered, answers
    404 and changes nothing. *)
Theorem registered_agent_round_trip (agent_id name country server tok : string)
    (caps : list string) (now : Z) docs :
  let doc := fst (register_agent agent_id name country server tok caps now docs) in
  let docs1 := snd (register_agent agent_id name country server tok caps now docs) in
  get_agent agent_id docs1 = Some doc ∧
  status doc = "offline" ∧ current_tasks doc = 0%Z ∧ max_tasks doc = 10%Z ∧
  last_heartbeat doc = None ∧
  (∀ guess, verify_agent agent_id guess docs1 = true ↔ guess = tok) ∧
  (∀ other, other ≠ agent_id → get_agent other docs1 = get_agent other docs) ∧
  delete_agent_endpoint agent_id docs1 = (inr doc, delete_agent agent_id docs1) ∧
  get_agent agent_id (delete_agent agent_id docs1) = None ∧
  delete_agent_endpoint agent_id (delete_agent agent_id docs1)
  = (inl (HTTPException 404 "Agent not found"), delete_agent agent_id docs1) ∧
  (get_agent agent_id docs = None →
   delete_agent_endpoint agent_id docs = (inl (HTTPException 404 "Agent not found"), docs)).
Proof.
  cbn zeta. unfold register_agent. cbn [fst snd].
  assert (Hget : ∀ d, get_agent agent_id (<["agent:" +:+ agent_id := d]> docs) = Some d).
  { intros d. unfold get_agent. apply lookup_insert_eq. }
  split_and!; try done.
  - intros guess. unfold verify_agent. rewrite Hget. cbn [token].
    rewrite bool_decide_eq_true. split; by intros ->.
  - intros other Hne. unfold get_agent. rewrite lookup_insert_ne; [done|].
    by intros ?%(inj (String.app "agent:")).
  - unfold delete_agent_endpoint. by rewrite Hget.
  - unfold get_agent, delete_agent. apply lookup_delete_eq.
  - unfold delete_agent_endpoint, get_agent, delete_agent.
    by rewrite lookup_delete_eq.
  - unfold delete_agent_endpoint. by intros ->.
Qed.

End Admin.

(** ** Sweeps, registrations and heartbeats *)

Section Sweeps.

Import HostCheck HostCheckAgents.

Implicit Types (s : state) (info : agent_info) (cfg : Config).

Lemma filter_none {A} (P : A → Prop) `{!∀ x, Decision (P x)} (l : list A) :
  Forall (λ x, ¬ P x) l → filter P l = [].
Proof.
  induction 1 as [|x l Hx _ IH]; [done|]. by rewrite filter_cons_False.
Qed.

(** A sweep with a timeout that [timedelta] can hold, on every key. *)
Lemma cleanup_lookup cfg (now : Z) s (agent_id : string) :
  (-86399999913600 ≤ HEARTBEAT_TIMEOUT cfg ≤ 86399999999999)%Z →
  active_agents (cleanup_dead_agents cfg now s) !! agent_id
  = match active_agents s !! agent_id with
    | Some info =>
        if decide (HEARTBEAT_TIMEOUT cfg * 1000000 < now - last_heartbeat info)%Z
        then None else Some info
    | None => None
    end
  ∧ (agent_id ∈ redis_smembers "active_agents"
                  (redis_client (cleanup_dead_agents cfg now s))
     ↔ agent_id ∈ redis_smembers "active_agents" (redis_client s) ∧
       ∀ info, active_agents s !! agent_id = Some info →
               (now - last_heartbeat info ≤ HEARTBEAT_TIMEOUT cfg * 1000000)%Z).
Proof.
  intros Hrange.
  destruct (cleanup_dead_agents_spec cfg now s Hrange) as [Hoff Hlive].
  destruct (active_agents s !! agent_id) as [info|] eqn:Hinfo.
  - destruct (decide (HEARTBEAT_TIMEOUT cfg * 1000000 < now - last_heartbeat info)%Z)
      as [Hlt|Hge].
    + destruct (Hoff agent_id info Hinfo Hlt) as (-> & _ & Hset).
      split; [done|]. split; [done|]. intros [_ Hall].
      specialize (Hall info eq_refl). lia.
    + destruct (Hlive agent_id) as (-> & _ & ->).
      { intros info' Hinfo'. rewrite Hinfo in Hinfo'. injection Hinfo' as <-. lia. }
      split; [done|]. split; [|by intros [? _]].
      intros Hin. split; [done|]. intros ? [= <-]. lia.
  - destruct (Hlive agent_id) as (-> & _ & ->).
    { intros info' Hinfo'. by rewrite Hinfo in Hinfo'. }
    split; [done|]. split; [|by intros [? _]]. intros Hin. by split.
Qed.

(** X15.  Let [HEARTBEAT_TIMEOUT] be a number of seconds that [timedelta]
    can hold.  After a sweep the in-memory index holds exactly the agents
    it held before whose heartbeat was at most [HEARTBEAT_TIMEOUT] seconds
    old, unchanged; so a second sweep at the same clock reading, or at an
    earlier one, finds nothing to do.  With a timeout that [timedelta]
    cannot hold, the test raises and the sweep changes nothing. *)
Theorem sweep_keeps_the_fresh_agents cfg (now : Z) s :
  ((-86399999913600 ≤ HEARTBEAT_TIMEOUT cfg ≤ 86399999999999)%Z →
   (∀ (agent_id : string) info,
      active_agents (cleanup_dead_agents cfg now s) !! agent_id = Some info
      ↔ active_agents s !! agent_id = Some info ∧
        (now - last_heartbeat info ≤ HEARTBEAT_TIMEOUT cfg * 1000000)%Z) ∧
   (∀ earlier : Z, (earlier ≤ now)%Z →
      cleanup_dead_agents cfg earlier (cleanup_dead_agents cfg now s)
      = cleanup_dead_agents cfg now s)) ∧
  ((HEARTBEAT_TIMEOUT cfg < -86399999913600
    ∨ 86399999999999 < HEARTBEAT_TIMEOUT cfg)%Z →
   cleanup_dead_agents cfg now s = s).
Proof.
  split; [|apply cleanup_dead_agents_overflow]. intros Hrange.
  assert (Hkeep : ∀ (agent_id : string) info,
     active_agents (cleanup_dead_agents cfg now s) !! agent_id = Some info
     ↔ active_agents s !! agent_id = Some info ∧
       (now - last_heartbeat info ≤ HEARTBEAT_TIMEOUT cfg * 1000000)%Z).
  { intros agent_id info. rewrite (proj1 (cleanup_lookup cfg now s agent_id Hrange)).
    destruct (active_agents s !! agent_id) as [info'|]; [|by split; [|intros []]].
    destruct (decide (HEARTBEAT_TIMEOUT cfg * 1000000 < now - last_heartbeat info')%Z)
      as [Hlt|Hge].
    - split; [done|]. intros [[= ->] ?]. lia.
    - split; [intros [= <-]; split; [done|lia]|by intros [? _]]. }
  split; [done|]. intros earlier Hle.
  unfold cleanup_dead_agents at 1.
  rewrite collect_dead_in_range, app_nil_l by done.
  rewrite filter_none; [done|].
  apply Forall_forall. intros [key info] Hin%elem_of_map_to_list.
  apply Hkeep in Hin as [_ Hfresh]. cbn [snd]. lia.
Qed.

Lemma sweep_keeps_the_fresh_agents_witness :
  cleanup_dead_agents default_config 1700000300000000
    (cleanup_dead_agents default_config 1700000300000000 Scenario.registered)
  = cleanup_dead_agents default_config 1700000300000000 Scenario.registered.
Proof.
  apply (proj1 (sweep_keeps_the_fresh_agents default_config 1700000300000000
                  Scenario.registered)).
  - vm_compute. split; discriminate.
  - vm_compute. discriminate.
Defined.

(** A sweep does nothing when the in-memory index is empty, as it is
    after a restart of the service, whatever Redis holds and whatever the
    timeout: agents that are only in Redis are never marked offline. *)
Lemma sweep_of_empty_index cfg (now : Z) (r : redis) :
  cleanup_dead_agents cfg now {| active_agents := ∅; redis_client := r |}
  = {| active_agents := ∅; redis_client := r |}.
Proof.
  unfold cleanup_dead_agents. cbn [active_agents]. by rewrite map_to_list_empty.
Qed.

(** X16.  A registered agent is in the in-memory index, in its document and in
    the Redis set.  With a [HEARTBEAT_TIMEOUT] that [timedelta] can hold it
    stays in all three, online, through every sweep up to and including
    the one [HEARTBEAT_TIMEOUT] seconds after its registration, and the
    first sweep after that takes it out of the index and the set and
    writes it offline.  With a timeout that [timedelta] cannot hold every
    sweep leaves it where it is. *)
Theorem registered_agent_survives_until_timeout cfg (agent_name place : string)
    (caps : list string) (d : registration) s (now : Z) :
  let s1 := snd (register_agent agent_name place caps d s) in
  let s2 := cleanup_dead_agents cfg now s1 in
  let info :=
    mk_agent_info (uuid4 d) agent_name place caps (agent_token d) "online"
      (now_heartbeat d) 0 0 (now_created d) in
  fst (register_agent agent_name place caps d s) = (uuid4 d, agent_token d) ∧
  (active_agents s1 !! uuid4 d = Some info ∧
   kv (redis_client s1) !! ("agent:" +:+ uuid4 d) = Some info ∧
   uuid4 d ∈ redis_smembers "active_agents" (redis_client s1)) ∧
  ((-86399999913600 ≤ HEARTBEAT_TIMEOUT cfg ≤ 86399999999999)%Z →
   (now - now_heartbeat d ≤ HEARTBEAT_TIMEOUT cfg * 1000000)%Z →
   active_agents s2 !! uuid4 d = Some info ∧
   kv (redis_client s2) !! ("agent:" +:+ uuid4 d) = Some info ∧
   uuid4 d ∈ redis_smembers "active_agents" (redis_client s2)) ∧
  ((-86399999913600 ≤ HEARTBEAT_TIMEOUT cfg ≤ 86399999999999)%Z →
   (HEARTBEAT_TIMEOUT cfg * 1000000 < now - now_heartbeat d)%Z →
   active_agents s2 !! uuid4 d = None ∧
   kv (redis_client s2) !! ("agent:" +:+ uuid4 d)
   = Some (mk_agent_info (uuid4 d) agent_name place caps (agent_token d) "offline"
             (now_heartbeat d) 0 0 (now_created d)) ∧
   uuid4 d ∉ redis_smembers "active_agents" (redis_client s2)) ∧
  ((HEARTBEAT_TIMEOUT cfg < -86399999913600
    ∨ 86399999999999 < HEARTBEAT_TIMEOUT cfg)%Z →
   s2 = s1).
Proof.
  cbn zeta. unfold register_agent. cbn [fst snd].
  set (info := mk_agent_info (uuid4 d) agent_name place caps (agent_token d) "online"
                 (now_heartbeat d) 0 0 (now_created d)).
  set (s1 := {| active_agents := <[uuid4 d := info]> (active_agents s);
                redis_client := _ |}).
  assert (H1 : active_agents s1 !! uuid4 d = Some info) by apply lookup_insert_eq.
  assert (H2 : kv (redis_client s1) !! ("agent:" +:+ uuid4 d) = Some info)
    by apply lookup_insert_eq.
  assert (H3 : uuid4 d ∈ redis_smembers "active_agents" (redis_client s1)).
  { unfold s1, redis_smembers at 1. cbn. rewrite lookup_insert_eq. cbn.
    apply elem_of_union_r. by apply elem_of_singleton. }
  split; [done|]. split; [done|]. split_and!.
  - intros Hrange Hle.
    destruct (cleanup_dead_agents_spec cfg now s1 Hrange) as [_ Hlive].
    destruct (Hlive (uuid4 d)) as (-> & -> & ->); [|done].
    intros info' Hinfo'. rewrite H1 in Hinfo'. injection Hinfo' as <-.
    cbn [last_heartbeat info]. lia.
  - intros Hrange Hgt.
    destruct (cleanup_dead_agents_spec cfg now s1 Hrange) as [Hoff _].
    destruct (Hoff _ _ H1) as (-> & -> & Hout); [cbn [last_heartbeat info]; lia|].
    done.
  - apply cleanup_dead_agents_overflow.
Qed.

Lemma registered_agent_survives_until_timeout_witness :
  active_agents
    (cleanup_dead_agents default_config Scenario.sweep_time Scenario.registered)
    !! Scenario.worker_id = None.
Proof.
  apply (registered_agent_survives_until_timeout default_config "RU-agent-1" "RU"
           ["http"; "https"; "ping"; "tcp"; "dns"; "traceroute"]
           Scenario.registration start Scenario.sweep_time).
  - vm_compute. split; discriminate.
  - vm_compute. reflexivity.
Defined.

(** X17.  A heartbeat after a sweep brings the agent back half way.  Take an
    agent that a sweep, run with a [HEARTBEAT_TIMEOUT] that [timedelta] can
    hold, has marked offline.  Its next heartbeat puts it back into the
    in-memory index and writes its document online with the new heartbeat
    time, so later sweeps watch it again; but the heartbeat does not add
    the id to the Redis set [active_agents], which is still without it.  A
    heartbeat for an id without a document raises and writes nothing. *)
Theorem heartbeat_after_sweep cfg (now later active : Z) s (agent_id : string) info :
  (-86399999913600 ≤ HEARTBEAT_TIMEOUT cfg ≤ 86399999999999)%Z →
  active_agents s !! agent_id = Some info →
  (HEARTBEAT_TIMEOUT cfg * 1000000 < now - last_heartbeat info)%Z →
  ∃ s2 info2,
    agent_heartbeat agent_id active later (cleanup_dead_agents cfg now s) = Some s2 ∧
    active_agents s2 !! agent_id = Some info2 ∧
    kv (redis_client s2) !! ("agent:" +:+ agent_id) = Some info2 ∧
    status info2 = "online" ∧
    last_heartbeat info2 = later ∧
    id info2 = id info ∧ token info2 = token info ∧
    (agent_id ∉ redis_smembers "active_agents" (redis_client s2)) ∧
    (∀ missing : string,
       kv (redis_client s2) !! ("agent:" +:+ missing) = None →
       agent_heartbeat missing active later s2 = None).
Proof.
  intros Hrange Hinfo Hstale.
  destruct (cleanup_dead_agents_spec cfg now s Hrange) as [Hoff _].
  destruct (Hoff _ _ Hinfo Hstale) as (Hgone & Hdoc & Hout).
  unfold agent_heartbeat. rewrite Hdoc. do 2 eexists. split; [reflexivity|].
  cbn [active_agents redis_client redis_set kv]. rewrite !lookup_insert_eq.
  split_and!; try done.
  intros missing Hmissing. by rewrite Hmissing.
Qed.

Lemma heartbeat_after_sweep_witness :
  ∃ s2,
    agent_heartbeat Scenario.worker_id 0 1700000302000000
      (cleanup_dead_agents default_config Scenario.sweep_time Scenario.registered)
    = Some s2 ∧
    (Scenario.worker_id ∉ redis_smembers "active_agents" (redis_client s2)).
Proof.
  edestruct (heartbeat_after_sweep default_config Scenario.sweep_time
               1700000302000000 0 Scenario.registered Scenario.worker_id)
    as (s2 & info2 & H1 & _ & _ & _ & _ & _ & _ & H2 & _).
  - vm_compute. split; discriminate.
  - vm_compute. reflexivity.
  - vm_compute. reflexivity.
  - exists s2. exact (conj H1 H2).
Defined.

End Sweeps.
